(** * Resource allocation of the multi-agent project manager

    A shallow embedding of the allocation core of
    [backend/multi_agent_system.py]: the data models, the portfolio
    allocator [PortfolioManagerAgent.allocate_resources] and the deep-dive
    allocator [DeepDiveAgent.allocate_tasks], followed by the properties the
    specification states about them.

    Parts 4 to 7 embed what is computed from an allocation run and around
    it: [execute] of the two agents with the task templates of the deep
    dive and the utilization heat map, the skill gaps of the training
    agent, the choice of the deep-dive projects, the conversion layer of
    [backend/backend_integration.py] and the counter of
    [backend/ai_allocation_verifier.py]. Their properties, read off the
    code, follow those of the specification.

    - Python dictionaries keyed by member name are [gmap string _], the
      weekly ledger of one member is a [gmap Z Z], Python [int] is [Z].
    - Python [float] is an abstract arithmetic [PyFloat F] with two
      instances: exact rationals, and IEEE binary64, which is what CPython
      computes with. Whatever does not depend on the value of a score is
      proved for every arithmetic.
    - The local variables of an allocation loop form a record [state]; an
      iteration of a loop is a function on states; a run is a fold.
    - What a run prints is kept next to what it returns: the [journal]
      pairs each emitted allocation with the console line printed for it.
    - A run that raises is [None]: [PortfolioRun] and [DeepDiveRun] are
      the two allocators together with the one exception their loops can
      raise, that of [int(hours / 20)] on an infinity or NaN.
    - [uuid.uuid4()], which names every freshly built [Task], is a
      sequence [uuid : nat -> string] handed to the run. *)

From Stdlib Require Import ZArith QArith Floats Uint63 Sorted Lqa Ascii.
From stdpp Require Import gmap strings list fin_maps.

Local Open Scope Z_scope.

(* ===================================================================== *)
(** ** Python float arithmetic *)
(* ===================================================================== *)

(** The operations the allocators apply to floats. [of_int] is the implicit
    [int -> float] conversion, [to_int] is the value of [int(x)]
    (truncation toward zero) when that call returns, [flt] is [x < y], the
    only comparison [list.sort] performs. *)
Class PyFloat (F : Type) := {
  of_int : Z → F;
  fadd : F → F → F;
  fsub : F → F → F;
  fmul : F → F → F;
  fdiv : F → F → F;
  flt : F → F → bool;
  to_int : F → Z
}.

(** [int(x)] raises: OverflowError on an infinity, ValueError on NaN. It
    is the one operation of the allocation loops that can raise; the
    allocators guard every division by a length, and [hours_per_week] is
    20. *)
Class PyRaise (F : Type) := int_raises : F → bool.

(** A decimal literal [n/d] of the source ([0.15] is [lit 15 100]): the
    correctly rounded quotient of two exactly representable integers is
    the float nearest to the decimal, which is what the Python parser
    produces. *)
Definition lit `{PyFloat F} (n d : Z) : F := fdiv (of_int n) (of_int d).

(** Exact arithmetic on rationals. *)
Definition Qlt_bool (a b : Q) : bool := negb (Qle_bool b a).
Definition Qtruncate (q : Q) : Z := Z.quot (Qnum q) (Zpos (Qden q)).

#[export] Instance exact : PyFloat Q := {|
  of_int := inject_Z;
  fadd := Qplus;
  fsub := Qminus;
  fmul := Qmult;
  fdiv := Qdiv;
  flt := Qlt_bool;
  to_int := Qtruncate
|}.

(** Every rational is finite: [int(x)] always returns. *)
#[export] Instance exact_raise : PyRaise Q := λ _, false.

(** IEEE 754 binary64, the arithmetic CPython runs.

    [float_of_Z] is [float(n)], the integer rounded to the nearest float
    (ties to even): exact up to 2^53 and correctly rounded beyond. Where
    the rounded value would exceed the largest float, from 2^1024 - 2^970
    on, [float(n)] raises OverflowError; there [float_of_Z] is an
    infinity, on which [int_raises_float] holds.

    [Z_of_float] is the value of [int(x)] for the floats on which the call
    returns: a finite float truncated toward zero. On the two infinities
    and on NaN, where [int(x)] raises instead, [int_raises_float] is true
    and the value 0 of [Z_of_float] stands for no result of the program;
    the runs with exceptions, [PortfolioRun] and [DeepDiveRun], stop
    there and never read it. *)
Definition float_of_Z (z : Z) : float :=
  SF2Prim (binary_normalize prec emax z 0 false).

Definition Z_of_float (f : float) : Z :=
  match Prim2SF f with
  | S754_finite s m e =>
      let v := if 0 <=? e then Zpos m * 2 ^ e else Zpos m / 2 ^ (- e) in
      if s then - v else v
  | _ => 0
  end.

Definition int_raises_float (f : float) : bool :=
  match Prim2SF f with
  | S754_infinity _ | S754_nan => true
  | S754_zero _ | S754_finite _ _ _ => false
  end.

#[export] Instance binary64 : PyFloat float := {|
  of_int := float_of_Z;
  fadd := PrimFloat.add;
  fsub := PrimFloat.sub;
  fmul := PrimFloat.mul;
  fdiv := PrimFloat.div;
  flt := PrimFloat.ltb;
  to_int := Z_of_float
|}.

#[export] Instance binary64_raise : PyRaise float := int_raises_float.

(* ===================================================================== *)
(** ** Part 1: data models *)
(* ===================================================================== *)

Module TeamMember.
Record t {F : Type} := mk {
  name : string;
  profile : string;
  skills : list string;
  total_bandwidth_percent : Z;
  max_concurrent_tasks : Z;
  hourly_rate : F;
  location : string
}.
Arguments t : clear implicits.
Arguments mk {F}.
End TeamMember.

Module Project.
Record t {F : Type} := mk {
  id : string;
  name : string;
  description : string;
  priority : Z;
  budget : F;
  required_skills : list string;
  estimated_duration_weeks : Z;
  client : string;
  deadline : option string
}.
Arguments t : clear implicits.
Arguments mk {F}.
End Project.

Module Task.
Record t {F : Type} := mk {
  id : string;
  task_name : string;
  description : string;
  required_skills : list string;
  estimated_hours : F;
  phase : string;
  dependencies : list string
}.
Arguments t : clear implicits.
Arguments mk {F}.
End Task.

Module ResourceAllocation.
Record t {F : Type} := mk {
  project : Project.t F;
  task : Task.t F;
  team_member : TeamMember.t F;
  start_week : Z;
  end_week : Z;
  allocated_bandwidth : Z;
  estimated_cost : F
}.
Arguments t : clear implicits.
Arguments mk {F}.
End ResourceAllocation.

(** The two console lines an allocator prints when it emits an allocation:
    the check mark of the capacity-respecting branch and the warning
    (Overallocated) of the fallback branch. The journal of a run pairs
    every emitted allocation with the line printed for it. *)
Inductive console_line := Assigned | Overallocated.

#[export] Instance console_line_eq_dec : EqDecision console_line.
Proof. solve_decision. Defined.

(* ===================================================================== *)
(** ** Fragments shared by the two allocators

    Both allocation loops contain the same expressions for the task
    duration, the capacity check, the ledger update and the workload; they
    are written once here and used by both embeddings. *)
(* ===================================================================== *)

Definition hours_per_week : Z := 20.
Definition bandwidth_needed : Z := 50.

(** [sort] is stable; with [reverse=True] elements that compare equal keep
    their original order. [stable_sort before] places [x] ahead of the
    elements that follow it in the input unless one of them is strictly
    [before] it. *)
Fixpoint stable_insert {A} (before : A → A → bool) (x : A) (l : list A) : list A :=
  match l with
  | [] => [x]
  | y :: l' => if before y x then y :: stable_insert before x l' else x :: l
  end.

Definition stable_sort {A} (before : A → A → bool) (l : list A) : list A :=
  foldr (stable_insert before) [] l.

(** [d.get(k, 0)]. It also stands for the subscript [d[k]] of the
    per-member dictionaries, whose keys are the names of all team members
    from the first line of a run on, so that the subscript never misses. *)
Definition get0 `{Countable K} (d : gmap K Z) (k : K) : Z := default 0 (d !! k).

(** [bandwidth_tracker[name]], the weekly ledger of one member. *)
Definition ledger_of (bandwidth_tracker : gmap string (gmap Z Z)) (n : string) : gmap Z Z :=
  default ∅ (bandwidth_tracker !! n).

Section Shared.
Context {F : Type} `{PyFloat F}.

(** [l.sort(reverse=True, key=key)] *)
Definition sort_reverse {A} (key : A → F) (l : list A) : list A :=
  stable_sort (λ y x, flt (key x) (key y)) l.

(** [max(1, int(task.estimated_hours / hours_per_week))] *)
Definition duration_weeks (task : Task.t F) : Z :=
  Z.max 1 (to_int (fdiv (Task.estimated_hours task) (of_int hours_per_week))).

(** [sum(bandwidth_tracker[member.name].values())] *)
Definition total_workload (bandwidth_tracker : gmap string (gmap Z Z))
    (member : TeamMember.t F) : Z :=
  map_fold (λ _ used acc, used + acc) 0 (ledger_of bandwidth_tracker (TeamMember.name member)).

(** [1.0 / (1.0 + total_workload / 100.0)] *)
Definition workload_score_of (total : Z) : F :=
  fdiv (of_int 1) (fadd (of_int 1) (fdiv (of_int total) (of_int 100))).

(** [len(set(required_skills) & set(member.skills))] *)
Definition matched_skills (required_skills : list string) (member : TeamMember.t F) : Z :=
  Z.of_nat (size ((list_to_set required_skills : gset string)
                    ∩ list_to_set (TeamMember.skills member))).

(** The capacity check over [range(start_week, start_week + duration)]. *)
Definition can_assign (bandwidth_tracker : gmap string (gmap Z Z))
    (member : TeamMember.t F) (start_week duration : Z) : bool :=
  forallb
    (λ week, get0 (ledger_of bandwidth_tracker (TeamMember.name member)) week + bandwidth_needed
             <=? TeamMember.total_bandwidth_percent member)
    (seqZ start_week duration).

(** The ledger update of one member over the same range. *)
Definition book_weeks (ledger : gmap Z Z) (start_week duration : Z) : gmap Z Z :=
  foldl (λ acc week, <[week := get0 acc week + bandwidth_needed]> acc)
        ledger (seqZ start_week duration).

Definition book (bandwidth_tracker : gmap string (gmap Z Z))
    (member : TeamMember.t F) (start_week duration : Z) : gmap string (gmap Z Z) :=
  <[TeamMember.name member :=
      book_weeks (ledger_of bandwidth_tracker (TeamMember.name member)) start_week duration]>
    bandwidth_tracker.

(** The [ResourceAllocation(...)] constructor call, identical in the
    regular and in the fallback branch of both allocators. *)
Definition new_allocation (project : Project.t F) (task : Task.t F)
    (member : TeamMember.t F) (start_week : Z) : ResourceAllocation.t F :=
  ResourceAllocation.mk project task member
    start_week (start_week + duration_weeks task) bandwidth_needed
    (fmul (Task.estimated_hours task) (TeamMember.hourly_rate member)).

(** [{member.name: {} for member in team_members}] and
    [{member.name: 0 for member in team_members}] *)
Definition empty_ledgers (team_members : list (TeamMember.t F)) : gmap string (gmap Z Z) :=
  foldl (λ d member, <[TeamMember.name member := ∅]> d) ∅ team_members.

Definition zero_counters (team_members : list (TeamMember.t F)) : gmap string Z :=
  foldl (λ d member, <[TeamMember.name member := 0]> d) ∅ team_members.
End Shared.

(* ===================================================================== *)
(** ** Part 2: PortfolioManagerAgent *)
(* ===================================================================== *)

Module PortfolioManagerAgent.
Section Agent.
Context {F : Type} `{PyFloat F}.

(** [__init__]: [self.projects = sorted(projects, key=lambda x: x.priority)] *)
Definition sorted_projects (projects : list (Project.t F)) : list (Project.t F) :=
  stable_sort (λ y x, Project.priority y <? Project.priority x) projects.

Definition match_skills (required_skills : list string) (member : TeamMember.t F) : F :=
  match required_skills with
  | [] => lit 5 10
  | _ => fdiv (of_int (matched_skills required_skills member))
              (of_int (Z.of_nat (length required_skills)))
  end.

(** [0.5 if consecutive_count >= 3 else 1.0 - (consecutive_count * 0.15)] *)
Definition consecutive_score_of (consecutive_count : Z) : F :=
  if 3 <=? consecutive_count then lit 5 10
  else fsub (of_int 1) (fmul (of_int consecutive_count) (lit 15 100)).

Definition phases : list string :=
  ["Planning"; "Design"; "Development"; "Testing"; "Deployment"].

(** [_create_portfolio_tasks]. Every [Task(...)] draws its [id] from
    [uuid.uuid4()]; [uuid] is the sequence of identifiers the generator
    hands out and [fresh] the number drawn so far. The hours are the
    Python int [estimated_duration_weeks * 8], which the allocator only
    uses as an operand of [/] and [*] next to a float, where Python
    converts it: [of_int], exact for every int below 2^53. *)
Definition _create_portfolio_tasks (uuid : nat → string) (fresh : nat)
    (project : Project.t F) : list (Task.t F) :=
  imap (λ i phase,
          Task.mk (uuid (fresh + i)%nat)
                  (phase +:+ " - " +:+ Project.name project)
                  (phase +:+ " phase for " +:+ Project.name project)
                  (take 2 (Project.required_skills project))
                  (of_int (Project.estimated_duration_weeks project * 8))
                  phase
                  [])
       phases.

(** The local variables of [allocate_resources]. [journal] is
    [all_allocations] together with the console line of each entry. *)
Record state := mk_state {
  bandwidth_tracker : gmap string (gmap Z Z);
  member_earliest_week : gmap string Z;
  consecutive_tasks : gmap string Z;
  last_assigned_member : option string;
  journal : list (console_line * ResourceAllocation.t F)
}.

Definition initial_state (team_members : list (TeamMember.t F)) : state :=
  mk_state (empty_ledgers team_members) (zero_counters team_members)
           (zero_counters team_members) None [].

(** An entry of [member_candidates]. *)
Record candidate := mk_candidate {
  combined_score : F;
  skill_score : F;
  workload_score : F;
  consecutive_score : F;
  consecutive_count : Z;
  member : TeamMember.t F
}.

Definition score_member (st : state) (task : Task.t F) (m : TeamMember.t F) : candidate :=
  let skill := match_skills (Task.required_skills task) m in
  let workload := workload_score_of (total_workload (bandwidth_tracker st) m) in
  let count := get0 (consecutive_tasks st) (TeamMember.name m) in
  let consecutive := consecutive_score_of count in
  let combined :=
    fadd (fadd (fmul (lit 3 10) skill) (fmul (lit 5 10) workload))
         (fmul (lit 2 10) consecutive) in
  mk_candidate combined skill workload consecutive count m.

Definition member_candidates (team_members : list (TeamMember.t F))
    (st : state) (task : Task.t F) : list candidate :=
  sort_reverse combined_score (map (score_member st task) team_members).

(** The streak update: [if last_assigned_member:] is a truth test, so
    neither [None] nor the empty name resets the previous streak. *)
Definition update_streak (consecutive : gmap string Z) (last : option string)
    (n : string) : gmap string Z :=
  if decide (last = Some n) then <[n := get0 consecutive n + 1]> consecutive
  else
    let consecutive' :=
      match last with
      | Some l => if decide (l = EmptyString) then consecutive else <[l := 0]> consecutive
      | None => consecutive
      end in
    <[n := 1]> consecutive'.

(** The body shared by the [if can_assign:] branch and the fallback. *)
Definition assign (line : console_line) (project : Project.t F) (task : Task.t F)
    (m : TeamMember.t F) (st : state) : state :=
  let n := TeamMember.name m in
  let start_week := get0 (member_earliest_week st) n in
  let duration := duration_weeks task in
  mk_state (book (bandwidth_tracker st) m start_week duration)
           (<[n := start_week + duration]> (member_earliest_week st))
           (update_streak (consecutive_tasks st) (last_assigned_member st) n)
           (Some n)
           (journal st ++ [(line, new_allocation project task m start_week)]).

Definition fits (st : state) (task : Task.t F) (c : candidate) : bool :=
  can_assign (bandwidth_tracker st) (member c)
             (get0 (member_earliest_week st) (TeamMember.name (member c)))
             (duration_weeks task).

(** One iteration of [for task in tasks]. *)
Definition allocate_task (team_members : list (TeamMember.t F))
    (project : Project.t F) (st : state) (task : Task.t F) : state :=
  let candidates := member_candidates team_members st task in
  match find (fits st task) candidates with
  | Some c => assign Assigned project task (member c) st
  | None =>
      match candidates with
      | c :: _ => assign Overallocated project task (member c) st
      | [] => st
      end
  end.

(** [for project in self.projects] *)
Fixpoint allocate_projects (team_members : list (TeamMember.t F))
    (uuid : nat → string) (fresh : nat) (projects : list (Project.t F))
    (st : state) : state :=
  match projects with
  | [] => st
  | project :: rest =>
      allocate_projects team_members uuid (fresh + 5)%nat rest
        (foldl (allocate_task team_members project) st
               (_create_portfolio_tasks uuid fresh project))
  end.

Definition final_state (team_members : list (TeamMember.t F))
    (projects : list (Project.t F)) (uuid : nat → string) : state :=
  allocate_projects team_members uuid 0%nat (sorted_projects projects)
                    (initial_state team_members).

Definition allocate_resources (team_members : list (TeamMember.t F))
    (projects : list (Project.t F)) (uuid : nat → string)
    : list (ResourceAllocation.t F) :=
  (final_state team_members projects uuid).(journal).*2.
End Agent.
Arguments state : clear implicits.
Arguments candidate : clear implicits.
End PortfolioManagerAgent.

(* ===================================================================== *)
(** ** Part 3: DeepDiveAgent *)
(* ===================================================================== *)

Module DeepDiveAgent.
Section Agent.
Context {F : Type} `{PyFloat F}.

Definition phase_order : list string :=
  ["Planning"; "Design"; "Development"; "Testing"; "Deployment"].

(** [tasks_by_phase[phase]]: the tasks carrying that label, in input
    order; a task whose label is not a key of the dictionary is skipped
    by [if task.phase in tasks_by_phase]. *)
Definition tasks_by_phase (tasks : list (Task.t F)) (phase : string) : list (Task.t F) :=
  filter (λ task, Task.phase task = phase) tasks.

(** The local variables of [allocate_tasks]. *)
Record state := mk_state {
  bandwidth_tracker : gmap string (gmap Z Z);
  member_earliest_week : gmap string Z;
  phase_end_weeks : gmap string Z;
  phase_max_end_week : Z;
  journal : list (console_line * ResourceAllocation.t F)
}.

Definition initial_state (team_members : list (TeamMember.t F)) : state :=
  mk_state (empty_ledgers team_members) (zero_counters team_members) ∅ 0 [].

(** [matched / len(task.required_skills) if task.required_skills else 0.3] *)
Definition match_score_of (task : Task.t F) (m : TeamMember.t F) : F :=
  match Task.required_skills task with
  | [] => lit 3 10
  | required =>
      fdiv (of_int (matched_skills required m)) (of_int (Z.of_nat (length required)))
  end.

(** An entry [(combined_score, match_score, workload_score, member)]. *)
Definition candidate : Type := F * F * F * TeamMember.t F.
Definition combined_score (c : candidate) : F := c.1.1.1.
Definition member (c : candidate) : TeamMember.t F := c.2.

Definition score_member (st : state) (task : Task.t F) (m : TeamMember.t F) : candidate :=
  let match_score := match_score_of task m in
  let workload := workload_score_of (total_workload (bandwidth_tracker st) m) in
  let combined := fadd (fmul (lit 6 10) match_score) (fmul (lit 4 10) workload) in
  (combined, match_score, workload, m).

Definition member_candidates (team_members : list (TeamMember.t F))
    (st : state) (task : Task.t F) : list candidate :=
  sort_reverse combined_score (map (score_member st task) team_members).

(** [max(phase_start_week, member_earliest_week[member.name])] *)
Definition start_week_of (phase_start_week : Z) (st : state) (m : TeamMember.t F) : Z :=
  Z.max phase_start_week (get0 (member_earliest_week st) (TeamMember.name m)).

Definition assign (line : console_line) (project : Project.t F)
    (phase_start_week : Z) (task : Task.t F) (m : TeamMember.t F) (st : state) : state :=
  let start_week := start_week_of phase_start_week st m in
  let duration := duration_weeks task in
  mk_state (book (bandwidth_tracker st) m start_week duration)
           (<[TeamMember.name m := start_week + duration]> (member_earliest_week st))
           (phase_end_weeks st)
           (Z.max (phase_max_end_week st) (start_week + duration))
           (journal st ++ [(line, new_allocation project task m start_week)]).

Definition fits (phase_start_week : Z) (st : state) (task : Task.t F)
    (c : candidate) : bool :=
  can_assign (bandwidth_tracker st) (member c)
             (start_week_of phase_start_week st (member c)) (duration_weeks task).

(** One iteration of [for task in phase_tasks]. *)
Definition allocate_task (team_members : list (TeamMember.t F))
    (project : Project.t F) (phase_start_week : Z) (st : state) (task : Task.t F) : state :=
  let candidates := member_candidates team_members st task in
  match find (fits phase_start_week st task) candidates with
  | Some c => assign Assigned project phase_start_week task (member c) st
  | None =>
      match candidates with
      | c :: _ => assign Overallocated project phase_start_week task (member c) st
      | [] => st
      end
  end.

(** The gate of a phase: week 0 for the first phase, otherwise
    [phase_end_weeks.get(phase_order[phase_idx - 1], 0)]. *)
Definition phase_start_week_of (st : state) (phase_idx : nat) : Z :=
  match phase_idx with
  | O => 0
  | S prev_idx => get0 (phase_end_weeks st) (nth prev_idx phase_order EmptyString)
  end.

(** Raising every cursor that lies before the phase start. *)
Definition raise_cursors (team_members : list (TeamMember.t F))
    (phase_start_week : Z) (earliest : gmap string Z) : gmap string Z :=
  foldl (λ d m,
           if get0 d (TeamMember.name m) <? phase_start_week
           then <[TeamMember.name m := phase_start_week]> d else d)
        earliest team_members.

(** One iteration of [for phase_idx, phase in enumerate(phase_order)]. *)
Definition process_phase (team_members : list (TeamMember.t F))
    (project : Project.t F) (tasks : list (Task.t F))
    (st : state) (phase_idx : nat) (phase : string) : state :=
  match tasks_by_phase tasks phase with
  | [] => st
  | phase_tasks =>
      let phase_start_week := phase_start_week_of st phase_idx in
      let st1 :=
        mk_state (bandwidth_tracker st)
                 (raise_cursors team_members phase_start_week (member_earliest_week st))
                 (phase_end_weeks st) phase_start_week (journal st) in
      let st2 :=
        foldl (allocate_task team_members project phase_start_week) st1 phase_tasks in
      mk_state (bandwidth_tracker st2) (member_earliest_week st2)
               (<[phase := phase_max_end_week st2]> (phase_end_weeks st2))
               (phase_max_end_week st2) (journal st2)
  end.

Fixpoint process_phases (team_members : list (TeamMember.t F))
    (project : Project.t F) (tasks : list (Task.t F))
    (phase_idx : nat) (remaining : list string) (st : state) : state :=
  match remaining with
  | [] => st
  | phase :: rest =>
      process_phases team_members project tasks (S phase_idx) rest
        (process_phase team_members project tasks st phase_idx phase)
  end.

Definition final_state (project : Project.t F) (team_members : list (TeamMember.t F))
    (tasks : list (Task.t F)) : state :=
  process_phases team_members project tasks 0%nat phase_order
                 (initial_state team_members).

Definition allocate_tasks (project : Project.t F) (team_members : list (TeamMember.t F))
    (tasks : list (Task.t F)) : list (ResourceAllocation.t F) :=
  (final_state project team_members tasks).(journal).*2.
End Agent.
Arguments state : clear implicits.
End DeepDiveAgent.

(** [x] comes before [y] in [l]. *)
Definition precedes {A} (x y : A) (l : list A) : Prop := [x; y] `sublist_of` l.

Module PMA := PortfolioManagerAgent.
Module DDA := DeepDiveAgent.

(* ===================================================================== *)
(** ** The runs with their exceptions

    [PortfolioManagerAgent] and [DeepDiveAgent] above compute what a run
    of the allocator returns. A run can also end in an exception, and in
    one place only: [int(task.estimated_hours / hours_per_week)] raises
    when the quotient is an infinity or NaN. For a task the conversion is
    first evaluated in the first iteration of the loop over the sorted
    [member_candidates], after the members were scored and sorted (which
    cannot raise) and before anything is assigned or printed for the
    task; with an empty roster that loop and the fallback are both
    skipped, and the conversion is never evaluated. So a task raises
    exactly when the roster is not empty and its quotient is not finite.
    [None] is a run that ended in the exception. The hours of the
    phase-tasks of the portfolio are ints, which enter the quotient
    through [of_int]; see [_create_portfolio_tasks]. *)
(* ===================================================================== *)

(** A [for] loop whose body may raise. *)
Fixpoint for_each {A S} (body : S → A → option S) (st : S) (l : list A) : option S :=
  match l with
  | [] => Some st
  | x :: rest => st' ← body st x; for_each body st' rest
  end.

(** [int(task.estimated_hours / hours_per_week)] raises. *)
Definition duration_raises `{PyFloat F} `{PyRaise F} (task : Task.t F) : bool :=
  int_raises (fdiv (Task.estimated_hours task) (of_int hours_per_week)).

Module PortfolioRun.
Section Run.
Context {F : Type} `{PyFloat F} `{PyRaise F}.

(** One iteration of [for task in tasks]. *)
Definition allocate_task (team_members : list (TeamMember.t F))
    (project : Project.t F) (st : PMA.state F) (task : Task.t F) : option (PMA.state F) :=
  match team_members with
  | [] => Some (PMA.allocate_task team_members project st task)
  | _ :: _ =>
      if duration_raises task then None
      else Some (PMA.allocate_task team_members project st task)
  end.

(** [for project in self.projects] *)
Fixpoint allocate_projects (team_members : list (TeamMember.t F))
    (uuid : nat → string) (fresh : nat) (projects : list (Project.t F))
    (st : PMA.state F) : option (PMA.state F) :=
  match projects with
  | [] => Some st
  | project :: rest =>
      st' ← for_each (allocate_task team_members project) st
                     (PMA._create_portfolio_tasks uuid fresh project);
      allocate_projects team_members uuid (fresh + 5)%nat rest st'
  end.

Definition allocate_resources (team_members : list (TeamMember.t F))
    (projects : list (Project.t F)) (uuid : nat → string)
    : option (list (ResourceAllocation.t F)) :=
  st ← allocate_projects team_members uuid 0%nat (PMA.sorted_projects projects)
                         (PMA.initial_state team_members);
  Some (PMA.journal st).*2.
End Run.
End PortfolioRun.

Module DeepDiveRun.
Section Run.
Context {F : Type} `{PyFloat F} `{PyRaise F}.

(** One iteration of [for task in phase_tasks]. *)
Definition allocate_task (team_members : list (TeamMember.t F))
    (project : Project.t F) (phase_start_week : Z) (st : DDA.state F) (task : Task.t F)
    : option (DDA.state F) :=
  match team_members with
  | [] => Some (DDA.allocate_task team_members project phase_start_week st task)
  | _ :: _ =>
      if duration_raises task then None
      else Some (DDA.allocate_task team_members project phase_start_week st task)
  end.

(** One iteration of [for phase_idx, phase in enumerate(phase_order)]. *)
Definition process_phase (team_members : list (TeamMember.t F))
    (project : Project.t F) (tasks : list (Task.t F))
    (st : DDA.state F) (phase_idx : nat) (phase : string) : option (DDA.state F) :=
  match DDA.tasks_by_phase tasks phase with
  | [] => Some st
  | phase_tasks =>
      let phase_start_week := DDA.phase_start_week_of st phase_idx in
      let st1 :=
        DDA.mk_state (DDA.bandwidth_tracker st)
          (DDA.raise_cursors team_members phase_start_week (DDA.member_earliest_week st))
          (DDA.phase_end_weeks st) phase_start_week (DDA.journal st) in
      st2 ← for_each (allocate_task team_members project phase_start_week) st1 phase_tasks;
      Some (DDA.mk_state (DDA.bandwidth_tracker st2) (DDA.member_earliest_week st2)
              (<[phase := DDA.phase_max_end_week st2]> (DDA.phase_end_weeks st2))
              (DDA.phase_max_end_week st2) (DDA.journal st2))
  end.

Fixpoint process_phases (team_members : list (TeamMember.t F))
    (project : Project.t F) (tasks : list (Task.t F))
    (phase_idx : nat) (remaining : list string) (st : DDA.state F) : option (DDA.state F) :=
  match remaining with
  | [] => Some st
  | phase :: rest =>
      st' ← process_phase team_members project tasks st phase_idx phase;
      process_phases team_members project tasks (S phase_idx) rest st'
  end.

Definition allocate_tasks (project : Project.t F) (team_members : list (TeamMember.t F))
    (tasks : list (Task.t F)) : option (list (ResourceAllocation.t F)) :=
  st ← process_phases team_members project tasks 0%nat DDA.phase_order
                      (DDA.initial_state team_members);
  Some (DDA.journal st).*2.
End Run.
End DeepDiveRun.

(* ===================================================================== *)
(** ** Vocabulary of the properties *)
(* ===================================================================== *)

Section Vocabulary.
Context {F : Type} `{PyFloat F}.
Abbreviation entry := (console_line * ResourceAllocation.t F)%type.

(** The name and the capacity of the member an allocation is assigned to. *)
Definition member_name (a : ResourceAllocation.t F) : string :=
  TeamMember.name (ResourceAllocation.team_member a).

Definition capacity (a : ResourceAllocation.t F) : Z :=
  TeamMember.total_bandwidth_percent (ResourceAllocation.team_member a).

(** The half-open week interval of an allocation contains [w]. *)
Definition covers (a : ResourceAllocation.t F) (w : Z) : Prop :=
  ResourceAllocation.start_week a ≤ w < ResourceAllocation.end_week a.

(** What an entry of the journal records about the branch that emitted it. *)
Record entry_ok (e : entry) : Prop := {
  entry_end : ResourceAllocation.end_week e.2
              = ResourceAllocation.start_week e.2
                + duration_weeks (ResourceAllocation.task e.2);
  entry_cost : ResourceAllocation.estimated_cost e.2
               = fmul (Task.estimated_hours (ResourceAllocation.task e.2))
                      (TeamMember.hourly_rate (ResourceAllocation.team_member e.2));
  entry_bandwidth : ResourceAllocation.allocated_bandwidth e.2 = bandwidth_needed;
  entry_assigned : e.1 = Assigned → bandwidth_needed ≤ capacity e.2;
  entry_overallocated : e.1 = Overallocated → capacity e.2 < bandwidth_needed
}.

(** The entries of one member name follow each other in time. *)
Definition sequential (j : list entry) : Prop :=
  ∀ i k e1 e2,
    j !! i = Some e1 → j !! k = Some e2 → (i < k)%nat →
    member_name e1.2 = member_name e2.2 →
    ResourceAllocation.end_week e1.2 ≤ ResourceAllocation.start_week e2.2.

(** The invariant of both allocation loops: the ledger of a member is
    empty from the member's cursor on, and every emitted allocation ends
    at or before the cursor of its member. *)
Record tracker_inv (bt : gmap string (gmap Z Z)) (ew : gmap string Z)
    (j : list entry) : Prop := {
  inv_free : ∀ n w, get0 ew n ≤ w → get0 (ledger_of bt n) w = 0;
  inv_entries : Forall entry_ok j;
  inv_cursor : ∀ e, e ∈ j → ResourceAllocation.end_week e.2 ≤ get0 ew (member_name e.2);
  inv_sequential : sequential j
}.

Definition pma_inv (st : PMA.state F) : Prop :=
  tracker_inv (PMA.bandwidth_tracker st) (PMA.member_earliest_week st) (PMA.journal st).

Definition dda_inv (st : DDA.state F) : Prop :=
  tracker_inv (DDA.bandwidth_tracker st) (DDA.member_earliest_week st) (DDA.journal st).

(** What one pass of the inner task loop adds to the journal: entries
    labelled with the tasks' phase, starting at or after the gate [g] and
    ending at or before the running maximum. *)
Record phase_progress (g : Z) (phase : string) (st0 st : DDA.state F) : Prop := {
  progress_inv : dda_inv st;
  progress_ends : DDA.phase_end_weeks st = DDA.phase_end_weeks st0;
  progress_gate : g ≤ DDA.phase_max_end_week st;
  progress_journal :
    ∃ new, DDA.journal st = DDA.journal st0 ++ new ∧
      Forall (λ e, Task.phase (ResourceAllocation.task e.2) = phase ∧
                   g ≤ ResourceAllocation.start_week e.2 ∧
                   ResourceAllocation.end_week e.2 ≤ DDA.phase_max_end_week st) new
}.

(** The phase label of the task an entry allocates. *)
Definition label (e : entry) : string := Task.phase (ResourceAllocation.task e.2).

(** The invariant of the phase loop before the phase of index [idx]. *)
Record order_inv (idx : nat) (st : DDA.state F) : Prop := {
  ord_labels : ∀ e, e ∈ DDA.journal st →
    ∃ i, (i < idx)%nat ∧ DDA.phase_order !! i = Some (label e);
  ord_prev : ∀ k e, idx = S k → e ∈ DDA.journal st →
    DDA.phase_order !! k = Some (label e) →
    ResourceAllocation.end_week e.2 ≤ get0 (DDA.phase_end_weeks st) (label e);
  ord_order : ∀ k a b, a ∈ DDA.journal st → b ∈ DDA.journal st →
    DDA.phase_order !! S k = Some (label a) →
    DDA.phase_order !! k = Some (label b) →
    ResourceAllocation.end_week b.2 ≤ ResourceAllocation.start_week a.2
}.

(** Until the first allocation is emitted all cursors and recorded phase
    ends are 0; the first allocation therefore starts at week 0. *)
Record first_inv (st : DDA.state F) : Prop := {
  first_untouched : DDA.journal st = [] →
    (∀ n, get0 (DDA.member_earliest_week st) n = 0) ∧
    (∀ p, get0 (DDA.phase_end_weeks st) p = 0);
  first_head : ∀ e, head (DDA.journal st) = Some e → ResourceAllocation.start_week e.2 = 0
}.

(** The tasks of an allocation list, in order. *)
Definition tasks_of (j : list (console_line * ResourceAllocation.t F)) : list (Task.t F) :=
  ResourceAllocation.task <$> j.*2.

(** All synthetic tasks of a portfolio run, in creation order. *)
Fixpoint portfolio_tasks (uuid : nat → string) (fresh : nat)
    (projects : list (Project.t F)) : list (Task.t F) :=
  match projects with
  | [] => []
  | project :: rest =>
      PMA._create_portfolio_tasks uuid fresh project
      ++ portfolio_tasks uuid (fresh + 5)%nat rest
  end.

(** The phase label is one of the five keys of [tasks_by_phase]. *)
Definition known_phase (task : Task.t F) : Prop := Task.phase task ∈ DDA.phase_order.

#[export] Instance known_phase_dec (task : Task.t F) : Decision (known_phase task).
Proof. unfold known_phase. apply _. Defined.

(** A task, and an allocation, with the generated identifier erased. *)
Definition blank_id (task : Task.t F) : Task.t F :=
  Task.mk EmptyString (Task.task_name task) (Task.description task)
          (Task.required_skills task) (Task.estimated_hours task) (Task.phase task)
          (Task.dependencies task).

Definition blank (a : ResourceAllocation.t F) : ResourceAllocation.t F :=
  ResourceAllocation.mk (ResourceAllocation.project a)
    (blank_id (ResourceAllocation.task a)) (ResourceAllocation.team_member a)
    (ResourceAllocation.start_week a) (ResourceAllocation.end_week a)
    (ResourceAllocation.allocated_bandwidth a) (ResourceAllocation.estimated_cost a).

(** Two states of the portfolio loop that differ in task identifiers only. *)
Record same_up_to_ids (st st' : PMA.state F) : Prop := {
  same_tracker : PMA.bandwidth_tracker st = PMA.bandwidth_tracker st';
  same_cursors : PMA.member_earliest_week st = PMA.member_earliest_week st';
  same_streaks : PMA.consecutive_tasks st = PMA.consecutive_tasks st';
  same_last : PMA.last_assigned_member st = PMA.last_assigned_member st';
  same_journal : prod_map id blank <$> PMA.journal st
                 = prod_map id blank <$> PMA.journal st'
}.

(** The states of the portfolio loop between two task assignments. *)
Inductive pma_reachable (team : list (TeamMember.t F)) : PMA.state F → Prop :=
| reach_initial : pma_reachable team (PMA.initial_state team)
| reach_step project st task :
    pma_reachable team st →
    pma_reachable team (PMA.allocate_task team project st task).

(** Only the most recently assigned member has a nonzero counter. *)
Record streak_inv (st : PMA.state F) : Prop := {
  streak_only_last : ∀ n,
    get0 (PMA.consecutive_tasks st) n ≠ 0 → PMA.last_assigned_member st = Some n;
  streak_last : ∀ n,
    PMA.last_assigned_member st = Some n →
    n ≠ EmptyString ∧ 1 ≤ get0 (PMA.consecutive_tasks st) n
}.
End Vocabulary.

Section CapacityVocabulary.
Context {F : Type} `{PyFloat F} `{!EqDecision F}.

#[export] Instance team_member_eq_dec : EqDecision (TeamMember.t F).
Proof. solve_decision. Defined.

(** The allocation is one of [m]'s and its interval covers week [w]. *)
Definition booked (m : TeamMember.t F) (w : Z) (a : ResourceAllocation.t F) : Prop :=
  ResourceAllocation.team_member a = m ∧ covers a w.

#[export] Instance booked_dec (m : TeamMember.t F) (w : Z) (a : ResourceAllocation.t F) :
  Decision (booked m w a).
Proof. unfold booked, covers. apply _. Defined.

(** The bandwidth of [m] that the allocations commit in week [w]. *)
Definition committed (allocations : list (ResourceAllocation.t F))
    (m : TeamMember.t F) (w : Z) : Z :=
  foldr (λ a acc, ResourceAllocation.allocated_bandwidth a + acc) 0
        (filter (booked m w) allocations).

(** Some allocation of [m] covering week [w] was reported as overallocated. *)
Definition flagged (j : list (console_line * ResourceAllocation.t F))
    (m : TeamMember.t F) (w : Z) : Prop :=
  Exists (λ e, e.1 = Overallocated ∧ booked m w e.2) j.

#[export] Instance flagged_dec (j : list (console_line * ResourceAllocation.t F))
    (m : TeamMember.t F) (w : Z) : Decision (flagged j m w).
Proof. unfold flagged. apply _. Defined.
End CapacityVocabulary.

(** Both arithmetics have a decidable equality: rationals as pairs of
    integers, floats by comparing their bits. *)
#[export] Instance Q_eq_dec : EqDecision Q.
Proof. solve_decision. Defined.

#[export] Instance float_eq_dec : EqDecision float.
Proof.
  intros x y. destruct (PrimFloat.Leibniz.eqb x y) eqn:Heq.
  - left. by apply FloatAxioms.Leibniz.eqb_spec.
  - right. intros Hxy. apply FloatAxioms.Leibniz.eqb_spec in Hxy. congruence.
Defined.

(* ===================================================================== *)
(** ** Concrete rosters, projects and tasks *)
(* ===================================================================== *)

Module Scenario.
(** Two sequences of generated identifiers. *)
Definition uuid (n : nat) : string :=
  nth n ["3f1c9e2a"; "a07b44d1"; "5d2e8c30"; "c91f0b7e"; "08ab63f4";
         "e4417a9c"; "7b20d4a6"; "19c5e8d2"; "b6f03a71"; "4ae9172c"] "00000000".
Definition uuid' (n : nat) : string :=
  nth n ["91d0c3b5"; "2c7e5f08"; "f3a816d9"; "60b49e17"; "d85c21fa";
         "3e9a70c4"; "a1f6b852"; "57c2d9e0"; "0b8e43a6"; "c4d7195f"] "ffffffff".

Section Inputs.
Context {F : Type} `{PyFloat F}.

Definition developer (name : string) (skills : list string) (capacity : Z) : TeamMember.t F :=
  TeamMember.mk name "Developer" skills capacity 2 (of_int 50) "Remote".

(** A priority-1 project whose phase-tasks require [python]. *)
Definition portal (duration : Z) : Project.t F :=
  Project.mk "p1" "Portal" "Customer portal" 1 (of_int 100000) ["python"] duration
             "Internal" None.

Definition billing : Project.t F :=
  Project.mk "p2" "Billing" "Billing service" 2 (of_int 50000) ["python"] 5
             "Internal" None.

Definition work_item (name phase : string) (hours : Z) : Task.t F :=
  Task.mk name name "work item" ["python"] (of_int hours) phase [].

(** The roster of the end-to-end scenario of the specification. *)
Definition A : TeamMember.t F := developer "A" ["python"] 100.
Definition B : TeamMember.t F := developer "B" ["java"] 50.

Definition ann (capacity : Z) : TeamMember.t F := developer "Ann" ["python"] capacity.
Definition bob : TeamMember.t F := developer "Bob" ["python"] 100.
Definition unnamed : TeamMember.t F := developer EmptyString [] 100.
Definition bea : TeamMember.t F := developer "B" [] 100.

Definition backlog : list (Task.t F) :=
  [work_item "Requirements" "Planning" 40; work_item "Architecture" "Design" 60;
   work_item "Operations" "Maintenance" 30; work_item "Charter" "Planning" 20;
   work_item "Database" "Design" 40; work_item "Testing" "Testing" 30].

(** The state of the portfolio loop after the first two phase-tasks of
    [portal 5] were allocated among [unnamed] and [bea]. *)
Definition after_two_tasks : PMA.state F :=
  foldl (PMA.allocate_task [unnamed; bea] (portal 5))
        (PMA.initial_state [unnamed; bea])
        (take 2 (PMA._create_portfolio_tasks uuid 0 (portal 5))).

(** Who got which task from which week on. *)
Definition assignee_and_start (a : ResourceAllocation.t F) : string * Z :=
  (TeamMember.name (ResourceAllocation.team_member a), ResourceAllocation.start_week a).

(** Every field of an allocation but the assignee. *)
Definition without_assignee (a : ResourceAllocation.t F)
    : Project.t F * Task.t F * Z * Z * Z * F :=
  (ResourceAllocation.project a, ResourceAllocation.task a,
   ResourceAllocation.start_week a, ResourceAllocation.end_week a,
   ResourceAllocation.allocated_bandwidth a, ResourceAllocation.estimated_cost a).
End Inputs.

(** A task whose estimate is not a finite number of hours. *)
Definition open_ended : Task.t float :=
  Task.mk "Research" "Research" "work item" ["python"] PrimFloat.infinity "Planning" [].

End Scenario.

(* ===================================================================== *)
(** ** Vocabulary of the properties of whole runs *)
(* ===================================================================== *)

Section RunVocabulary.
Context {F : Type} `{PyFloat F}.

(** What an entry of the journal owes to the roster: its member is on it,
    it starts at a week of the calendar, and the fallback emitted it only
    if nobody on the roster has the capacity for a task. *)
Record entry_from (team : list (TeamMember.t F))
    (e : console_line * ResourceAllocation.t F) : Prop := {
  from_roster : ResourceAllocation.team_member e.2 ∈ team;
  from_week_0 : 0 ≤ ResourceAllocation.start_week e.2;
  from_fallback :
    e.1 = Overallocated →
    ∀ m, m ∈ team → TeamMember.total_bandwidth_percent m < bandwidth_needed
}.

Record roster_inv (team : list (TeamMember.t F)) (ew : gmap string Z)
    (j : list (console_line * ResourceAllocation.t F)) : Prop := {
  roster_cursors : ∀ n, 0 ≤ get0 ew n;
  roster_entries : Forall (entry_from team) j
}.

(** The states of the deep-dive loops: the initial state, the state in
    which the phase loop enters the tasks of a phase, the states between
    two task assignments and the state in which a phase is left. *)
Inductive dda_reachable (team : list (TeamMember.t F)) : DDA.state F → Prop :=
| dda_reach_initial : dda_reachable team (DDA.initial_state team)
| dda_reach_enter g st :
    dda_reachable team st →
    dda_reachable team
      (DDA.mk_state (DDA.bandwidth_tracker st)
         (DDA.raise_cursors team g (DDA.member_earliest_week st))
         (DDA.phase_end_weeks st) g (DDA.journal st))
| dda_reach_step project g st task :
    dda_reachable team st →
    dda_reachable team (DDA.allocate_task team project g st task)
| dda_reach_leave phase st :
    dda_reachable team st →
    dda_reachable team
      (DDA.mk_state (DDA.bandwidth_tracker st) (DDA.member_earliest_week st)
         (<[phase := DDA.phase_max_end_week st]> (DDA.phase_end_weeks st))
         (DDA.phase_max_end_week st) (DDA.journal st)).

(** The invariant of the phase loop before the phase of index [idx] when
    no phase is without a task: the recorded phase ends do not decrease
    along the phase order, and the allocations of an earlier phase end
    before those of any later phase start. *)
Record chain_inv (idx : nat) (st : DDA.state F) : Prop := {
  chain_labels : ∀ e, e ∈ DDA.journal st →
    ∃ i, (i < idx)%nat ∧ DDA.phase_order !! i = Some (label e) ∧
         ResourceAllocation.end_week e.2 ≤ get0 (DDA.phase_end_weeks st) (label e);
  chain_ends : ∀ i k p q, (i ≤ k < idx)%nat →
    DDA.phase_order !! i = Some p → DDA.phase_order !! k = Some q →
    get0 (DDA.phase_end_weeks st) p ≤ get0 (DDA.phase_end_weeks st) q;
  chain_order : ∀ i k a b, a ∈ DDA.journal st → b ∈ DDA.journal st → (i < k)%nat →
    DDA.phase_order !! k = Some (label a) → DDA.phase_order !! i = Some (label b) →
    ResourceAllocation.end_week b.2 ≤ ResourceAllocation.start_week a.2
}.
(** The comparison [<] orders the scores [l]: no two of them are below
    each other, and being not below is transitive. In exact arithmetic
    every list of scores is ordered; in binary64 every list without a
    NaN is, while a NaN is neither below nor above anything. *)
Definition ordered_scores (l : list F) : Prop :=
  (∀ x y, x ∈ l → y ∈ l → flt x y = true → flt y x = false)
  ∧ (∀ x y z, x ∈ l → y ∈ l → z ∈ l →
       flt x y = false → flt y z = false → flt x z = false).
End RunVocabulary.

(** The rank of a float that is not NaN: the floats are ordered as
    their ranks are, lexicographically. *)
Definition float_rank (f : spec_float) : Z * Z * Z :=
  match f with
  | S754_infinity true => (-2, 0, 0)
  | S754_finite true m e => (-1, - e, - Zpos m)
  | S754_zero _ | S754_nan => (0, 0, 0)
  | S754_finite false m e => (1, e, Zpos m)
  | S754_infinity false => (2, 0, 0)
  end.

Definition rank_lt (a b : Z * Z * Z) : Prop :=
  a.1.1 < b.1.1
  ∨ (a.1.1 = b.1.1 ∧ (a.1.2 < b.1.2 ∨ (a.1.2 = b.1.2 ∧ a.2 < b.2))).

Section OutputVocabulary.
Context {F : Type} `{PyFloat F}.

(** The week until which the allocations keep the member of that name
    busy: the end week of the last allocation that names the member, week
    0 if there is none. *)
Definition busy_until (allocations : list (ResourceAllocation.t F)) (n : string) : Z :=
  foldl (λ week a, if decide (member_name a = n) then ResourceAllocation.end_week a else week)
        0 allocations.

(** The number of weeks the allocations assign to the member of that name. *)
Definition assigned_weeks (allocations : list (ResourceAllocation.t F)) (n : string) : Z :=
  foldr (λ a weeks,
           if decide (member_name a = n)
           then ResourceAllocation.end_week a - ResourceAllocation.start_week a + weeks
           else weeks)
        0 allocations.

(** The bandwidth of the allocations naming [n] whose weeks from the start
    week to the end week, the end week included, contain [w]. *)
Definition shown (allocations : list (ResourceAllocation.t F)) (n : string) (w : Z) : Z :=
  foldr (λ a total,
           if decide (member_name a = n
                      ∧ ResourceAllocation.start_week a ≤ w ≤ ResourceAllocation.end_week a)
           then ResourceAllocation.allocated_bandwidth a + total else total)
        0 allocations.

(** The invariant of the portfolio loop on the calendar of each member
    name: the cursor is the end of the member's last allocation, and the
    member's allocations fill the weeks before it without a gap. *)
Record calendar_inv (st : PMA.state F) : Prop := {
  cal_cursor : ∀ n, get0 (PMA.member_earliest_week st) n = busy_until (PMA.journal st).*2 n;
  cal_filled : ∀ n, busy_until (PMA.journal st).*2 n = assigned_weeks (PMA.journal st).*2 n;
  cal_start : ∀ k a, (PMA.journal st).*2 !! k = Some a →
    ResourceAllocation.start_week a = busy_until (take k (PMA.journal st).*2) (member_name a)
}.

(** The invariant of both allocation loops on the ledger of each member
    name: it has no entry from the cursor on, and it holds the bandwidth
    of one task for each week assigned to the member. *)
Record ledger_inv (bt : gmap string (gmap Z Z)) (ew : gmap string Z)
    (j : list (console_line * ResourceAllocation.t F)) : Prop := {
  ledger_beyond : ∀ n w, get0 ew n ≤ w → ledger_of bt n !! w = None;
  ledger_total : ∀ n,
    map_fold (λ _ used acc, used + acc) 0 (ledger_of bt n)
    = bandwidth_needed * assigned_weeks j.*2 n
}.
End OutputVocabulary.

(* ===================================================================== *)
(** ** Part 4: what the agents report

    [execute] of the two allocating agents, the task breakdown of the
    deep-dive agent and the data of the utilization heat map. The figures
    drawn from the data and the texts obtained from the language model are
    not part of the embedding: the two [execute] below give the data and
    the allocations of a call that returns. Between the allocation and
    the summary a call also runs [generate_charts] (pandas and plotly),
    which raises for an empty roster, where the frame of the bandwidth
    chart has no column to select; and the allocation itself raises where
    [PortfolioRun] and [DeepDiveRun] are [None]. *)
(* ===================================================================== *)

Section Reports.
Context {F : Type} `{PyFloat F}.

(** [max([a.end_week for a in allocations]) if allocations else default] *)
Definition max_end_week (allocations : list (ResourceAllocation.t F)) (default : Z) : Z :=
  match allocations with
  | [] => default
  | a :: rest =>
      foldl (λ week b, Z.max week (ResourceAllocation.end_week b))
            (ResourceAllocation.end_week a) rest
  end.

(** [sum(a.estimated_cost for a in allocations)] *)
Definition sum_costs (allocations : list (ResourceAllocation.t F)) : F :=
  foldl (λ total a, fadd total (ResourceAllocation.estimated_cost a)) (of_int 0) allocations.
End Reports.

Module PortfolioReport.
Section Agent.
Context {F : Type} `{PyFloat F}.

(** The [data] of the [AgentOutput] that [execute] returns. *)
Record data := mk_data {
  projects_count : Z;
  team_size : Z;
  total_allocations : Z;
  total_cost : F;
  timeline_weeks : Z;
  team_utilization : Z
}.

(** [PortfolioManagerAgent.execute]: the data and the allocations of the
    output, for a call that returns (see the head of this part). *)
Definition execute (team_members : list (TeamMember.t F))
    (projects : list (Project.t F)) (uuid : nat → string)
    : data * list (ResourceAllocation.t F) :=
  let allocations := PMA.allocate_resources team_members projects uuid in
  (mk_data (Z.of_nat (length (PMA.sorted_projects projects)))
           (Z.of_nat (length team_members))
           (Z.of_nat (length allocations))
           (sum_costs allocations)
           (max_end_week allocations 0)
           78,
   allocations).

(** [weekly_util[week] += bandwidth] under [if week < len(weekly_util)].
    A negative subscript counts from the end of the list and raises
    IndexError beyond its start. *)
Definition add_to_week (bandwidth : Z) (weekly_util : list Z) (week : Z) : option (list Z) :=
  let n := Z.of_nat (length weekly_util) in
  if week <? n then
    if 0 <=? week then Some (alter (λ used, used + bandwidth) (Z.to_nat week) weekly_util)
    else if - n <=? week
         then Some (alter (λ used, used + bandwidth) (Z.to_nat (n + week)) weekly_util)
         else None
  else Some weekly_util.

(** The row of one member in the heat map of [generate_charts]: the loop
    over the allocations and over [range(start_week, end_week + 1)]. *)
Definition weekly_util_of (allocations : list (ResourceAllocation.t F)) (max_week : Z)
    (member : TeamMember.t F) : option (list Z) :=
  foldl (λ row alloc,
           if decide (member_name alloc = TeamMember.name member)
           then foldl (λ row week,
                         weekly_util ← row;
                         add_to_week (ResourceAllocation.allocated_bandwidth alloc)
                                     weekly_util week)
                      row
                      (seqZ (ResourceAllocation.start_week alloc)
                            (ResourceAllocation.end_week alloc + 1
                             - ResourceAllocation.start_week alloc))
           else row)
        (Some (replicate (Z.to_nat (max_week + 1)) 0)) allocations.

(** [heatmap_data], one row per member. *)
Definition heatmap_data (team_members : list (TeamMember.t F))
    (allocations : list (ResourceAllocation.t F)) : option (list (list Z)) :=
  mapM (weekly_util_of allocations (max_end_week allocations 20)) team_members.
End Agent.
Arguments data : clear implicits.
End PortfolioReport.

Module DeepDiveReport.
Section Agent.
Context {F : Type} `{PyFloat F}.

(** [task_templates], a dictionary in insertion order. *)
Definition task_templates : list (string * list (string * string * Z)) :=
  [("Planning",
    [("Requirements Gathering", "Collect and document requirements", 40);
     ("Feasibility Study", "Assess technical and business feasibility", 30);
     ("Project Charter", "Create project charter and roadmap", 20);
     ("Stakeholder Analysis", "Identify and analyze stakeholders", 20)]);
   ("Design",
    [("System Architecture", "Design system architecture", 60);
     ("Database Design", "Design database schema", 40);
     ("UI/UX Design", "Create wireframes and mockups", 50);
     ("API Design", "Design API endpoints and contracts", 30)]);
   ("Development",
    [("Backend Development", "Develop backend services", 120);
     ("Frontend Development", "Develop user interface", 100);
     ("Database Implementation", "Implement database", 60);
     ("API Implementation", "Implement APIs", 80);
     ("Integration", "Integrate components", 60);
     ("Code Review", "Review and refactor code", 40)]);
   ("Testing",
    [("Unit Testing", "Write and run unit tests", 50);
     ("Integration Testing", "Test component integration", 40);
     ("User Acceptance Testing", "Conduct UAT", 30);
     ("Performance Testing", "Test system performance", 30)]);
   ("Deployment",
    [("Environment Setup", "Setup production environment", 30);
     ("Deployment Configuration", "Configure deployment pipeline", 25);
     ("Production Deployment", "Deploy to production", 20);
     ("Post-Deployment Monitoring", "Monitor system health", 25)])].

(** [create_detailed_tasks]: the two nested loops over the templates; the
    task built in the i-th iteration draws the i-th identifier. *)
Definition create_detailed_tasks (uuid : nat → string) (project : Project.t F)
    : list (Task.t F) :=
  imap (λ i '(phase, (task_name, description, hours)),
          Task.mk (uuid i) task_name description
                  (take 2 (Project.required_skills project))
                  (of_int hours) phase [])
       ('(phase, phase_tasks) ← task_templates;
        (λ template, (phase, template)) <$> phase_tasks).

Record data := mk_data {
  project_name : string;
  total_tasks : Z;
  total_cost : F;
  timeline_weeks : Z
}.

(** [DeepDiveAgent.execute]: the data, without the risks, and the
    allocations of the output, for a call that returns. *)
Definition execute (uuid : nat → string) (project : Project.t F)
    (team_members : list (TeamMember.t F)) : data * list (ResourceAllocation.t F) :=
  let tasks := create_detailed_tasks uuid project in
  let allocations := DDA.allocate_tasks project team_members tasks in
  (mk_data (Project.name project) (Z.of_nat (length tasks))
           (sum_costs allocations) (max_end_week allocations 0),
   allocations).
End Agent.
Arguments data : clear implicits.
End DeepDiveReport.

(* ===================================================================== *)
(** ** Part 5: TrainingRecommendationAgent *)
(* ===================================================================== *)

Module TrainingRecommendationAgent.
Section Agent.
Context {F : Type} `{PyFloat F}.

(** [all_required_skills], the union over the projects. *)
Definition all_required_skills (projects : list (Project.t F)) : gset string :=
  foldl (λ skills project, skills ∪ list_to_set (Project.required_skills project))
        ∅ projects.

(** [identify_skill_gaps]. The dictionary is keyed by member name; the
    list made of each set of missing skills is kept as the set, the order
    of [list(missing_skills)] being that of the hash table. *)
Definition identify_skill_gaps (team_members : list (TeamMember.t F))
    (projects : list (Project.t F)) : gmap string (gset string) :=
  foldl (λ skill_gaps member,
           let missing_skills :=
             all_required_skills projects ∖ list_to_set (TeamMember.skills member) in
           if decide (missing_skills = ∅) then skill_gaps
           else <[TeamMember.name member := missing_skills]> skill_gaps)
        ∅ team_members.
End Agent.
End TrainingRecommendationAgent.

Module TRA := TrainingRecommendationAgent.

(* ===================================================================== *)
(** ** Part 6: MasterManagerAgent *)
(* ===================================================================== *)

Module MasterManagerAgent.
Section Agent.
Context {F : Type} `{PyFloat F}.

(** The projects [execute_deep_dive_analysis] runs a deep-dive agent on:
    [deep_dive_names] is [config.get('deep_dive_projects', [])], and
    [projects] is the list the agent was built with, in input order. *)
Definition deep_dive_projects (deep_dive_names : list string)
    (projects : list (Project.t F)) : list (Project.t F) :=
  match deep_dive_names with
  | [] => take 2 (filter (λ p, Project.priority p = 1) projects)
  | _ => filter (λ p, Project.name p ∈ deep_dive_names) projects
  end.
End Agent.
End MasterManagerAgent.

(* ===================================================================== *)
(** ** Part 7: backend_integration.py and ai_allocation_verifier.py *)
(* ===================================================================== *)

Module BackendIntegration.

(** The values a dictionary of the front end can hold under the key
    [priority]. A [bool] is an [int] for [isinstance]. *)
Inductive py_value :=
| PyInt (value : Z)
| PyBool (value : bool)
| PyStr (value : string)
| PyOther.

(** [PRIORITY_MAP.get(label, 3)] *)
Definition PRIORITY_MAP : list (string * Z) :=
  [("Critical", 1); ("High", 2); ("Medium", 3); ("Low", 4)].

Definition convert_priority (priority_value : py_value) : Z :=
  match priority_value with
  | PyInt value => value
  | PyBool value => Z.b2z value
  | PyStr label => default 3 (snd <$> find (λ entry, String.eqb entry.1 label) PRIORITY_MAP)
  | PyOther => 3
  end.

(** [s.split(',')] *)
Fixpoint split_on (separator : Ascii.ascii) (s : string) : list string :=
  match s with
  | EmptyString => [EmptyString]
  | String c rest =>
      if Ascii.eqb c separator then EmptyString :: split_on separator rest
      else match split_on separator rest with
           | field :: fields => String c field :: fields
           | [] => [String c EmptyString]
           end
  end.

Section Conversion.
Context {F : Type} `{PyFloat F}.
(** [str.strip] *)
Variable strip : string → string.

(** The dictionaries of the front end, holding values of the types of
    the fields they are copied to. *)
Record member_dict := mk_member_dict {
  member_name_of : string;
  member_profile : string;
  member_skills : string;
  member_bandwidth : Z;
  member_hourly_rate : F;
  member_location : string
}.

Record proj_dict := mk_proj_dict {
  proj_name : string;
  proj_description : string;
  proj_priority : option py_value;
  proj_required_skills : string;
  proj_budget : F;
  proj_duration_weeks : Z;
  proj_client : string;
  proj_deadline : option string
}.

(** [[s.strip() for s in text.split(',')]] *)
Definition skills_list (text : string) : list string :=
  strip <$> split_on ","%char text.

(** [convert_frontend_to_backend]; the i-th [Project(...)] draws the i-th
    identifier. *)
Definition convert_frontend_to_backend (uuid : nat → string)
    (team_data : list member_dict) (project_data : list proj_dict)
    : list (TeamMember.t F) * list (Project.t F) :=
  ((λ d, TeamMember.mk (member_name_of d) (member_profile d)
                       (skills_list (member_skills d)) (member_bandwidth d) 2
                       (member_hourly_rate d) (member_location d)) <$> team_data,
   imap (λ i d,
           Project.mk (uuid i) (proj_name d) (proj_description d)
                      (convert_priority (default (PyInt 3) (proj_priority d)))
                      (proj_budget d) (skills_list (proj_required_skills d))
                      (proj_duration_weeks d) (proj_client d) (proj_deadline d))
        project_data).
End Conversion.

Section Results.
Context {F : Type} `{PyFloat F}.

(** A row of [frontend_results['portfolio']['allocations']]. *)
Record allocation_row := mk_row {
  project_name : string;
  task_name : string;
  team_member : string;
  start_week : Z;
  end_week : Z;
  bandwidth : Z;
  cost : F
}.

Definition portfolio_allocations (allocations : list (ResourceAllocation.t F))
    : list allocation_row :=
  (λ alloc,
     mk_row (Project.name (ResourceAllocation.project alloc))
            (Task.task_name (ResourceAllocation.task alloc))
            (TeamMember.name (ResourceAllocation.team_member alloc))
            (ResourceAllocation.start_week alloc) (ResourceAllocation.end_week alloc)
            (ResourceAllocation.allocated_bandwidth alloc)
            (ResourceAllocation.estimated_cost alloc)) <$> allocations.

(** The summary of the portfolio with its repair of a zero project count. *)
Definition summary (summary_data : PortfolioReport.data F)
    (projects : list (Project.t F)) : PortfolioReport.data F :=
  if decide (PortfolioReport.projects_count summary_data = 0)
  then PortfolioReport.mk_data (Z.of_nat (length projects))
         (PortfolioReport.team_size summary_data)
         (PortfolioReport.total_allocations summary_data)
         (PortfolioReport.total_cost summary_data)
         (PortfolioReport.timeline_weeks summary_data)
         (PortfolioReport.team_utilization summary_data)
  else summary_data.
End Results.
Arguments member_dict : clear implicits.
Arguments proj_dict : clear implicits.
Arguments allocation_row : clear implicits.
End BackendIntegration.

Module BI := BackendIntegration.

Module AIAllocationVerifier.
Section Verifier.
Context {F : Type} `{PyFloat F}.

(** The loop of [_count_consecutive_assignments] over
    [reversed(allocations)], left by [break] at the first other name. *)
Fixpoint count_from (member_name : string) (consecutive : Z)
    (remaining : list (BackendIntegration.allocation_row F)) : Z :=
  match remaining with
  | [] => consecutive
  | alloc :: rest =>
      if decide (BackendIntegration.team_member alloc = member_name)
      then count_from member_name (consecutive + 1) rest
      else consecutive
  end.

Definition _count_consecutive_assignments (member_name : string)
    (allocations : list (BackendIntegration.allocation_row F)) : Z :=
  count_from member_name 0 (reverse allocations).
End Verifier.
End AIAllocationVerifier.

(* ===================================================================== *)
(** ** Concrete dictionaries of the front end *)
(* ===================================================================== *)

Module FrontEnd.
(** [str.isspace] of an ASCII character: tab, line feed, vertical tab,
    form feed, carriage return, the four separators 28 to 31 and the
    space. *)
Definition isspace (c : Ascii.ascii) : bool :=
  let n := Z.of_N (Ascii.N_of_ascii c) in
  (9 <=? n) && (n <=? 13) || (28 <=? n) && (n <=? 32).

(** [str.strip] on ASCII text. *)
Fixpoint lstrip (l : list Ascii.ascii) : list Ascii.ascii :=
  match l with
  | c :: rest => if isspace c then lstrip rest else l
  | [] => []
  end.

Definition strip (s : string) : string :=
  String.string_of_list_ascii
    (rev (lstrip (rev (lstrip (String.list_ascii_of_string s))))).

Section Inputs.
Context {F : Type} `{PyFloat F}.

Definition team_data : list (BI.member_dict F) :=
  [BI.mk_member_dict "Ann" "Developer" "python, sql" 100 (of_int 50) "Remote";
   BI.mk_member_dict "Bob" "Tester" "testing" 40 (of_int 40) "Remote"].

(** Three projects: one without a priority, one with a blank text of
    required skills, one of the lowest priority. *)
Definition project_data : list (BI.proj_dict F) :=
  [BI.mk_proj_dict "Audit" "Yearly audit" None "sql" (of_int 20000) 4 "Internal" None;
   BI.mk_proj_dict "Portal" "Customer portal" (Some (BI.PyStr "Critical")) EmptyString
                   (of_int 100000) 5 "Internal" None;
   BI.mk_proj_dict "Archive" "Archive service" (Some (BI.PyStr "Low")) "python , sql"
                   (of_int 30000) 6 "Internal" None].
End Inputs.
End FrontEnd.

(* ===================================================================== *)
(** ** The ranking of candidates *)
(* ===================================================================== *)

Section Sorting.
Context {A : Type} (before : A → A → bool).

Lemma stable_insert_perm x l : stable_insert before x l ≡ₚ x :: l.
Proof.
  induction l as [|y l IH]; simpl; [done|].
  destruct (before y x); [|done].
  rewrite IH. apply Permutation_swap.
Qed.

Lemma stable_sort_perm l : stable_sort before l ≡ₚ l.
Proof.
  induction l as [|x l IH]; simpl; [done|].
  rewrite stable_insert_perm. by constructor.
Qed.

Lemma stable_sort_nil l : stable_sort before l = [] ↔ l = [].
Proof.
  split; [|by intros ->].
  intros Hs. apply Permutation_nil_r. rewrite <- Hs.
  symmetry. apply stable_sort_perm.
Qed.

Lemma stable_sort_elem x l : x ∈ stable_sort before l ↔ x ∈ l.
Proof. by rewrite stable_sort_perm. Qed.

(** Insertion keeps the order of the elements already there. *)
Lemma stable_insert_sublist x l : l `sublist_of` stable_insert before x l.
Proof.
  induction l as [|y l IH]; simpl.
  - apply sublist_nil_l.
  - destruct (before y x).
    + by apply sublist_skip.
    + by apply sublist_cons.
Qed.

(** [x] is inserted ahead of every element it is not strictly behind. *)
Lemma stable_insert_ahead x y l :
  y ∈ l → before y x = false → precedes x y (stable_insert before x l).
Proof.
  unfold precedes.
  induction l as [|z l IH]; intros Hy Hb; [by apply elem_of_nil in Hy|].
  simpl. destruct (before z x) eqn:Hz.
  - apply elem_of_cons in Hy as [->|Hy]; [congruence|].
    apply sublist_cons. by apply IH.
  - apply sublist_skip. by apply singleton_sublist_l.
Qed.

(** Stability: an element stays ahead of a later one unless the later
    one is strictly [before] it. *)
Lemma stable_sort_stable x y l :
  precedes x y l → before y x = false → precedes x y (stable_sort before l).
Proof.
  unfold precedes.
  induction l as [|z l IH]; intros Hxy Hb; [by apply sublist_nil_r in Hxy|].
  simpl. apply sublist_cons_r in Hxy as [Hxy|(l' & [= <- <-] & Hy)].
  - etrans; [by apply IH|]. apply stable_insert_sublist.
  - apply stable_insert_ahead; [|done].
    apply stable_sort_elem. by apply singleton_sublist_l.
Qed.
End Sorting.

(* ===================================================================== *)
(** ** The bandwidth ledger and the cursors *)
(* ===================================================================== *)

Section Ledger.
Context `{Countable K}.

Lemma get0_insert (d : gmap K Z) k v : get0 (<[k := v]> d) k = v.
Proof. unfold get0. by rewrite lookup_insert_eq. Qed.

Lemma get0_insert_ne (d : gmap K Z) k k' v : k ≠ k' → get0 (<[k := v]> d) k' = get0 d k'.
Proof. intros. unfold get0. by rewrite lookup_insert_ne. Qed.

Lemma get0_empty (k : K) : get0 (∅ : gmap K Z) k = 0.
Proof. unfold get0. by rewrite lookup_empty. Qed.
End Ledger.

Lemma book_list_get0 (weeks : list Z) (ledger : gmap Z Z) (w : Z) :
  NoDup weeks →
  get0 (foldl (λ acc week, <[week := get0 acc week + bandwidth_needed]> acc) ledger weeks) w
  = if decide (w ∈ weeks) then get0 ledger w + bandwidth_needed else get0 ledger w.
Proof.
  revert ledger. induction weeks as [|a weeks IH]; intros ledger Hnd.
  - destruct (decide (w ∈ [])) as [Hw|_]; [by apply elem_of_nil in Hw|done].
  - apply NoDup_cons in Hnd as [Ha Hnd]. cbn [foldl]. rewrite IH by done.
    destruct (decide (w ∈ weeks)) as [Hw|Hw], (decide (w ∈ a :: weeks)) as [Hw'|Hw'].
    + rewrite get0_insert_ne; [done|]. by intros ->.
    + destruct Hw'. by right.
    + apply elem_of_cons in Hw' as [->|?]; [|done]. by rewrite get0_insert.
    + rewrite get0_insert_ne; [done|]. intros ->. apply Hw'. by left.
Qed.

Lemma book_weeks_get0 (ledger : gmap Z Z) (s d w : Z) :
  get0 (book_weeks ledger s d) w
  = if decide (s ≤ w < s + d) then get0 ledger w + bandwidth_needed else get0 ledger w.
Proof.
  unfold book_weeks. rewrite book_list_get0 by apply NoDup_seqZ.
  destruct (decide (w ∈ seqZ s d)) as [Hw|Hw], (decide (s ≤ w < s + d)) as [Hw'|Hw'];
    rewrite elem_of_seqZ in Hw; done.
Qed.

Section Tracker.
Context {F : Type} `{PyFloat F}.

Lemma duration_weeks_pos (task : Task.t F) : 1 ≤ duration_weeks task.
Proof. unfold duration_weeks. lia. Qed.

Lemma can_assign_true bt (m : TeamMember.t F) s d :
  can_assign bt m s d = true ↔
  ∀ w, s ≤ w < s + d →
       get0 (ledger_of bt (TeamMember.name m)) w + bandwidth_needed
       ≤ TeamMember.total_bandwidth_percent m.
Proof.
  unfold can_assign. rewrite forallb_forall. split.
  - intros Hall w Hw. apply Z.leb_le, Hall, list_elem_of_In, elem_of_seqZ. lia.
  - intros Hall w Hw%list_elem_of_In%elem_of_seqZ. apply Z.leb_le, Hall. lia.
Qed.

Lemma ledger_of_book bt (m : TeamMember.t F) s d n :
  ledger_of (book bt m s d) n
  = if decide (TeamMember.name m = n)
    then book_weeks (ledger_of bt n) s d else ledger_of bt n.
Proof.
  unfold book, ledger_of. destruct (decide (TeamMember.name m = n)) as [->|Hne].
  - by rewrite lookup_insert_eq.
  - by rewrite lookup_insert_ne.
Qed.

Lemma ledger_of_empty_ledgers (team : list (TeamMember.t F)) n :
  ledger_of (empty_ledgers team) n = ∅.
Proof.
  unfold empty_ledgers.
  cut (∀ d : gmap string (gmap Z Z), ledger_of d n = ∅ →
         ledger_of (foldl (λ d member, <[TeamMember.name member := ∅]> d) d team) n = ∅).
  { intros Hgen. apply Hgen. unfold ledger_of. by rewrite lookup_empty. }
  induction team as [|m team IH]; intros d Hd; simpl; [done|].
  apply IH. unfold ledger_of.
  destruct (decide (TeamMember.name m = n)) as [->|Hne].
  - by rewrite lookup_insert_eq.
  - rewrite lookup_insert_ne by done. apply Hd.
Qed.

Lemma get0_zero_counters (team : list (TeamMember.t F)) n :
  get0 (zero_counters team) n = 0.
Proof.
  unfold zero_counters.
  cut (∀ d : gmap string Z, get0 d n = 0 →
         get0 (foldl (λ d member, <[TeamMember.name member := 0]> d) d team) n = 0).
  { intros Hgen. apply Hgen, get0_empty. }
  induction team as [|m team IH]; intros d Hd; simpl; [done|].
  apply IH. destruct (decide (TeamMember.name m = n)) as [->|Hne].
  - apply get0_insert.
  - by rewrite get0_insert_ne.
Qed.

Lemma tracker_inv_init (team : list (TeamMember.t F)) :
  tracker_inv (empty_ledgers team) (zero_counters team) [].
Proof.
  split.
  - intros n w _. rewrite ledger_of_empty_ledgers. apply get0_empty.
  - constructor.
  - intros e He. by apply elem_of_nil in He.
  - intros i k e1 e2 He1. by rewrite lookup_nil in He1.
Qed.

(** Moving cursors forward keeps the invariant. *)
Lemma tracker_inv_raise bt ew ew' j :
  tracker_inv bt ew j → (∀ n, get0 ew n ≤ get0 ew' n) → tracker_inv bt ew' j.
Proof.
  intros [Hfree Hent Hcur Hseq] Hle. split; [|done| |done].
  - intros n w Hw. apply Hfree. specialize (Hle n). lia.
  - intros e He. specialize (Hcur e He). specialize (Hle (member_name e.2)). lia.
Qed.

(** Emitting an allocation at or after the member's cursor, as both
    branches of both allocators do, keeps the invariant. *)
Lemma tracker_inv_assign bt ew j line project task (m : TeamMember.t F) s :
  tracker_inv bt ew j →
  get0 ew (TeamMember.name m) ≤ s →
  (line = Assigned → can_assign bt m s (duration_weeks task) = true) →
  (line = Overallocated → can_assign bt m s (duration_weeks task) = false) →
  tracker_inv (book bt m s (duration_weeks task))
              (<[TeamMember.name m := s + duration_weeks task]> ew)
              (j ++ [(line, new_allocation project task m s)]).
Proof.
  intros [Hfree Hent Hcur Hseq] Hs Hfit Hforce.
  pose proof (duration_weeks_pos task) as Hd.
  assert (Hfree_s : get0 (ledger_of bt (TeamMember.name m)) s = 0) by by apply Hfree.
  split.
  - intros n w Hw. rewrite ledger_of_book.
    destruct (decide (TeamMember.name m = n)) as [<-|Hne].
    + rewrite get0_insert in Hw. rewrite book_weeks_get0.
      destruct (decide (s ≤ w < s + duration_weeks task)); [lia|].
      apply Hfree. lia.
    + rewrite get0_insert_ne in Hw by done. by apply Hfree.
  - apply Forall_app. split; [done|]. constructor; [|constructor].
    split; simpl; unfold capacity; simpl.
    + done.
    + done.
    + done.
    + intros Hl. specialize (Hfit Hl). rewrite can_assign_true in Hfit.
      specialize (Hfit s). lia.
    + intros Hl. specialize (Hforce Hl).
      destruct (decide (TeamMember.total_bandwidth_percent m < bandwidth_needed)) as [|Hge];
        [done|].
      assert (can_assign bt m s (duration_weeks task) = true) as Hyes; [|congruence].
      apply can_assign_true. intros w Hw. rewrite Hfree by lia. lia.
  - intros e [He| ->%list_elem_of_singleton]%elem_of_app.
    + specialize (Hcur e He).
      destruct (decide (TeamMember.name m = member_name e.2)) as [Heq|Hne].
      * rewrite <- Heq in *. rewrite get0_insert. lia.
      * by rewrite get0_insert_ne.
    + simpl. unfold member_name. simpl. rewrite get0_insert. lia.
  - intros i k e1 e2 He1 He2 Hik Hname.
    destruct (decide (k < length j)%nat) as [Hk|Hk].
    + rewrite lookup_app_l in He1, He2 by lia. by eapply Hseq.
    + assert (k = length j) as ->.
      { apply lookup_lt_Some in He2. rewrite length_app in He2. simpl in He2. lia. }
      rewrite lookup_app_l in He1 by lia.
      rewrite lookup_app_r, Nat.sub_diag in He2 by lia. simplify_eq/=.
      apply list_elem_of_lookup_2 in He1. specialize (Hcur e1 He1).
      rewrite Hname in Hcur. unfold member_name in Hcur. simpl in Hcur. lia.
Qed.
End Tracker.

(* ===================================================================== *)
(** ** The portfolio run, step by step *)
(* ===================================================================== *)

Section PortfolioSteps.
Context {F : Type} `{PyFloat F}.
Implicit Types (st : PMA.state F) (task : Task.t F) (project : Project.t F).
Implicit Types (team : list (TeamMember.t F)) (m : TeamMember.t F).

Lemma pma_candidates_elem team st task c :
  c ∈ PMA.member_candidates team st task ↔
  ∃ m, m ∈ team ∧ c = PMA.score_member st task m.
Proof.
  unfold PMA.member_candidates, sort_reverse.
  rewrite stable_sort_elem, list_elem_of_fmap.
  split; intros (m & ? & ?); by exists m.
Qed.

Lemma pma_candidates_nil team st task :
  PMA.member_candidates team st task = [] ↔ team = [].
Proof.
  unfold PMA.member_candidates, sort_reverse. rewrite stable_sort_nil.
  split; [apply fmap_nil_inv|by intros ->].
Qed.

(** The three ways an iteration of the task loop can end. *)
Lemma pma_allocate_task_cases team project st task :
  (team = [] ∧ PMA.allocate_task team project st task = st) ∨
  ∃ line m,
    m ∈ team ∧
    PMA.allocate_task team project st task = PMA.assign line project task m st ∧
    can_assign (PMA.bandwidth_tracker st) m
               (get0 (PMA.member_earliest_week st) (TeamMember.name m))
               (duration_weeks task)
    = bool_decide (line = Assigned).
Proof.
  unfold PMA.allocate_task.
  destruct (find _ _) as [c|] eqn:Hfind.
  - right. apply find_some in Hfind as [Hin Hfit].
    apply list_elem_of_In, pma_candidates_elem in Hin as (m & Hm & ->).
    exists Assigned, m. by repeat split.
  - destruct (PMA.member_candidates team st task) as [|c cs] eqn:Hcs.
    + left. by apply pma_candidates_nil in Hcs.
    + right. assert (Hin : c ∈ PMA.member_candidates team st task).
      { rewrite Hcs. by left. }
      pose proof (find_none _ _ Hfind c (or_introl eq_refl)) as Hno.
      apply pma_candidates_elem in Hin as (m & Hm & ->).
      exists Overallocated, m. by repeat split.
Qed.

(** Induction over a whole run: what every iteration of the task loop
    preserves holds of the final state. *)
Lemma pma_run_ind (P : PMA.state F → Prop) team :
  (∀ project st task, P st → P (PMA.allocate_task team project st task)) →
  ∀ uuid projects fresh st,
    P st → P (PMA.allocate_projects team uuid fresh projects st).
Proof.
  intros Hstep uuid projects.
  induction projects as [|project rest IH]; intros fresh st Hst; [done|].
  cbn [PMA.allocate_projects]. apply IH.
  generalize (PMA._create_portfolio_tasks uuid fresh project) as tasks.
  intros tasks. revert st Hst.
  induction tasks as [|task tasks IHt]; intros st Hst; [done|].
  cbn [foldl]. apply IHt. by apply Hstep.
Qed.

Lemma pma_inv_step team project st task :
  pma_inv st → pma_inv (PMA.allocate_task team project st task).
Proof.
  intros Hinv.
  destruct (pma_allocate_task_cases team project st task)
    as [[_ ->]|(line & m & _ & -> & Hfit)]; [done|].
  unfold pma_inv, PMA.assign; simpl.
  apply tracker_inv_assign; [done|done| |]; intros ->; by rewrite Hfit.
Qed.

Lemma pma_inv_final team projects uuid :
  pma_inv (PMA.final_state team projects uuid).
Proof.
  unfold PMA.final_state. apply pma_run_ind.
  - intros. by apply pma_inv_step.
  - apply tracker_inv_init.
Qed.
End PortfolioSteps.

(* ===================================================================== *)
(** ** The deep-dive run, step by step *)
(* ===================================================================== *)

Section DeepDiveSteps.
Context {F : Type} `{PyFloat F}.
Implicit Types (st : DDA.state F) (task : Task.t F) (project : Project.t F).
Implicit Types (team : list (TeamMember.t F)) (m : TeamMember.t F).

Lemma dda_candidates_elem team st task c :
  c ∈ DDA.member_candidates team st task ↔
  ∃ m, m ∈ team ∧ c = DDA.score_member st task m.
Proof.
  unfold DDA.member_candidates, sort_reverse.
  rewrite stable_sort_elem, list_elem_of_fmap.
  split; intros (m & ? & ?); by exists m.
Qed.

Lemma dda_candidates_nil team st task :
  DDA.member_candidates team st task = [] ↔ team = [].
Proof.
  unfold DDA.member_candidates, sort_reverse. rewrite stable_sort_nil.
  split; [apply fmap_nil_inv|by intros ->].
Qed.

Lemma dda_allocate_task_cases team project g st task :
  (team = [] ∧ DDA.allocate_task team project g st task = st) ∨
  ∃ line m,
    m ∈ team ∧
    DDA.allocate_task team project g st task = DDA.assign line project g task m st ∧
    can_assign (DDA.bandwidth_tracker st) m (DDA.start_week_of g st m)
               (duration_weeks task)
    = bool_decide (line = Assigned).
Proof.
  unfold DDA.allocate_task.
  destruct (find _ _) as [c|] eqn:Hfind.
  - right. apply find_some in Hfind as [Hin Hfit].
    apply list_elem_of_In, dda_candidates_elem in Hin as (m & Hm & ->).
    exists Assigned, m. by repeat split.
  - destruct (DDA.member_candidates team st task) as [|c cs] eqn:Hcs.
    + left. by apply dda_candidates_nil in Hcs.
    + right. assert (Hin : c ∈ DDA.member_candidates team st task).
      { rewrite Hcs. by left. }
      pose proof (find_none _ _ Hfind c (or_introl eq_refl)) as Hno.
      apply dda_candidates_elem in Hin as (m & Hm & ->).
      exists Overallocated, m. by repeat split.
Qed.

Lemma dda_inv_step team project g st task :
  dda_inv st → dda_inv (DDA.allocate_task team project g st task).
Proof.
  intros Hinv.
  destruct (dda_allocate_task_cases team project g st task)
    as [[_ ->]|(line & m & _ & -> & Hfit)]; [done|].
  unfold dda_inv, DDA.assign; simpl.
  apply tracker_inv_assign; [done| | |].
  - unfold DDA.start_week_of. lia.
  - intros ->. by rewrite Hfit.
  - intros ->. by rewrite Hfit.
Qed.

Lemma raise_cursors_le team g (ew : gmap string Z) n :
  get0 ew n ≤ get0 (DDA.raise_cursors team g ew) n.
Proof.
  unfold DDA.raise_cursors. revert ew.
  induction team as [|m team IH]; intros ew; simpl; [done|].
  etrans; [|apply IH].
  destruct (Z.ltb_spec (get0 ew (TeamMember.name m)) g) as [Hlt|Hge]; [|done].
  destruct (decide (TeamMember.name m = n)) as [<-|Hne].
  - rewrite get0_insert. lia.
  - by rewrite get0_insert_ne.
Qed.

Lemma phase_progress_step team project g phase st0 st task :
  Task.phase task = phase →
  phase_progress g phase st0 st →
  phase_progress g phase st0 (DDA.allocate_task team project g st task).
Proof.
  intros Hphase Hp.
  pose proof (dda_inv_step team project g st task (progress_inv _ _ _ _ Hp)) as Hinv'.
  destruct (dda_allocate_task_cases team project g st task)
    as [[_ Heq]|(line & m & _ & Heq & _)]; rewrite Heq in *; [done|].
  destruct Hp as [_ Hends Hgate (new & Hj & Hnew)].
  split; [done|done|simpl; lia|].
  exists (new ++ [(line, new_allocation project task m (DDA.start_week_of g st m))]).
  split; [simpl; by rewrite Hj, (assoc_L (++))|].
  apply Forall_app. split.
  - eapply Forall_impl; [exact Hnew|]. simpl. intros e (? & ? & ?).
    repeat split; [done|done|lia].
  - constructor; [|constructor]. simpl. unfold DDA.start_week_of.
    repeat split; [done|lia|lia].
Qed.

Lemma phase_progress_loop team project g phase st0 st tasks :
  Forall (λ task, Task.phase task = phase) tasks →
  phase_progress g phase st0 st →
  phase_progress g phase st0 (foldl (DDA.allocate_task team project g) st tasks).
Proof.
  intros Htasks. revert st.
  induction Htasks as [|task tasks Htask _ IH]; intros st Hp; [done|].
  cbn [foldl]. apply IH. by apply phase_progress_step.
Qed.

Lemma tasks_by_phase_label (tasks : list (Task.t F)) phase :
  Forall (λ task, Task.phase task = phase) (DDA.tasks_by_phase tasks phase).
Proof.
  unfold DDA.tasks_by_phase. apply Forall_forall.
  by intros task [? _]%list_elem_of_filter.
Qed.
End DeepDiveSteps.

Section DeepDivePhases.
Context {F : Type} `{PyFloat F}.
Implicit Types (st : DDA.state F) (task : Task.t F) (project : Project.t F).
Implicit Types (team : list (TeamMember.t F)) (m : TeamMember.t F).

Lemma phase_order_NoDup : NoDup DDA.phase_order.
Proof. apply (bool_decide_unpack _). by vm_compute. Qed.

(** What one iteration of the phase loop adds to the journal. *)
Lemma dda_process_phase_spec team project tasks st idx phase :
  dda_inv st →
  dda_inv (DDA.process_phase team project tasks st idx phase) ∧
  (∀ p, p ≠ phase →
     get0 (DDA.phase_end_weeks (DDA.process_phase team project tasks st idx phase)) p
     = get0 (DDA.phase_end_weeks st) p) ∧
  ∃ new,
    DDA.journal (DDA.process_phase team project tasks st idx phase)
    = DDA.journal st ++ new ∧
    Forall (λ e, label e = phase ∧
                 DDA.phase_start_week_of st idx ≤ ResourceAllocation.start_week e.2 ∧
                 ResourceAllocation.end_week e.2
                 ≤ get0 (DDA.phase_end_weeks
                           (DDA.process_phase team project tasks st idx phase)) phase)
           new.
Proof.
  intros Hinv. unfold DDA.process_phase.
  pose proof (tasks_by_phase_label tasks phase) as Hlabel.
  destruct (DDA.tasks_by_phase tasks phase) as [|task0 rest] eqn:Htasks.
  { split; [done|]. split; [done|]. exists []. split; [by rewrite app_nil_r|constructor]. }
  set (g := DDA.phase_start_week_of st idx).
  set (st1 := DDA.mk_state (DDA.bandwidth_tracker st)
                (DDA.raise_cursors team g (DDA.member_earliest_week st))
                (DDA.phase_end_weeks st) g (DDA.journal st)).
  assert (Hp1 : phase_progress g phase st1 st1).
  { split; [|done|done|].
    - unfold dda_inv, st1; simpl. eapply tracker_inv_raise; [exact Hinv|].
      intros n. apply raise_cursors_le.
    - exists []. by rewrite app_nil_r. }
  pose proof (phase_progress_loop team project g phase st1 st1 _ Hlabel Hp1) as Hp2.
  set (st2 := foldl _ _ _) in *.
  destruct Hp2 as [Hinv2 Hends2 Hgate2 (new & Hj & Hnew)].
  split; [done|]. split.
  - intros p Hp. simpl. rewrite get0_insert_ne by done. by rewrite Hends2.
  - exists new. split; [done|]. simpl. by rewrite get0_insert.
Qed.

Lemma order_inv_step team project tasks st idx phase :
  DDA.phase_order !! idx = Some phase →
  dda_inv st → order_inv idx st →
  order_inv (S idx) (DDA.process_phase team project tasks st idx phase).
Proof.
  intros Hidx Hinv [Hlab Hprev Hord].
  destruct (dda_process_phase_spec team project tasks st idx phase Hinv)
    as (_ & Hother & new & Hj & Hnew).
  rewrite Forall_forall in Hnew.
  assert (Hold_ne : ∀ e, e ∈ DDA.journal st → label e ≠ phase).
  { intros e He Heq. destruct (Hlab e He) as (i & Hi & Hli).
    rewrite Heq in Hli.
    pose proof (NoDup_lookup _ _ _ _ phase_order_NoDup Hli Hidx). lia. }
  split.
  - intros e. rewrite Hj. intros [He|He]%elem_of_app.
    + destruct (Hlab e He) as (i & Hi & Hli). exists i. split; [lia|done].
    + destruct (Hnew e He) as (Hl & _). exists idx. split; [lia|]. by rewrite Hl.
  - intros k e [= <-]. rewrite Hj. intros [He|He]%elem_of_app Hk.
    + destruct (Hold_ne e He). congruence.
    + destruct (Hnew e He) as (Hl & _ & Hend). by rewrite Hl.
  - intros k a b. rewrite Hj.
    intros [Ha|Ha]%elem_of_app [Hb|Hb]%elem_of_app Hka Hkb.
    + by eapply Hord.
    + destruct (Hnew b Hb) as (Hl & _). rewrite Hl in Hkb.
      pose proof (NoDup_lookup _ _ _ _ phase_order_NoDup Hkb Hidx) as ->.
      destruct (Hlab a Ha) as (i & Hi & Hli).
      pose proof (NoDup_lookup _ _ _ _ phase_order_NoDup Hka Hli). lia.
    + destruct (Hnew a Ha) as (Hl & Hstart & _). rewrite Hl in Hka.
      pose proof (NoDup_lookup _ _ _ _ phase_order_NoDup Hka Hidx) as <-.
      specialize (Hprev k b eq_refl Hb Hkb).
      etrans; [exact Hprev|]. etrans; [|exact Hstart].
      unfold DDA.phase_start_week_of. by rewrite nth_lookup, Hkb.
    + destruct (Hnew a Ha) as (Hla & _), (Hnew b Hb) as (Hlb & _).
      rewrite Hla in Hka. rewrite Hlb in Hkb.
      pose proof (NoDup_lookup _ _ _ _ phase_order_NoDup Hka Hkb). lia.
Qed.

Lemma order_inv_phases team project tasks remaining :
  ∀ done_ st,
    DDA.phase_order = done_ ++ remaining →
    dda_inv st → order_inv (length done_) st →
    dda_inv (DDA.process_phases team project tasks (length done_) remaining st) ∧
    order_inv (length DDA.phase_order)
              (DDA.process_phases team project tasks (length done_) remaining st).
Proof.
  induction remaining as [|phase rest IH]; intros done_ st Hsplit Hinv Hord.
  - rewrite app_nil_r in Hsplit. by rewrite Hsplit.
  - cbn [DDA.process_phases].
    assert (Hidx : DDA.phase_order !! length done_ = Some phase).
    { rewrite Hsplit. by rewrite list_lookup_middle. }
    replace (S (length done_)) with (length (done_ ++ [phase]))
      by (rewrite length_app; simpl; lia).
    apply IH.
    + by rewrite <- (assoc_L (++)).
    + by apply dda_process_phase_spec.
    + rewrite length_app. simpl. rewrite Nat.add_1_r. by apply order_inv_step.
Qed.

Lemma dda_final_invariants project team tasks :
  dda_inv (DDA.final_state project team tasks) ∧
  order_inv (length DDA.phase_order) (DDA.final_state project team tasks).
Proof.
  unfold DDA.final_state.
  apply (order_inv_phases team project tasks DDA.phase_order []); [done| |].
  - apply tracker_inv_init.
  - split; simpl; intros; by match goal with H : _ ∈ [] |- _ => apply elem_of_nil in H end.
Qed.

Lemma raise_cursors_zero team (ew : gmap string Z) :
  (∀ n, get0 ew n = 0) → DDA.raise_cursors team 0 ew = ew.
Proof.
  intros Hzero. unfold DDA.raise_cursors.
  induction team as [|m team IH]; [done|]. cbn [foldl].
  rewrite Hzero. by destruct (Z.ltb_spec 0 0); [lia|].
Qed.

Lemma first_inv_loop team project g tasks st :
  first_inv st →
  (DDA.journal st = [] → g = 0 ∧ DDA.phase_max_end_week st = 0) →
  first_inv (foldl (DDA.allocate_task team project g) st tasks) ∧
  (DDA.journal (foldl (DDA.allocate_task team project g) st tasks) = [] →
   DDA.phase_max_end_week (foldl (DDA.allocate_task team project g) st tasks) = 0).
Proof.
  revert st. induction tasks as [|task tasks IH]; intros st Hfirst Hgate.
  - split; [done|]. intros Hj. by apply Hgate.
  - cbn [foldl].
    destruct (dda_allocate_task_cases team project g st task)
      as [[_ ->]|(line & m & _ & -> & _)]; [by apply IH|].
    apply IH.
    + destruct Hfirst as [Hun Hhead]. split.
      * unfold DDA.assign; simpl. intros Hj. by apply app_nil in Hj as [_ ?].
      * unfold DDA.assign; simpl. intros e.
        destruct (DDA.journal st) as [|e0 j] eqn:Hj.
        -- intros [= <-]. simpl. unfold DDA.start_week_of.
           destruct (Hun eq_refl) as [Hew _], (Hgate eq_refl) as [-> _].
           rewrite Hew. lia.
        -- simpl. intros [= <-]. by apply Hhead.
    + unfold DDA.assign; simpl. intros Hj. by apply app_nil in Hj as [_ ?].
Qed.

Lemma first_inv_phase team project tasks st idx phase :
  first_inv st → first_inv (DDA.process_phase team project tasks st idx phase).
Proof.
  intros Hfirst. unfold DDA.process_phase.
  destruct (DDA.tasks_by_phase tasks phase) as [|task0 rest]; [done|].
  set (g := DDA.phase_start_week_of st idx).
  assert (Hg : DDA.journal st = [] → g = 0).
  { intros Hj. destruct Hfirst as [Hun _]. destruct (Hun Hj) as [_ Hpew].
    unfold g, DDA.phase_start_week_of. destruct idx; [done|apply Hpew]. }
  set (st1 := DDA.mk_state (DDA.bandwidth_tracker st)
                (DDA.raise_cursors team g (DDA.member_earliest_week st))
                (DDA.phase_end_weeks st) g (DDA.journal st)).
  assert (Hfirst1 : first_inv st1).
  { destruct Hfirst as [Hun Hhead]. split; [|done]. unfold st1; simpl. intros Hj.
    destruct (Hun Hj) as [Hew Hpew]. rewrite (Hg Hj).
    by rewrite raise_cursors_zero. }
  destruct (first_inv_loop team project g (task0 :: rest) st1 Hfirst1)
    as [[Hun2 Hhead2] Hmax2].
  { unfold st1; simpl. intros Hj. by split; apply Hg. }
  split; simpl; [|done]. intros Hj. destruct (Hun2 Hj) as [Hew Hpew].
  split; [done|]. intros p. destruct (decide (phase = p)) as [->|Hne].
  - rewrite get0_insert. by apply Hmax2.
  - by rewrite get0_insert_ne.
Qed.

Lemma dda_first_final project team tasks :
  first_inv (DDA.final_state project team tasks).
Proof.
  unfold DDA.final_state.
  assert (Hinit : first_inv (DDA.initial_state team)).
  { split; [|done]. intros _. split; intros; [apply get0_zero_counters|apply get0_empty]. }
  revert Hinit. generalize (DDA.initial_state team) as st. generalize 0%nat as idx.
  induction DDA.phase_order as [|phase rest IH]; intros idx st Hst; [done|].
  cbn [DDA.process_phases]. by apply IH, first_inv_phase.
Qed.
End DeepDivePhases.

(* ===================================================================== *)
(** ** Committed bandwidth per member and week *)
(* ===================================================================== *)

Section Capacity.
Context {F : Type} `{PyFloat F} `{!EqDecision F}.
Implicit Types (m : TeamMember.t F) (a : ResourceAllocation.t F).

Lemma sequential_cons (e : console_line * ResourceAllocation.t F) j :
  sequential (e :: j) →
  sequential j ∧
  ∀ e2, e2 ∈ j → member_name e.2 = member_name e2.2 →
        ResourceAllocation.end_week e.2 ≤ ResourceAllocation.start_week e2.2.
Proof.
  intros Hseq. split.
  - intros i k e1 e2 He1 He2 Hik. apply (Hseq (S i) (S k)); [done|done|lia].
  - intros e2 [k Hk]%list_elem_of_lookup_1. apply (Hseq O (S k)); [done|done|lia].
Qed.

Lemma committed_none (j : list (console_line * ResourceAllocation.t F)) m w :
  (∀ e, e ∈ j → ¬ booked m w e.2) → committed j.*2 m w = 0.
Proof.
  unfold committed. induction j as [|e j IH]; intros Hno; [done|].
  cbn [fmap list_fmap]. rewrite filter_cons_False.
  - apply IH. intros e' He'. apply Hno. by right.
  - apply Hno. by left.
Qed.

(** Within a journal that satisfies the loop invariant a member holds at
    most one allocation in any week, and a regular one fits the capacity. *)
Lemma committed_bound (j : list (console_line * ResourceAllocation.t F)) m w :
  Forall entry_ok j → sequential j → ¬ flagged j m w →
  committed j.*2 m w = 0 ∨
  (committed j.*2 m w = bandwidth_needed ∧
   bandwidth_needed ≤ TeamMember.total_bandwidth_percent m).
Proof.
  induction j as [|e j IH]; intros Hok Hseq Hflag; [by left|].
  apply Forall_cons in Hok as [He Hok].
  apply sequential_cons in Hseq as [Hseq Hlater].
  assert (Hflag' : ¬ flagged j m w) by (intros Hf; apply Hflag; by right).
  destruct (decide (booked m w e.2)) as [Hb|Hb].
  - right. unfold committed. cbn [fmap list_fmap]. rewrite filter_cons_True by done.
    cbn [foldr]. fold (committed j.*2 m w).
    rewrite committed_none.
    + destruct He as [_ _ Hbw Hassigned _]. rewrite Hbw. split; [lia|].
      pose proof Hb as [Hm _]. unfold capacity in Hassigned. rewrite Hm in Hassigned.
      apply Hassigned. destruct e.1 eqn:Hline; [done|].
      destruct Hflag. left. by split.
    + intros e2 He2 [Hm2 Hcov2]. destruct Hb as [Hm Hcov].
      assert (member_name e.2 = member_name e2.2) as Hname.
      { unfold member_name. by rewrite Hm, Hm2. }
      specialize (Hlater e2 He2 Hname). unfold covers in *. lia.
  - unfold committed. cbn [fmap list_fmap]. rewrite filter_cons_False by done.
    by apply IH.
Qed.
End Capacity.

(* ===================================================================== *)
(** ** Which tasks a run allocates *)
(* ===================================================================== *)

Section Coverage.
Context {F : Type} `{PyFloat F}.
Implicit Types (task : Task.t F) (project : Project.t F).
Implicit Types (team : list (TeamMember.t F)) (m : TeamMember.t F).

Lemma tasks_of_app (j1 j2 : list (console_line * ResourceAllocation.t F)) :
  tasks_of (j1 ++ j2) = tasks_of j1 ++ tasks_of j2.
Proof. unfold tasks_of. by rewrite !fmap_app. Qed.

Lemma pma_tasks_step team project (st : PMA.state F) task :
  team ≠ [] →
  tasks_of (PMA.journal (PMA.allocate_task team project st task))
  = tasks_of (PMA.journal st) ++ [task].
Proof.
  intros Hteam.
  destruct (pma_allocate_task_cases team project st task)
    as [[? _]|(line & m & _ & -> & _)]; [done|].
  unfold PMA.assign; simpl. by rewrite tasks_of_app.
Qed.

Lemma pma_tasks_loop team project tasks (st : PMA.state F) :
  team ≠ [] →
  tasks_of (PMA.journal (foldl (PMA.allocate_task team project) st tasks))
  = tasks_of (PMA.journal st) ++ tasks.
Proof.
  intros Hteam. revert st.
  induction tasks as [|task tasks IH]; intros st; cbn [foldl].
  - by rewrite app_nil_r.
  - rewrite IH, pma_tasks_step by done. by rewrite <- (assoc_L (++)).
Qed.

Lemma pma_tasks_projects team uuid projects fresh (st : PMA.state F) :
  team ≠ [] →
  tasks_of (PMA.journal (PMA.allocate_projects team uuid fresh projects st))
  = tasks_of (PMA.journal st) ++ portfolio_tasks uuid fresh projects.
Proof.
  intros Hteam. revert fresh st.
  induction projects as [|project rest IH]; intros fresh st.
  - simpl. by rewrite app_nil_r.
  - cbn [PMA.allocate_projects portfolio_tasks].
    rewrite IH, pma_tasks_loop by done. by rewrite <- (assoc_L (++)).
Qed.

Lemma pma_step_empty_team project (st : PMA.state F) task :
  PMA.allocate_task [] project st task = st.
Proof. done. Qed.

Lemma pma_journal_empty_team uuid projects fresh (st : PMA.state F) :
  PMA.journal (PMA.allocate_projects [] uuid fresh projects st) = PMA.journal st.
Proof.
  change (PMA.journal (PMA.allocate_projects [] uuid fresh projects st)
          = PMA.journal st).
  apply (pma_run_ind (λ st', PMA.journal st' = PMA.journal st) []); [|done].
  intros project st' task Hst'. by rewrite pma_step_empty_team.
Qed.

Lemma dda_tasks_step team project g (st : DDA.state F) task :
  team ≠ [] →
  tasks_of (DDA.journal (DDA.allocate_task team project g st task))
  = tasks_of (DDA.journal st) ++ [task].
Proof.
  intros Hteam.
  destruct (dda_allocate_task_cases team project g st task)
    as [[? _]|(line & m & _ & -> & _)]; [done|].
  unfold DDA.assign; simpl. by rewrite tasks_of_app.
Qed.

Lemma dda_tasks_loop team project g tasks (st : DDA.state F) :
  team ≠ [] →
  tasks_of (DDA.journal (foldl (DDA.allocate_task team project g) st tasks))
  = tasks_of (DDA.journal st) ++ tasks.
Proof.
  intros Hteam. revert st.
  induction tasks as [|task tasks IH]; intros st; cbn [foldl].
  - by rewrite app_nil_r.
  - rewrite IH, dda_tasks_step by done. by rewrite <- (assoc_L (++)).
Qed.

Lemma dda_tasks_phase team project tasks (st : DDA.state F) idx phase :
  team ≠ [] →
  tasks_of (DDA.journal (DDA.process_phase team project tasks st idx phase))
  = tasks_of (DDA.journal st) ++ DDA.tasks_by_phase tasks phase.
Proof.
  intros Hteam. unfold DDA.process_phase.
  destruct (DDA.tasks_by_phase tasks phase) as [|task0 rest] eqn:Htasks.
  - by rewrite app_nil_r.
  - cbn [DDA.journal]. by rewrite dda_tasks_loop.
Qed.

Lemma dda_tasks_phases team project tasks remaining idx (st : DDA.state F) :
  team ≠ [] →
  tasks_of (DDA.journal (DDA.process_phases team project tasks idx remaining st))
  = tasks_of (DDA.journal st) ++ concat (DDA.tasks_by_phase tasks <$> remaining).
Proof.
  intros Hteam. revert idx st.
  induction remaining as [|phase rest IH]; intros idx st.
  - simpl. by rewrite app_nil_r.
  - cbn [DDA.process_phases fmap list_fmap concat].
    rewrite IH, dda_tasks_phase by done. by rewrite <- (assoc_L (++)).
Qed.

Lemma dda_loop_empty_team project g tasks (st : DDA.state F) :
  foldl (DDA.allocate_task [] project g) st tasks = st.
Proof. induction tasks as [|task tasks IH]; [done|]. cbn [foldl]. apply IH. Qed.

Lemma dda_journal_empty_team project tasks remaining idx (st : DDA.state F) :
  DDA.journal (DDA.process_phases [] project tasks idx remaining st) = DDA.journal st.
Proof.
  revert idx st. induction remaining as [|phase rest IH]; intros idx st; [done|].
  cbn [DDA.process_phases]. rewrite IH. unfold DDA.process_phase.
  destruct (DDA.tasks_by_phase tasks phase) as [|task0 rest']; [done|].
  by rewrite dda_loop_empty_team.
Qed.

(** Grouping by the five labels reorders the tasks that carry one. *)
Lemma filter_split_perm {A} (P Q : A → Prop)
    `{!∀ x, Decision (P x)} `{!∀ x, Decision (Q x)} (l : list A) :
  (∀ x, P x → Q x → False) →
  filter P l ++ filter Q l ≡ₚ filter (λ x, P x ∨ Q x) l.
Proof.
  intros Hdisj. induction l as [|x l IH]; [done|].
  destruct (decide (P x)) as [HP|HP], (decide (Q x)) as [HQ|HQ].
  - destruct (Hdisj x HP HQ).
  - rewrite (filter_cons_True P), (filter_cons_False Q) by done.
    rewrite (filter_cons_True (λ x, P x ∨ Q x)) by (by left).
    simpl. by rewrite IH.
  - rewrite (filter_cons_False P), (filter_cons_True Q) by done.
    rewrite (filter_cons_True (λ x, P x ∨ Q x)) by (by right).
    rewrite <- Permutation_middle. by rewrite IH.
  - rewrite (filter_cons_False P), (filter_cons_False Q) by done.
    rewrite (filter_cons_False (λ x, P x ∨ Q x)) by (by intros [?|?]).
    done.
Qed.

Lemma grouped_perm (tasks : list (Task.t F)) (labels : list string) :
  NoDup labels →
  concat (DDA.tasks_by_phase tasks <$> labels)
  ≡ₚ filter (λ task, Task.phase task ∈ labels) tasks.
Proof.
  induction 1 as [|phase labels Hnotin Hnd IH].
  - simpl. symmetry. apply Permutation_nil_r.
    induction tasks as [|t ts IHt]; [done|].
    rewrite filter_cons_False; [done|]. apply not_elem_of_nil.
  - cbn [fmap list_fmap concat]. rewrite IH. unfold DDA.tasks_by_phase.
    rewrite filter_split_perm.
    + rewrite (list_filter_iff _ (λ task, Task.phase task ∈ phase :: labels)); [done|].
      intros task. by rewrite elem_of_cons.
    + intros task Heq Hin. apply Hnotin. by rewrite <- Heq.
Qed.
End Coverage.

(* ===================================================================== *)
(** ** When a run raises *)
(* ===================================================================== *)

Section ForEach.
Context {A S : Type} (body : S → A → option S).

Lemma for_each_returns (f : S → A → S) (l : list A) (st : S) :
  (∀ st x, x ∈ l → body st x = Some (f st x)) →
  for_each body st l = Some (foldl f st l).
Proof.
  revert st. induction l as [|x l IH]; intros st Hbody; [done|].
  cbn [for_each foldl]. rewrite Hbody by apply list_elem_of_here. simpl.
  apply IH. intros st' y Hy. apply Hbody. by apply list_elem_of_further.
Qed.

Lemma for_each_raises (l : list A) (st : S) (x : A) :
  x ∈ l → (∀ st, body st x = None) → for_each body st l = None.
Proof.
  intros Hx Hraise. revert st.
  induction l as [|y l IH]; intros st; [by apply elem_of_nil in Hx|].
  cbn [for_each]. apply elem_of_cons in Hx as [->|Hx].
  - by rewrite Hraise.
  - destruct (body st y) as [st'|]; [|done]. simpl. by apply IH.
Qed.
End ForEach.

Section Exceptions.
Context {F : Type} `{PyFloat F} `{PyRaise F}.
Implicit Types (task : Task.t F) (project : Project.t F).
Implicit Types (team : list (TeamMember.t F)).

Lemma pma_task_returns team project (st : PMA.state F) task :
  team = [] ∨ duration_raises task = false →
  PortfolioRun.allocate_task team project st task
  = Some (PMA.allocate_task team project st task).
Proof.
  unfold PortfolioRun.allocate_task. intros [->|Hfin]; [done|].
  destruct team; [done|]. by rewrite Hfin.
Qed.

Lemma pma_task_raises team project (st : PMA.state F) task :
  team ≠ [] → duration_raises task = true →
  PortfolioRun.allocate_task team project st task = None.
Proof.
  unfold PortfolioRun.allocate_task. intros Hteam Hinf.
  destruct team; [done|]. by rewrite Hinf.
Qed.

Lemma pma_projects_return team uuid projects fresh (st : PMA.state F) :
  team = [] ∨ Forall (λ task, duration_raises task = false)
                     (portfolio_tasks uuid fresh projects) →
  PortfolioRun.allocate_projects team uuid fresh projects st
  = Some (PMA.allocate_projects team uuid fresh projects st).
Proof.
  revert fresh st. induction projects as [|project rest IH]; intros fresh st Hfin; [done|].
  cbn [PortfolioRun.allocate_projects PMA.allocate_projects].
  rewrite (for_each_returns _ (PMA.allocate_task team project)).
  - simpl. apply IH. destruct Hfin as [?|Hfin]; [by left|right].
    cbn [portfolio_tasks] in Hfin. by apply Forall_app in Hfin as [_ ?].
  - intros st' task Htask. apply pma_task_returns.
    destruct Hfin as [?|Hfin]; [by left|right].
    cbn [portfolio_tasks] in Hfin. apply Forall_app in Hfin as [Hfin _].
    rewrite Forall_forall in Hfin. by apply Hfin.
Qed.

Lemma pma_projects_raise team uuid projects fresh (st : PMA.state F) task :
  team ≠ [] → task ∈ portfolio_tasks uuid fresh projects →
  duration_raises task = true →
  PortfolioRun.allocate_projects team uuid fresh projects st = None.
Proof.
  intros Hteam Htask Hinf. revert fresh st Htask.
  induction projects as [|project rest IH]; intros fresh st Htask.
  - by apply elem_of_nil in Htask.
  - cbn [PortfolioRun.allocate_projects]. cbn [portfolio_tasks] in Htask.
    apply elem_of_app in Htask as [Htask|Htask].
    + rewrite (for_each_raises _ _ _ task); [done|done|].
      intros st'. by apply pma_task_raises.
    + destruct (for_each _ _ _) as [st'|]; [|done]. simpl. by apply IH.
Qed.

Lemma dda_task_returns team project g (st : DDA.state F) task :
  team = [] ∨ duration_raises task = false →
  DeepDiveRun.allocate_task team project g st task
  = Some (DDA.allocate_task team project g st task).
Proof.
  unfold DeepDiveRun.allocate_task. intros [->|Hfin]; [done|].
  destruct team; [done|]. by rewrite Hfin.
Qed.

Lemma dda_task_raises team project g (st : DDA.state F) task :
  team ≠ [] → duration_raises task = true →
  DeepDiveRun.allocate_task team project g st task = None.
Proof.
  unfold DeepDiveRun.allocate_task. intros Hteam Hinf.
  destruct team; [done|]. by rewrite Hinf.
Qed.

Lemma dda_phase_returns team project tasks (st : DDA.state F) idx phase :
  team = [] ∨ Forall (λ task, duration_raises task = false)
                     (DDA.tasks_by_phase tasks phase) →
  DeepDiveRun.process_phase team project tasks st idx phase
  = Some (DDA.process_phase team project tasks st idx phase).
Proof.
  unfold DeepDiveRun.process_phase, DDA.process_phase. intros Hfin.
  destruct (DDA.tasks_by_phase tasks phase) as [|task0 rest]; [done|].
  rewrite (for_each_returns _ (DDA.allocate_task team project
                                 (DDA.phase_start_week_of st idx))); [done|].
  intros st' task Htask. apply dda_task_returns.
  destruct Hfin as [?|Hfin]; [by left|right].
  rewrite Forall_forall in Hfin. by apply Hfin.
Qed.

Lemma dda_phase_raises team project tasks (st : DDA.state F) idx phase task :
  team ≠ [] → task ∈ DDA.tasks_by_phase tasks phase →
  duration_raises task = true →
  DeepDiveRun.process_phase team project tasks st idx phase = None.
Proof.
  unfold DeepDiveRun.process_phase. intros Hteam Htask Hinf.
  destruct (DDA.tasks_by_phase tasks phase) as [|task0 rest];
    [by apply elem_of_nil in Htask|].
  rewrite (for_each_raises _ _ _ task); [done|done|].
  intros st'. by apply dda_task_raises.
Qed.

Lemma dda_phases_return team project tasks remaining idx (st : DDA.state F) :
  team = [] ∨ Forall (λ task, duration_raises task = false)
                     (concat (DDA.tasks_by_phase tasks <$> remaining)) →
  DeepDiveRun.process_phases team project tasks idx remaining st
  = Some (DDA.process_phases team project tasks idx remaining st).
Proof.
  revert idx st. induction remaining as [|phase rest IH]; intros idx st Hfin; [done|].
  cbn [DeepDiveRun.process_phases DDA.process_phases].
  cbn [fmap list_fmap concat] in Hfin. rewrite dda_phase_returns.
  - simpl. apply IH. destruct Hfin as [?|Hfin]; [by left|right].
    by apply Forall_app in Hfin as [_ ?].
  - destruct Hfin as [?|Hfin]; [by left|right].
    by apply Forall_app in Hfin as [? _].
Qed.

Lemma dda_phases_raise team project tasks remaining idx (st : DDA.state F) task :
  team ≠ [] → task ∈ concat (DDA.tasks_by_phase tasks <$> remaining) →
  duration_raises task = true →
  DeepDiveRun.process_phases team project tasks idx remaining st = None.
Proof.
  intros Hteam Htask Hinf. revert idx st Htask.
  induction remaining as [|phase rest IH]; intros idx st Htask.
  - by apply elem_of_nil in Htask.
  - cbn [DeepDiveRun.process_phases]. cbn [fmap list_fmap concat] in Htask.
    apply elem_of_app in Htask as [Htask|Htask].
    + by rewrite (dda_phase_raises _ _ _ _ _ _ task).
    + destruct (DeepDiveRun.process_phase _ _ _ _ _ _) as [st'|]; [|done].
      simpl. by apply IH.
Qed.

(** The tasks a deep-dive run reaches are the tasks with a known label. *)
Lemma grouped_known (tasks : list (Task.t F)) task :
  task ∈ concat (DDA.tasks_by_phase tasks <$> DDA.phase_order)
  ↔ task ∈ tasks ∧ known_phase task.
Proof.
  rewrite (grouped_perm tasks DDA.phase_order phase_order_NoDup).
  by rewrite list_elem_of_filter, (comm and).
Qed.

(** A portfolio run returns, and returns the list computed by
    [PMA.allocate_resources], unless the roster is not empty and the
    duration of one of the phase-tasks raises. *)
Lemma portfolio_run_returns team (projects : list (Project.t F)) uuid :
  team = [] ∨ Forall (λ task, duration_raises task = false)
                     (portfolio_tasks uuid 0 (PMA.sorted_projects projects)) →
  PortfolioRun.allocate_resources team projects uuid
  = Some (PMA.allocate_resources team projects uuid).
Proof.
  intros Hfin. unfold PortfolioRun.allocate_resources.
  by rewrite pma_projects_return.
Qed.

Lemma portfolio_run_raises team (projects : list (Project.t F)) uuid task :
  team ≠ [] → task ∈ portfolio_tasks uuid 0 (PMA.sorted_projects projects) →
  duration_raises task = true →
  PortfolioRun.allocate_resources team projects uuid = None.
Proof.
  intros Hteam Htask Hinf. unfold PortfolioRun.allocate_resources.
  by rewrite (pma_projects_raise _ _ _ _ _ task).
Qed.

(** A deep-dive run returns, and returns the list computed by
    [DDA.allocate_tasks], unless the roster is not empty and the duration
    of one of the tasks with a known label raises. *)
Lemma deep_dive_run_returns project team (tasks : list (Task.t F)) :
  team = [] ∨ (∀ task, task ∈ tasks → known_phase task → duration_raises task = false) →
  DeepDiveRun.allocate_tasks project team tasks
  = Some (DDA.allocate_tasks project team tasks).
Proof.
  intros Hfin. unfold DeepDiveRun.allocate_tasks. rewrite dda_phases_return; [done|].
  destruct Hfin as [?|Hfin]; [by left|right].
  apply Forall_forall. intros task Htask. apply grouped_known in Htask as [? ?].
  by apply Hfin.
Qed.

Lemma deep_dive_run_raises project team (tasks : list (Task.t F)) task :
  team ≠ [] → task ∈ tasks → known_phase task → duration_raises task = true →
  DeepDiveRun.allocate_tasks project team tasks = None.
Proof.
  intros Hteam Htask Hknown Hinf. unfold DeepDiveRun.allocate_tasks.
  rewrite (dda_phases_raise _ _ _ _ _ _ task); [done|done| |done].
  by apply grouped_known.
Qed.

Lemma deep_dive_run_raises_iff project team (tasks : list (Task.t F)) :
  team ≠ [] →
  DeepDiveRun.allocate_tasks project team tasks = None
  ↔ ∃ task, task ∈ tasks ∧ known_phase task ∧ duration_raises task = true.
Proof.
  intros Hteam. split.
  - intros Hnone.
    destruct (decide (Exists (λ task, known_phase task ∧ duration_raises task = true) tasks))
      as [Hex|Hall].
    + apply Exists_exists in Hex as (task & ? & ? & ?). by exists task.
    + rewrite deep_dive_run_returns in Hnone; [done|]. right.
      intros task Htask Hknown. destruct (duration_raises task) eqn:Hinf; [|done].
      destruct Hall. apply Exists_exists. by exists task.
  - intros (task & ? & ? & ?). by apply (deep_dive_run_raises _ _ _ task).
Qed.
End Exceptions.

(* ===================================================================== *)
(** ** What a run depends on *)
(* ===================================================================== *)

Section Determinism.
Context {F : Type} `{PyFloat F}.
Implicit Types (task : Task.t F) (project : Project.t F).
Implicit Types (team : list (TeamMember.t F)) (m : TeamMember.t F).

Lemma blank_id_skills task task' :
  blank_id task = blank_id task' → Task.required_skills task = Task.required_skills task'.
Proof. intros Hb. by apply (f_equal Task.required_skills) in Hb. Qed.

Lemma blank_id_duration task task' :
  blank_id task = blank_id task' → duration_weeks task = duration_weeks task'.
Proof.
  intros Hb. apply (f_equal Task.estimated_hours) in Hb. simpl in Hb.
  unfold duration_weeks. by rewrite Hb.
Qed.

Lemma blank_new_allocation project task task' m s :
  blank_id task = blank_id task' →
  blank (new_allocation project task m s) = blank (new_allocation project task' m s).
Proof.
  intros Hb. unfold blank, new_allocation; simpl.
  rewrite (blank_id_duration _ _ Hb), Hb.
  apply (f_equal Task.estimated_hours) in Hb. simpl in Hb. by rewrite Hb.
Qed.

Lemma blank_journal (j : list (console_line * ResourceAllocation.t F)) :
  (prod_map id blank <$> j).*2 = blank <$> j.*2.
Proof. induction j as [|[line a] j IH]; [done|]. cbn [fmap list_fmap]. by rewrite IH. Qed.

Lemma find_pointwise {A} (f g : A → bool) (l : list A) :
  (∀ x, f x = g x) → find f l = find g l.
Proof. intros Hfg. induction l as [|x l IH]; simpl; [done|]. by rewrite Hfg, IH. Qed.

Lemma pma_step_up_to_ids team project st st' task task' :
  same_up_to_ids st st' → blank_id task = blank_id task' →
  same_up_to_ids (PMA.allocate_task team project st task)
                 (PMA.allocate_task team project st' task').
Proof.
  intros [Hbt Hew Hcs Hlast Hj] Hb.
  assert (Hcands : PMA.member_candidates team st task
                   = PMA.member_candidates team st' task').
  { unfold PMA.member_candidates. f_equal. apply map_ext. intros m.
    unfold PMA.score_member. by rewrite Hbt, Hcs, (blank_id_skills _ _ Hb). }
  assert (Hfits : ∀ c, PMA.fits st task c = PMA.fits st' task' c).
  { intros c. unfold PMA.fits. by rewrite Hbt, Hew, (blank_id_duration _ _ Hb). }
  assert (Hassign : ∀ line m,
    same_up_to_ids (PMA.assign line project task m st)
                   (PMA.assign line project task' m st')).
  { intros line m. unfold PMA.assign.
    split; simpl; rewrite ?Hbt, ?Hew, ?Hcs, ?Hlast, ?(blank_id_duration _ _ Hb); try done.
    rewrite !fmap_app, Hj. f_equal. cbn [fmap list_fmap prod_map fst snd id].
    by rewrite (blank_new_allocation _ _ _ _ _ Hb). }
  unfold PMA.allocate_task.
  rewrite <- Hcands, <- (find_pointwise _ _ _ Hfits).
  destruct (find _ _) as [c|]; [apply Hassign|].
  destruct (PMA.member_candidates team st task) as [|c cs]; [done|apply Hassign].
Qed.

Lemma create_tasks_up_to_ids uuid uuid' fresh project :
  Forall2 (λ task task', blank_id task = blank_id task')
          (PMA._create_portfolio_tasks uuid fresh project)
          (PMA._create_portfolio_tasks uuid' fresh project).
Proof. unfold PMA._create_portfolio_tasks, PMA.phases. simpl. by repeat constructor. Qed.

Lemma pma_run_up_to_ids team uuid uuid' projects :
  ∀ fresh st st',
    same_up_to_ids st st' →
    same_up_to_ids (PMA.allocate_projects team uuid fresh projects st)
                   (PMA.allocate_projects team uuid' fresh projects st').
Proof.
  induction projects as [|project rest IH]; intros fresh st st' Hst; [done|].
  cbn [PMA.allocate_projects]. apply IH.
  pose proof (create_tasks_up_to_ids uuid uuid' fresh project) as Htasks.
  revert st st' Hst. induction Htasks as [|task task' ts ts' Hb _ IHt]; intros st st' Hst.
  - done.
  - cbn [foldl]. apply IHt. by apply pma_step_up_to_ids.
Qed.

(** The rankings are stable: a member stays ahead of a later one whose
    combined score does not compare strictly above. *)
Lemma pma_ranking_stable team (st : PMA.state F) task m1 m2 :
  precedes m1 m2 team →
  flt (PMA.combined_score (PMA.score_member st task m1))
      (PMA.combined_score (PMA.score_member st task m2)) = false →
  precedes (PMA.score_member st task m1) (PMA.score_member st task m2)
           (PMA.member_candidates team st task).
Proof.
  intros Hpre Hflt. unfold PMA.member_candidates, sort_reverse.
  apply stable_sort_stable; [|done].
  by apply (fmap_sublist (PMA.score_member st task)) in Hpre.
Qed.

Lemma dda_ranking_stable team (st : DDA.state F) task m1 m2 :
  precedes m1 m2 team →
  flt (DDA.combined_score (DDA.score_member st task m1))
      (DDA.combined_score (DDA.score_member st task m2)) = false →
  precedes (DDA.score_member st task m1) (DDA.score_member st task m2)
           (DDA.member_candidates team st task).
Proof.
  intros Hpre Hflt. unfold DDA.member_candidates, sort_reverse.
  apply stable_sort_stable; [|done].
  by apply (fmap_sublist (DDA.score_member st task)) in Hpre.
Qed.
End Determinism.

(* ===================================================================== *)
(** ** The consecutive-assignment counters *)
(* ===================================================================== *)

Section Streaks.
Context {F : Type} `{PyFloat F}.
Implicit Types (st : PMA.state F) (team : list (TeamMember.t F)).

Lemma update_streak_only (consecutive : gmap string Z) last n k :
  n ≠ EmptyString →
  (∀ k, get0 consecutive k ≠ 0 → last = Some k) →
  (∀ k, last = Some k → k ≠ EmptyString ∧ 1 ≤ get0 consecutive k) →
  get0 (PMA.update_streak consecutive last n) k ≠ 0 → k = n.
Proof.
  intros Hn Honly Hlast. unfold PMA.update_streak.
  destruct (decide (k = n)) as [->|Hkn]; [done|].
  destruct (decide (last = Some n)) as [->|Hne].
  - rewrite get0_insert_ne by done. intros Hk. specialize (Honly k Hk). congruence.
  - rewrite get0_insert_ne by done. destruct last as [l|].
    + destruct (Hlast l eq_refl) as [Hl _]. rewrite decide_False by done.
      destruct (decide (l = k)) as [->|Hlk].
      * by rewrite get0_insert.
      * rewrite get0_insert_ne by done. intros Hk. specialize (Honly k Hk). congruence.
    + intros Hk. by specialize (Honly k Hk).
Qed.

Lemma update_streak_pos (consecutive : gmap string Z) last n :
  (∀ k, last = Some k → 1 ≤ get0 consecutive k) →
  1 ≤ get0 (PMA.update_streak consecutive last n) n.
Proof.
  intros Hlast. unfold PMA.update_streak.
  destruct (decide (last = Some n)) as [->|Hne]; rewrite get0_insert; [|done].
  specialize (Hlast n eq_refl). lia.
Qed.

Lemma last_assignee_reachable team st :
  pma_reachable team st →
  PMA.last_assigned_member st = (λ e, member_name e.2) <$> last (PMA.journal st).
Proof.
  induction 1 as [|project st task _ IH]; [done|].
  destruct (pma_allocate_task_cases team project st task)
    as [[_ ->]|(line & m & _ & -> & _)]; [done|].
  unfold PMA.assign. cbn [PMA.last_assigned_member PMA.journal].
  by rewrite last_snoc.
Qed.

Lemma streak_inv_reachable team st :
  (∀ m, m ∈ team → TeamMember.name m ≠ EmptyString) →
  pma_reachable team st → streak_inv st.
Proof.
  intros Hnames. induction 1 as [|project st task _ IH].
  - split; simpl; [|done]. intros n Hn. by rewrite get0_zero_counters in Hn.
  - destruct (pma_allocate_task_cases team project st task)
      as [[_ ->]|(line & m & Hm & -> & _)]; [done|].
    destruct IH as [Honly Hlast]. unfold PMA.assign. split; simpl.
    + intros n Hn. f_equal. symmetry. revert Hn.
      apply update_streak_only; [by apply Hnames|done|done].
    + intros n [= <-]. split; [by apply Hnames|].
      apply update_streak_pos. intros k Hk. by apply Hlast.
Qed.
End Streaks.

(* ===================================================================== *)
(** ** The sub-scores in exact arithmetic *)
(* ===================================================================== *)

Section ExactScores.
Implicit Types (m : TeamMember.t Q) (required : list string).

Lemma ratio_range (a b : Z) :
  0 ≤ a ≤ b → 0 < b → (0 <= inject_Z a / inject_Z b)%Q ∧ (inject_Z a / inject_Z b <= 1)%Q.
Proof.
  intros Ha Hb. destruct b as [|p|p]; try lia.
  unfold Qdiv, Qinv, Qmult, Qle, inject_Z; simpl. lia.
Qed.

Lemma ratio_one (a b : Z) : 0 < b → (inject_Z a / inject_Z b == 1)%Q ↔ a = b.
Proof.
  intros Hb. destruct b as [|p|p]; try lia.
  unfold Qdiv, Qinv, Qmult, Qeq, inject_Z; simpl. lia.
Qed.

Lemma size_list_to_set_le required :
  (size (list_to_set required : gset string) ≤ length required)%nat.
Proof.
  induction required as [|x l IH]; [done|].
  rewrite list_to_set_cons, size_union_alt, size_singleton. simpl.
  assert (Hsub : (size (list_to_set l ∖ {[x]} : gset string)
                  ≤ size (list_to_set l : gset string))%nat)
    by (apply subseteq_size; set_solver).
  lia.
Qed.

Lemma size_list_to_set_NoDup required :
  size (list_to_set required : gset string) = length required → NoDup required.
Proof.
  induction required as [|x l IH]; [constructor|].
  rewrite list_to_set_cons, size_union_alt, size_singleton. simpl. intros Hsize.
  pose proof (size_list_to_set_le l) as Hle.
  assert (Hsub : (size (list_to_set l ∖ {[x]} : gset string)
                  ≤ size (list_to_set l : gset string))%nat)
    by (apply subseteq_size; set_solver).
  assert (Heq : size (list_to_set l ∖ {[x]} : gset string) = size (list_to_set l : gset string))
    by lia.
  constructor; [|apply IH; lia].
  intros Hx. rewrite size_difference in Heq by set_solver.
  rewrite size_singleton in Heq.
  assert (size (list_to_set l : gset string) ≠ 0%nat); [|lia].
  intros Hz. apply size_empty_iff in Hz. set_solver.
Qed.

Lemma matched_skills_range required m :
  0 ≤ matched_skills required m ≤ Z.of_nat (length required).
Proof.
  unfold matched_skills. split; [lia|]. apply inj_le.
  etrans; [|apply size_list_to_set_le]. apply subseteq_size. set_solver.
Qed.

(** All required entries are matched exactly when the list has no
    repeated entry and the member holds every entry. *)
Lemma matched_skills_all required m :
  matched_skills required m = Z.of_nat (length required) ↔
  NoDup required ∧ required ⊆ TeamMember.skills m.
Proof.
  unfold matched_skills.
  set (R := list_to_set required : gset string).
  set (S := list_to_set (TeamMember.skills m) : gset string).
  pose proof (size_list_to_set_le required) as Hle. fold R in Hle.
  assert (Hsub : (size (R ∩ S) ≤ size R)%nat) by (apply subseteq_size; set_solver).
  split.
  - intros Heq. apply Nat2Z.inj in Heq.
    assert (HR : size R = length required) by lia. split.
    + by apply size_list_to_set_NoDup.
    + assert (R ∩ S = R) as HRS.
      { apply set_subseteq_size_eq; [set_solver|lia]. }
      intros x Hx. assert (x ∈ R ∩ S) by (rewrite HRS; unfold R; set_solver).
      unfold S in *. set_solver.
  - intros [Hnd Hsubset]. f_equal.
    assert (R ∩ S = R) as -> by (unfold R, S; set_solver).
    by apply size_list_to_set.
Qed.
End ExactScores.

(* ===================================================================== *)
(** ** Properties of every run *)
(* ===================================================================== *)

(** Equal scores never compare strictly below one another, in either
    arithmetic. *)
Lemma exact_tie (x y : Q) : (x == y)%Q → flt x y = false.
Proof.
  intros Hxy. simpl. unfold Qlt_bool. apply negb_false_iff, Qle_bool_iff.
  rewrite Hxy. apply Qle_refl.
Qed.

Lemma binary64_tie (x : float) : flt x x = false.
Proof.
  simpl. rewrite FloatAxioms.ltb_spec. unfold SFltb.
  destruct (Prim2SF x) as [s|s| |s m e]; simpl; try done; destruct s; try done;
    by rewrite Z.compare_refl, Pos.compare_cont_refl.
Qed.

Lemma SFcompare_finite_refl s m e :
  SFcompare (S754_finite s m e) (S754_finite s m e) = Some Eq.
Proof. destruct s; simpl; by rewrite Z.compare_refl, Pos.compare_cont_refl. Qed.

(** In binary64 [int(x)] raises exactly on the floats that are not finite. *)
Lemma int_raises_not_finite (f : float) :
  int_raises f = negb (PrimFloat.is_finite f).
Proof.
  unfold int_raises, binary64_raise, int_raises_float.
  unfold PrimFloat.is_finite, PrimFloat.is_nan, PrimFloat.is_infinity.
  rewrite !FloatAxioms.eqb_spec, FloatAxioms.abs_spec.
  change (Prim2SF infinity) with (S754_infinity false). unfold SFeqb.
  destruct (Prim2SF f) as [s|s| |s m e]; [by destruct s|by destruct s|done|].
  rewrite SFcompare_finite_refl. by destruct s.
Qed.

Section Claims.
Context {F : Type} `{PyFloat F} `{PyRaise F}.
Implicit Types (task : Task.t F) (project : Project.t F).
Implicit Types (team : list (TeamMember.t F)) (m : TeamMember.t F).
Implicit Types (a b : ResourceAllocation.t F) (line : console_line).

Lemma journal_entries_ok team projects uuid project team' tasks line a :
  (line, a) ∈ PMA.journal (PMA.final_state team projects uuid) ∨
  (line, a) ∈ DDA.journal (DDA.final_state project team' tasks) →
  entry_ok (line, a).
Proof.
  intros [Hin|Hin].
  - pose proof (inv_entries _ _ _ (pma_inv_final team projects uuid)) as Hok.
    rewrite Forall_forall in Hok. by apply Hok.
  - pose proof (inv_entries _ _ _ (proj1 (dda_final_invariants project team' tasks))) as Hok.
    rewrite Forall_forall in Hok. by apply Hok.
Qed.

(** C1, as amended. The allocation record has no overallocation field:
    in the portfolio run and in the deep-dive run alike, every emitted
    allocation, whichever branch emitted it, is the record built from
    its project, task, member and start week by the one constructor call
    (end week = start week + duration, bandwidth 50, cost = hours x
    rate). The fallback is reported on the console only, and it is taken
    exactly for the allocations whose member has a capacity below the
    allocated bandwidth. *)
Theorem overallocation_shows_in_capacity_only
    team projects uuid project team' tasks line a :
  (line, a) ∈ PMA.journal (PMA.final_state team projects uuid) ∨
  (line, a) ∈ DDA.journal (DDA.final_state project team' tasks) →
  a = new_allocation (ResourceAllocation.project a) (ResourceAllocation.task a)
                     (ResourceAllocation.team_member a) (ResourceAllocation.start_week a)
  ∧ (line = Overallocated ↔
     TeamMember.total_bandwidth_percent (ResourceAllocation.team_member a)
     < ResourceAllocation.allocated_bandwidth a).
Proof.
  intros Hin.
  destruct (journal_entries_ok _ _ _ _ _ _ _ _ Hin) as [Hend Hcost Hbw Hfit Hforce].
  simpl in *. unfold capacity in *. split.
  - destruct a; simpl in *. unfold new_allocation; simpl. by rewrite Hend, Hcost, Hbw.
  - rewrite Hbw. split; [done|]. intros Hlow.
    destruct line; [|done]. specialize (Hfit eq_refl). lia.
Qed.

(** C4, as amended. Take a non-empty roster. When [int(hours / 20)]
    raises for none of the synthetic phase-tasks, the portfolio run
    returns, and it emits one allocation per phase-task, in creation
    order. When it raises for none of the tasks whose phase label is one
    of the five fixed phases, the deep-dive run returns, and it emits one
    allocation per such task, grouped by phase: the tasks of the emitted
    allocations are a rearrangement of exactly the tasks with a known
    label. When it raises for one of those tasks, as it does when the
    quotient is an infinity or NaN, the deep-dive run raises and emits no
    allocation at all. *)
Theorem every_known_task_allocated_once team projects uuid project tasks :
  team ≠ [] →
  (Forall (λ task, duration_raises task = false)
          (portfolio_tasks uuid 0 (PMA.sorted_projects projects)) →
   ∃ allocations,
     PortfolioRun.allocate_resources team projects uuid = Some allocations
     ∧ ResourceAllocation.task <$> allocations
       = portfolio_tasks uuid 0 (PMA.sorted_projects projects))
  ∧ (Forall (λ task, duration_raises task = false) (filter known_phase tasks) →
     ∃ allocations,
       DeepDiveRun.allocate_tasks project team tasks = Some allocations
       ∧ ResourceAllocation.task <$> allocations
         = concat (DDA.tasks_by_phase tasks <$> DDA.phase_order)
       ∧ ResourceAllocation.task <$> allocations ≡ₚ filter known_phase tasks)
  ∧ (Exists (λ task, duration_raises task = true) (filter known_phase tasks) →
     DeepDiveRun.allocate_tasks project team tasks = None).
Proof.
  intros Hteam. split; [|split].
  - intros Hfin. exists (PMA.allocate_resources team projects uuid). split.
    + apply portfolio_run_returns. by right.
    + unfold PMA.allocate_resources, PMA.final_state.
      fold (tasks_of (PMA.journal (PMA.allocate_projects team uuid 0
              (PMA.sorted_projects projects) (PMA.initial_state team)))).
      by rewrite pma_tasks_projects.
  - intros Hfin. exists (DDA.allocate_tasks project team tasks).
    assert (Hdd : ResourceAllocation.task <$> DDA.allocate_tasks project team tasks
                  = concat (DDA.tasks_by_phase tasks <$> DDA.phase_order)).
    { unfold DDA.allocate_tasks, DDA.final_state.
      fold (tasks_of (DDA.journal (DDA.process_phases team project tasks 0
                                     DDA.phase_order (DDA.initial_state team)))).
      by rewrite dda_tasks_phases. }
    split; [|split; [done|]].
    + apply deep_dive_run_returns. right. intros task Htask Hknown.
      rewrite Forall_forall in Hfin. apply Hfin. by apply list_elem_of_filter.
    + rewrite Hdd. apply grouped_perm, phase_order_NoDup.
  - intros Hinf. apply Exists_exists in Hinf as (task & Htask & Hinf).
    apply list_elem_of_filter in Htask as [Hknown Htask].
    by apply (deep_dive_run_raises _ _ _ task).
Qed.

(** C10. Take a roster in which no member has the empty name, and any
    state of the portfolio loop between two task assignments. The member
    recorded as last assigned is the member of the most recently emitted
    allocation; a name with a nonzero consecutive-assignment counter is
    the name of that member, so every other counter is 0; the counter of
    that member is at least 1; and as long as nothing was assigned all
    counters are 0. *)
Theorem only_last_assignee_has_streak team (st : PMA.state F) :
  (∀ m, m ∈ team → TeamMember.name m ≠ EmptyString) →
  pma_reachable team st →
  PMA.last_assigned_member st = (λ e, member_name e.2) <$> last (PMA.journal st)
  ∧ (∀ n, get0 (PMA.consecutive_tasks st) n ≠ 0 → PMA.last_assigned_member st = Some n)
  ∧ (∀ n, PMA.last_assigned_member st = Some n → 1 ≤ get0 (PMA.consecutive_tasks st) n)
  ∧ (PMA.journal st = [] → ∀ n, get0 (PMA.consecutive_tasks st) n = 0).
Proof.
  intros Hnames Hreach.
  pose proof (last_assignee_reachable team st Hreach) as Hlast.
  destruct (streak_inv_reachable team st Hnames Hreach) as [Honly Hpos].
  split; [done|]. split; [done|]. split.
  - intros n Hn. by destruct (Hpos n Hn).
  - intros Hnil n. rewrite Hnil in Hlast. simpl in Hlast.
    destruct (decide (get0 (PMA.consecutive_tasks st) n = 0)) as [|Hn]; [done|].
    specialize (Honly n Hn). congruence.
Qed.

(** C5. In the deep-dive run an allocation of a task of phase k+1 starts
    at or after the end week of every allocation of a task of phase k,
    and the first allocation of the run starts at week 0: nothing gates
    the first phase. *)
Theorem phase_ordering project team tasks :
  (∀ k line_a a line_b b,
     (line_a, a) ∈ DDA.journal (DDA.final_state project team tasks) →
     (line_b, b) ∈ DDA.journal (DDA.final_state project team tasks) →
     DDA.phase_order !! S k = Some (Task.phase (ResourceAllocation.task a)) →
     DDA.phase_order !! k = Some (Task.phase (ResourceAllocation.task b)) →
     ResourceAllocation.end_week b ≤ ResourceAllocation.start_week a)
  ∧ (∀ a, head (DDA.allocate_tasks project team tasks) = Some a →
          ResourceAllocation.start_week a = 0).
Proof.
  split.
  - intros k line_a a line_b b Ha Hb Hka Hkb.
    destruct (dda_final_invariants project team tasks) as [_ [_ _ Hord]].
    by apply (Hord k (line_a, a) (line_b, b)).
  - intros a Ha. unfold DDA.allocate_tasks in Ha.
    destruct (dda_first_final project team tasks) as [_ Hhead].
    destruct (DDA.journal (DDA.final_state project team tasks)) as [|e j]; [done|].
    simplify_eq/=. by apply (Hhead e).
Qed.

(** C9, as amended. The portfolio run draws a fresh random identifier
    for each synthetic task; apart from these identifiers its allocation
    list is a function of the roster and the project list. In both runs
    the ranking keeps the roster order between two candidates unless the
    later one scores strictly higher; equal combined scores never compare
    strictly below one another, in exact and in binary64 arithmetic, so
    that tied candidates are ranked in roster order. *)
Theorem run_determined_up_to_task_ids team projects uuid uuid' :
  blank <$> PMA.allocate_resources team projects uuid
  = blank <$> PMA.allocate_resources team projects uuid'
  ∧ (∀ (st : PMA.state F) task m1 m2,
       precedes m1 m2 team →
       flt (PMA.combined_score (PMA.score_member st task m1))
           (PMA.combined_score (PMA.score_member st task m2)) = false →
       precedes (PMA.score_member st task m1) (PMA.score_member st task m2)
                (PMA.member_candidates team st task))
  ∧ (∀ (st : DDA.state F) task m1 m2,
       precedes m1 m2 team →
       flt (DDA.combined_score (DDA.score_member st task m1))
           (DDA.combined_score (DDA.score_member st task m2)) = false →
       precedes (DDA.score_member st task m1) (DDA.score_member st task m2)
                (DDA.member_candidates team st task))
  ∧ (∀ x y : Q, (x == y)%Q → flt x y = false)
  ∧ (∀ x : float, flt x x = false).
Proof.
  split; [|split; [|split; [|split]]].
  - unfold PMA.allocate_resources, PMA.final_state.
    pose proof (pma_run_up_to_ids team uuid uuid' (PMA.sorted_projects projects) 0%nat
                  (PMA.initial_state team) (PMA.initial_state team)) as Hrun.
    destruct Hrun as [_ _ _ _ Hj]; [by split|].
    by rewrite <- !blank_journal, Hj.
  - intros. by apply pma_ranking_stable.
  - intros. by apply dda_ranking_stable.
  - apply exact_tie.
  - apply binary64_tie.
Qed.
End Claims.

Section CapacityClaim.
Context {F : Type} `{PyFloat F} `{!EqDecision F}.

(** C2. For every member and every week: unless an allocation of that
    member covering that week was reported as overallocated, the
    bandwidth that the member's allocations covering the week commit does
    not exceed the member's capacity. The capacity is a percentage, 0 to
    100 in the data model; the proof needs it to be non-negative. This
    holds of the portfolio run and of the deep-dive run. *)
Theorem capacity_invariant
    (team : list (TeamMember.t F)) projects uuid project team' tasks
    (m : TeamMember.t F) (w : Z) :
  0 ≤ TeamMember.total_bandwidth_percent m →
  (¬ flagged (PMA.journal (PMA.final_state team projects uuid)) m w →
   committed (PMA.allocate_resources team projects uuid) m w
   ≤ TeamMember.total_bandwidth_percent m)
  ∧ (¬ flagged (DDA.journal (DDA.final_state project team' tasks)) m w →
     committed (DDA.allocate_tasks project team' tasks) m w
     ≤ TeamMember.total_bandwidth_percent m).
Proof.
  intros Hcap. split; intros Hflag.
  - destruct (pma_inv_final team projects uuid) as [_ Hok _ Hseq].
    destruct (committed_bound _ m w Hok Hseq Hflag) as [Hc|[Hc Hle]];
      unfold PMA.allocate_resources; rewrite Hc; [done|].
    unfold bandwidth_needed in *. lia.
  - destruct (dda_final_invariants project team' tasks) as [[_ Hok _ Hseq] _].
    destruct (committed_bound _ m w Hok Hseq Hflag) as [Hc|[Hc Hle]];
      unfold DDA.allocate_tasks; rewrite Hc; [done|].
    unfold bandwidth_needed in *. lia.
Qed.
End CapacityClaim.

(* ===================================================================== *)
(** ** Scores and scenarios in exact and in binary64 arithmetic *)
(* ===================================================================== *)

Section SkillScore.
Implicit Types (m : TeamMember.t Q) (required : list string).

(** The skill sub-score lies between 0 and 1. *)
Lemma skill_score_range required m :
  (0 <= PMA.match_skills required m)%Q ∧ (PMA.match_skills required m <= 1)%Q.
Proof.
  destruct required as [|r rs]; [by vm_compute|].
  unfold PMA.match_skills. apply ratio_range; [apply matched_skills_range|simpl; lia].
Qed.

(** It is 1 exactly when the required list has no repeated entry and the
    member holds every entry. *)
Lemma skill_score_one required m :
  required ≠ [] →
  (PMA.match_skills required m == 1)%Q ↔ NoDup required ∧ required ⊆ TeamMember.skills m.
Proof.
  intros Hne. destruct required as [|r rs]; [done|].
  unfold PMA.match_skills. rewrite ratio_one by (simpl; lia).
  apply matched_skills_all.
Qed.

(** The deep-dive scorer computes the same ratio and differs in the
    default only. *)
Lemma match_score_ratio (task : Task.t Q) m :
  Task.required_skills task ≠ [] →
  DDA.match_score_of task m = PMA.match_skills (Task.required_skills task) m.
Proof. unfold DDA.match_score_of, PMA.match_skills. by destruct (Task.required_skills task). Qed.

Lemma skill_score_default m (task : Task.t Q) :
  (PMA.match_skills [] m == 1 # 2)%Q ∧
  (Task.required_skills task = [] → (DDA.match_score_of task m == 3 # 10)%Q).
Proof.
  split; [done|]. intros Hreq. unfold DDA.match_score_of. by rewrite Hreq.
Qed.
End SkillScore.

(** C7, at the failing input. A member who holds the only required skill
    scores 0.5, not 1.0, when the requirement lists that skill twice: the
    matched skills are counted as a set and divided by the length of the
    list. Both scorers, both arithmetics. *)
Theorem skill_score_repeated_requirement :
  ["python"; "python"] ⊆ ["python"]
  ∧ PMA.match_skills (F:=float) ["python"; "python"]
                     (Scenario.developer "A" ["python"] 100) = 0.5%float
  ∧ (PMA.match_skills (F:=Q) ["python"; "python"]
                      (Scenario.developer "A" ["python"] 100) == 1 # 2)%Q
  ∧ DDA.match_score_of (F:=float)
      (Task.mk "t1" "Review" "Code review" ["python"; "python"] 40%float "Development" [])
      (Scenario.developer "A" ["python"] 100) = 0.5%float.
Proof.
  split; [set_solver|]. split; [by vm_compute|]. split; by vm_compute.
Qed.

(** C6. The consecutive-penalty sub-score is 1.0 - 0.15 c for a streak c
    of 0, 1 or 2 and exactly 0.5 for every streak of 3 or more; in the
    portfolio run it is computed from the member's streak counter. *)
Theorem consecutive_penalty_floor (c : Z) :
  (0 ≤ c < 3 →
   (PMA.consecutive_score_of (F:=Q) c == 1 - (15 # 100) * inject_Z c)%Q)
  ∧ (3 ≤ c →
     (PMA.consecutive_score_of (F:=Q) c == 1 # 2)%Q
     ∧ PMA.consecutive_score_of (F:=float) c = 0.5%float)
  ∧ PMA.consecutive_score_of (F:=float) <$> [0; 1; 2] = [1; 0.85; 0.7]%float
  ∧ (∀ F (arith : PyFloat F) (st : PMA.state F) task m,
       PMA.consecutive_score (PMA.score_member st task m)
       = PMA.consecutive_score_of (get0 (PMA.consecutive_tasks st) (TeamMember.name m))).
Proof.
  split; [|split; [|split]].
  - intros Hc. assert (c = 0 ∨ c = 1 ∨ c = 2) as [->|[->| ->]] by lia; by vm_compute.
  - intros Hc. unfold PMA.consecutive_score_of.
    destruct (Z.leb_spec 3 c) as [_|?]; [|lia]. split; by vm_compute.
  - by vm_compute.
  - done.
Qed.

(** C3, refuted. The third phase-task does not go to A. *)
Lemma scenario_third_task_not_to_A :
  Scenario.assignee_and_start
    <$> PMA.allocate_resources (F:=float) [Scenario.A; Scenario.B] [Scenario.portal 5]
                               Scenario.uuid
  ≠ [("A", 0); ("A", 2); ("A", 4); ("A", 6); ("A", 8)].
Proof. by vm_compute. Qed.

(** C3, as amended. In the scenario (each phase-task takes 2 weeks when the
    project's estimated duration is 5, 6 or 7 weeks) the first, second,
    fourth and fifth task go to A from weeks 0, 2, 4 and 6, and the third
    task goes to B from week 0: before the third task A's combined score
    (about 0.61) has dropped below B's (0.70). *)
Theorem scenario_allocation (duration : Z) :
  5 ≤ duration ≤ 7 →
  Scenario.assignee_and_start
    <$> PMA.allocate_resources (F:=float) [Scenario.A; Scenario.B]
                               [Scenario.portal duration] Scenario.uuid
  = [("A", 0); ("A", 2); ("B", 0); ("A", 4); ("A", 6)]
  ∧ Scenario.assignee_and_start
      <$> PMA.allocate_resources (F:=Q) [Scenario.A; Scenario.B]
                                 [Scenario.portal duration] Scenario.uuid
    = [("A", 0); ("A", 2); ("B", 0); ("A", 4); ("A", 6)].
Proof.
  intros Hd. assert (duration = 5 ∨ duration = 6 ∨ duration = 7) as [->|[->| ->]] by lia;
    split; by vm_compute.
Qed.

(** C1, refuted. With a 40% member every allocation comes from the
    fallback; the first one is the seven-field record below, which holds
    no marker. With a 100% member no allocation comes from the fallback,
    and the two allocation lists agree in every field except the capacity
    inside the assignee. *)
Lemma fallback_allocation_carries_no_marker :
  (PMA.journal (PMA.final_state (F:=float) [Scenario.ann 40] [Scenario.portal 5]
                                Scenario.uuid)).*1
  = replicate 5 Overallocated
  ∧ head (PMA.allocate_resources (F:=float) [Scenario.ann 40] [Scenario.portal 5]
                                 Scenario.uuid)
    = Some {| ResourceAllocation.project := Scenario.portal 5;
              ResourceAllocation.task :=
                Task.mk "3f1c9e2a" "Planning - Portal" "Planning phase for Portal"
                        ["python"] 40%float "Planning" [];
              ResourceAllocation.team_member := Scenario.ann 40;
              ResourceAllocation.start_week := 0;
              ResourceAllocation.end_week := 2;
              ResourceAllocation.allocated_bandwidth := 50;
              ResourceAllocation.estimated_cost := 2000%float |}
  ∧ (PMA.journal (PMA.final_state (F:=float) [Scenario.ann 100] [Scenario.portal 5]
                                  Scenario.uuid)).*1
    = replicate 5 Assigned
  ∧ Scenario.without_assignee
      <$> PMA.allocate_resources (F:=float) [Scenario.ann 40] [Scenario.portal 5]
                                 Scenario.uuid
    = Scenario.without_assignee
        <$> PMA.allocate_resources (F:=float) [Scenario.ann 100] [Scenario.portal 5]
                                   Scenario.uuid.
Proof. repeat split; by vm_compute. Qed.

(** C4, refuted. The deep-dive run over the backlog, whose six tasks
    have finite hours, returns; it allocates five of the six tasks: the
    task labelled Maintenance gets no allocation. *)
Lemma deep_dive_drops_unknown_phase :
  Scenario.work_item "Operations" "Maintenance" 30 ∈ Scenario.backlog (F:=float)
  ∧ Task.task_name ∘ ResourceAllocation.task
      <$> DDA.allocate_tasks (F:=float) (Scenario.portal 5)
                             [Scenario.ann 100; Scenario.bob] Scenario.backlog
    = ["Requirements"; "Charter"; "Architecture"; "Database"; "Testing"]
  ∧ DeepDiveRun.allocate_tasks (F:=float) (Scenario.portal 5)
                               [Scenario.ann 100; Scenario.bob] Scenario.backlog
    = Some (DDA.allocate_tasks (Scenario.portal 5)
                               [Scenario.ann 100; Scenario.bob] Scenario.backlog).
Proof.
  split; [|split; by vm_compute]. unfold Scenario.backlog. set_solver.
Qed.


(** C9, refuted. Two runs on the same roster and project list that draw
    different identifiers return different allocation lists. *)
Lemma fresh_task_ids_differ :
  PMA.allocate_resources (F:=float) [Scenario.A; Scenario.B] [Scenario.portal 5]
                         Scenario.uuid
  ≠ PMA.allocate_resources (F:=float) [Scenario.A; Scenario.B] [Scenario.portal 5]
                           Scenario.uuid'.
Proof.
  intros Heq.
  apply (f_equal (fmap (Task.id ∘ ResourceAllocation.task))) in Heq.
  by vm_compute in Heq.
Qed.

(** Why the counters are studied for rosters without an empty name, which
    are the rosters the front end builds (it adds a member only when the
    name field is filled in). Were a member with the empty name assigned
    and then a member named B, both counters would be 1: the truth test
    [if last_assigned_member:] takes the empty name for the absence of a
    previous assignee and skips the reset. *)
Lemma empty_name_keeps_its_streak :
  pma_reachable [Scenario.unnamed; Scenario.bea] (Scenario.after_two_tasks (F:=float))
  ∧ Scenario.assignee_and_start <$> (PMA.journal (Scenario.after_two_tasks (F:=float))).*2
    = [(EmptyString, 0); ("B", 0)]
  ∧ PMA.last_assigned_member (Scenario.after_two_tasks (F:=float)) = Some "B"
  ∧ get0 (PMA.consecutive_tasks (Scenario.after_two_tasks (F:=float))) EmptyString = 1
  ∧ get0 (PMA.consecutive_tasks (Scenario.after_two_tasks (F:=float))) "B" = 1
  ∧ PMA.update_streak {[ EmptyString := 1; "B" := 0 ]} (Some EmptyString) "B"
    = {[ EmptyString := 1; "B" := 1 ]}
  ∧ get0 (PMA.consecutive_tasks
            (PMA.final_state (F:=float) [Scenario.unnamed; Scenario.bea]
               [Scenario.portal 5; Scenario.billing] Scenario.uuid)) EmptyString = 1
  ∧ get0 (PMA.consecutive_tasks
            (PMA.final_state (F:=float) [Scenario.unnamed; Scenario.bea]
               [Scenario.portal 5; Scenario.billing] Scenario.uuid)) "B" = 1.
Proof.
  split.
  - unfold Scenario.after_two_tasks. cbn [PMA._create_portfolio_tasks PMA.phases imap take foldl].
    apply reach_step, reach_step, reach_initial.
  - repeat split; by vm_compute.
Qed.

Lemma zero_hours_exact (task : Task.t Q) :
  (Task.estimated_hours task == 0)%Q → duration_weeks task = 1.
Proof.
  unfold duration_weeks. simpl. destruct (Task.estimated_hours task) as [n d].
  unfold Qeq; simpl. intros Hn. assert (n = 0) as -> by lia. by vm_compute.
Qed.

Lemma zero_hours_binary64 (task : Task.t float) :
  Task.estimated_hours task = 0%float → duration_weeks task = 1.
Proof. unfold duration_weeks. intros ->. by vm_compute. Qed.


(* ===================================================================== *)
(** ** Instances of the theorems on the concrete inputs *)
(* ===================================================================== *)

Lemma overallocation_shows_in_capacity_only_witness :
  new_allocation (F:=float) (Scenario.portal 5)
    (Task.mk "3f1c9e2a" "Planning - Portal" "Planning phase for Portal" ["python"]
             40%float "Planning" [])
    (Scenario.ann 40) 0
  = ResourceAllocation.mk (Scenario.portal 5)
      (Task.mk "3f1c9e2a" "Planning - Portal" "Planning phase for Portal" ["python"]
               40%float "Planning" [])
      (Scenario.ann 40) 0 2 50 2000%float
  ∧ (Overallocated = Overallocated ↔ 40 < 50).
Proof.
  pose proof (overallocation_shows_in_capacity_only (F:=float)
                [Scenario.ann 40] [Scenario.portal 5] Scenario.uuid
                (Scenario.portal 5) [] [] Overallocated
                (ResourceAllocation.mk (Scenario.portal 5)
                   (Task.mk "3f1c9e2a" "Planning - Portal" "Planning phase for Portal"
                            ["python"] 40%float "Planning" [])
                   (Scenario.ann 40) 0 2 50 2000%float)) as Hthm.
  destruct Hthm as [Hrecord Hiff].
  - left. vm_compute. apply list_elem_of_here.
  - split; [by vm_compute|]. exact Hiff.
Defined.

Lemma capacity_invariant_witness :
  0 ≤ 100
  ∧ committed (PMA.allocate_resources (F:=Q) [Scenario.ann 100; Scenario.bob]
                 [Scenario.portal 5] Scenario.uuid) (Scenario.ann 100) 0 ≤ 100.
Proof.
  split; [lia|].
  pose proof (capacity_invariant (F:=Q) [Scenario.ann 100; Scenario.bob]
                [Scenario.portal 5] Scenario.uuid (Scenario.portal 5) [] []
                (Scenario.ann 100) 0) as Hthm.
  destruct Hthm as [Hportfolio _]; [simpl; lia|].
  apply Hportfolio. apply (bool_decide_unpack _). by vm_compute.
Defined.

Lemma scenario_allocation_witness :
  5 ≤ 6 ≤ 7
  ∧ Scenario.assignee_and_start
      <$> PMA.allocate_resources (F:=float) [Scenario.A; Scenario.B]
                                 [Scenario.portal 6] Scenario.uuid
    = [("A", 0); ("A", 2); ("B", 0); ("A", 4); ("A", 6)].
Proof. split; [lia|]. apply (scenario_allocation 6). lia. Defined.

Lemma every_known_task_allocated_once_witness :
  [Scenario.ann 100; Scenario.bob] ≠ []
  ∧ Forall (λ task, duration_raises task = false)
           (filter known_phase (Scenario.backlog (F:=float)))
  ∧ ∃ allocations,
      DeepDiveRun.allocate_tasks (F:=float) (Scenario.portal 5)
                                 [Scenario.ann 100; Scenario.bob] Scenario.backlog
      = Some allocations
      ∧ ResourceAllocation.task <$> allocations
        = concat (DDA.tasks_by_phase Scenario.backlog <$> DDA.phase_order)
      ∧ ResourceAllocation.task <$> allocations ≡ₚ filter known_phase Scenario.backlog.
Proof.
  assert (Hfin : Forall (λ task, duration_raises task = false)
                        (filter known_phase (Scenario.backlog (F:=float)))).
  { apply (bool_decide_unpack _). by vm_compute. }
  split; [done|]. split; [exact Hfin|].
  apply (every_known_task_allocated_once (F:=float) [Scenario.ann 100; Scenario.bob]
           [Scenario.portal 5] Scenario.uuid (Scenario.portal 5) Scenario.backlog).
  - done.
  - exact Hfin.
Defined.

Lemma only_last_assignee_has_streak_witness :
  Forall (λ m, TeamMember.name m ≠ EmptyString) [Scenario.A (F:=float); Scenario.B]
  ∧ PMA.last_assigned_member
      (PMA.allocate_task [Scenario.A (F:=float); Scenario.B] (Scenario.portal 5)
         (PMA.initial_state [Scenario.A; Scenario.B])
         (Scenario.work_item "Requirements" "Planning" 40))
    = Some "A"
  ∧ 1 ≤ get0 (PMA.consecutive_tasks
                (PMA.allocate_task [Scenario.A (F:=float); Scenario.B] (Scenario.portal 5)
                   (PMA.initial_state [Scenario.A; Scenario.B])
                   (Scenario.work_item "Requirements" "Planning" 40))) "A".
Proof.
  assert (Hnames : Forall (λ m, TeamMember.name m ≠ EmptyString)
                          [Scenario.A (F:=float); Scenario.B]).
  { apply (bool_decide_unpack _). by vm_compute. }
  assert (Hlast : PMA.last_assigned_member
      (PMA.allocate_task [Scenario.A (F:=float); Scenario.B] (Scenario.portal 5)
         (PMA.initial_state [Scenario.A; Scenario.B])
         (Scenario.work_item "Requirements" "Planning" 40)) = Some "A") by (by vm_compute).
  split; [exact Hnames|]. split; [exact Hlast|].
  apply (only_last_assignee_has_streak (F:=float) [Scenario.A; Scenario.B]
           (PMA.allocate_task [Scenario.A; Scenario.B] (Scenario.portal 5)
              (PMA.initial_state [Scenario.A; Scenario.B])
              (Scenario.work_item "Requirements" "Planning" 40))).
  - intros m Hm. rewrite Forall_forall in Hnames. by apply Hnames.
  - apply reach_step, reach_initial.
  - exact Hlast.
Defined.

Lemma phase_ordering_witness :
  ResourceAllocation.end_week
    (new_allocation (F:=float) (Scenario.portal 5)
       (Scenario.work_item "Requirements" "Planning" 40) (Scenario.ann 100) 0)
  ≤ ResourceAllocation.start_week
      (new_allocation (F:=float) (Scenario.portal 5)
         (Scenario.work_item "Architecture" "Design" 60) Scenario.bob 2).
Proof.
  apply (proj1 (phase_ordering (F:=float) (Scenario.portal 5)
                  [Scenario.ann 100; Scenario.bob] Scenario.backlog)
           0%nat Assigned _ Assigned _).
  - vm_compute. do 2 apply list_elem_of_further. apply list_elem_of_here.
  - vm_compute. apply list_elem_of_here.
  - reflexivity.
  - reflexivity.
Defined.

Lemma consecutive_penalty_floor_witness :
  3 ≤ 10
  ∧ (PMA.consecutive_score_of (F:=Q) 10 == 1 # 2)%Q
  ∧ PMA.consecutive_score_of (F:=float) 10 = 0.5%float.
Proof.
  split; [lia|]. apply (proj1 (proj2 (consecutive_penalty_floor 10))). lia.
Defined.


Lemma run_determined_up_to_task_ids_witness :
  precedes (PMA.score_member (PMA.initial_state [Scenario.unnamed; Scenario.bea])
              (Scenario.work_item (F:=float) "Requirements" "Planning" 40) Scenario.unnamed)
           (PMA.score_member (PMA.initial_state [Scenario.unnamed; Scenario.bea])
              (Scenario.work_item "Requirements" "Planning" 40) Scenario.bea)
           (PMA.member_candidates [Scenario.unnamed; Scenario.bea]
              (PMA.initial_state [Scenario.unnamed; Scenario.bea])
              (Scenario.work_item "Requirements" "Planning" 40)).
Proof.
  apply (proj1 (proj2 (run_determined_up_to_task_ids (F:=float)
                         [Scenario.unnamed; Scenario.bea] [] Scenario.uuid Scenario.uuid'))).
  - unfold precedes. done.
  - by vm_compute.
Defined.

(* ===================================================================== *)
(** ** Sorting by a key *)
(* ===================================================================== *)

Section SortedOutput.
Context {A : Type} (before : A → A → bool) (R : relation A).
Hypothesis before_true : ∀ x y, before y x = true → R y x.
Hypothesis before_false : ∀ x y, before y x = false → R x y.
Hypothesis R_trans : Transitive R.

Lemma stable_insert_sorted x l :
  StronglySorted R l → StronglySorted R (stable_insert before x l).
Proof.
  induction 1 as [|y l Hl IH Hy]; simpl.
  - repeat constructor.
  - destruct (before y x) eqn:Hyx.
    + constructor; [done|].
      rewrite Forall_forall. intros z Hz.
      apply (elem_of_Permutation_proper _ _ _ (stable_insert_perm before x l)) in Hz.
      apply elem_of_cons in Hz as [->|Hz]; [by apply before_true|].
      rewrite Forall_forall in Hy. by apply Hy.
    + constructor; [by constructor|].
      apply before_false in Hyx. constructor; [done|].
      eapply Forall_impl; [done|]. intros z Hz. by etrans.
Qed.

Lemma stable_sort_sorted l : StronglySorted R (stable_sort before l).
Proof.
  induction l as [|x l IH]; simpl; [constructor|]. by apply stable_insert_sorted.
Qed.
End SortedOutput.

(** The same for a comparison that is an order on the elements that
    satisfy [P] only. *)
Section SortedOutputOn.
Context {A : Type} (before : A → A → bool) (R : relation A) (P : A → Prop).
Hypothesis before_true : ∀ x y, P x → P y → before y x = true → R y x.
Hypothesis before_false : ∀ x y, P x → P y → before y x = false → R x y.
Hypothesis R_trans : ∀ x y z, P x → P y → P z → R x y → R y z → R x z.

Lemma stable_insert_sorted_on x l :
  P x → Forall P l →
  StronglySorted R l → StronglySorted R (stable_insert before x l).
Proof.
  intros Hx HP. induction 1 as [|y l Hl IH Hy]; simpl.
  - repeat constructor.
  - apply Forall_cons in HP as [HPy HPl]. destruct (before y x) eqn:Hyx.
    + constructor; [by apply IH|].
      rewrite Forall_forall. intros z Hz.
      apply (elem_of_Permutation_proper _ _ _ (stable_insert_perm before x l)) in Hz.
      apply elem_of_cons in Hz as [->|Hz]; [by apply before_true|].
      rewrite Forall_forall in Hy. by apply Hy.
    + constructor; [by constructor|].
      apply before_false in Hyx; [|done|done]. constructor; [done|].
      rewrite Forall_forall in Hy, HPl. rewrite Forall_forall. intros z Hz.
      apply (R_trans x y z); [done|done|by apply HPl|done|by apply Hy].
Qed.

Lemma stable_sort_sorted_on l :
  Forall P l → StronglySorted R (stable_sort before l).
Proof.
  induction l as [|x l IH]; simpl; [constructor|].
  intros [Hx Hl]%Forall_cons. apply stable_insert_sorted_on; [done| |by apply IH].
  by rewrite (stable_sort_perm before l).
Qed.
End SortedOutputOn.

(** What [find] skips does not satisfy the test. *)
Lemma find_first {A} (f : A → bool) (l : list A) (c : A) :
  find f l = Some c →
  ∃ l1 l2, l = l1 ++ c :: l2 ∧ f c = true ∧ Forall (λ x, f x = false) l1.
Proof.
  induction l as [|x l IH]; [done|]. simpl.
  destruct (f x) eqn:Hx.
  - intros [= ->]. by exists [], l.
  - intros (l1 & l2 & -> & Hc & Hl1)%IH. exists (x :: l1), l2.
    split; [done|]. split; [done|]. by constructor.
Qed.

Lemma find_none_all {A} (f : A → bool) (l : list A) :
  find f l = None → Forall (λ x, f x = false) l.
Proof.
  intros Hnone. rewrite Forall_forall. intros x Hx%list_elem_of_In.
  by eapply find_none.
Qed.

(* ===================================================================== *)
(** ** Who is chosen *)
(* ===================================================================== *)

Section Choice.
Context {F : Type} `{PyFloat F}.
Implicit Types (task : Task.t F) (project : Project.t F).
Implicit Types (team : list (TeamMember.t F)) (m : TeamMember.t F).

(** From the cursor on a member is free, so that only the capacity decides
    whether a task fits. *)
Lemma can_assign_free bt ew j m s task :
  tracker_inv bt ew j → get0 ew (TeamMember.name m) ≤ s →
  can_assign bt m s (duration_weeks task) = true
  ↔ bandwidth_needed ≤ TeamMember.total_bandwidth_percent m.
Proof.
  intros [Hfree _ _ _] Hs. rewrite can_assign_true.
  pose proof (duration_weeks_pos task) as Hd. split.
  - intros Hall. specialize (Hall s). rewrite Hfree in Hall by done. lia.
  - intros Hcap w Hw. rewrite Hfree by lia. lia.
Qed.

Lemma pma_fits_capacity (st : PMA.state F) task m :
  pma_inv st →
  PMA.fits st task (PMA.score_member st task m) = true
  ↔ bandwidth_needed ≤ TeamMember.total_bandwidth_percent m.
Proof. intros Hinv. unfold PMA.fits. simpl. by eapply can_assign_free. Qed.

Lemma dda_fits_capacity g (st : DDA.state F) task m :
  dda_inv st →
  DDA.fits g st task (DDA.score_member st task m) = true
  ↔ bandwidth_needed ≤ TeamMember.total_bandwidth_percent m.
Proof.
  intros Hinv. unfold DDA.fits. simpl. eapply can_assign_free; [done|].
  unfold DDA.start_week_of. lia.
Qed.

(** The candidate an iteration picks, and the candidates it passed over. *)
Lemma pma_allocate_task_choice team project (st : PMA.state F) task :
  (team = [] ∧ PMA.allocate_task team project st task = st) ∨
  ∃ line c l1 l2,
    PMA.member_candidates team st task = l1 ++ c :: l2 ∧
    PMA.allocate_task team project st task
    = PMA.assign line project task (PMA.member c) st ∧
    Forall (λ x, PMA.fits st task x = false) l1 ∧
    PMA.fits st task c = bool_decide (line = Assigned) ∧
    (line = Overallocated → l1 = [] ∧ Forall (λ x, PMA.fits st task x = false) l2).
Proof.
  unfold PMA.allocate_task.
  destruct (find _ _) as [c|] eqn:Hfind.
  - right. apply find_first in Hfind as (l1 & l2 & Hl & Hc & Hl1).
    exists Assigned, c, l1, l2. by repeat split.
  - destruct (PMA.member_candidates team st task) as [|c cs] eqn:Hcs.
    + left. by apply pma_candidates_nil in Hcs.
    + right. apply find_none_all, Forall_cons in Hfind as [Hc Hcs'].
      exists Overallocated, c, [], cs. by repeat split.
Qed.

Lemma dda_allocate_task_choice team project g (st : DDA.state F) task :
  (team = [] ∧ DDA.allocate_task team project g st task = st) ∨
  ∃ line c l1 l2,
    DDA.member_candidates team st task = l1 ++ c :: l2 ∧
    DDA.allocate_task team project g st task
    = DDA.assign line project g task (DDA.member c) st ∧
    Forall (λ x, DDA.fits g st task x = false) l1 ∧
    DDA.fits g st task c = bool_decide (line = Assigned) ∧
    (line = Overallocated → l1 = [] ∧ Forall (λ x, DDA.fits g st task x = false) l2).
Proof.
  unfold DDA.allocate_task.
  destruct (find _ _) as [c|] eqn:Hfind.
  - right. apply find_first in Hfind as (l1 & l2 & Hl & Hc & Hl1).
    exists Assigned, c, l1, l2. by repeat split.
  - destruct (DDA.member_candidates team st task) as [|c cs] eqn:Hcs.
    + left. by apply dda_candidates_nil in Hcs.
    + right. apply find_none_all, Forall_cons in Hfind as [Hc Hcs'].
      exists Overallocated, c, [], cs. by repeat split.
Qed.

(** The fallback is taken only when no member of the roster has the
    capacity for a task. *)
Lemma pma_step_fallback team project (st : PMA.state F) task :
  pma_inv st →
  (team = [] ∧ PMA.allocate_task team project st task = st) ∨
  ∃ line m,
    m ∈ team ∧
    PMA.allocate_task team project st task = PMA.assign line project task m st ∧
    (line = Assigned → bandwidth_needed ≤ TeamMember.total_bandwidth_percent m) ∧
    (line = Overallocated →
     ∀ m', m' ∈ team → TeamMember.total_bandwidth_percent m' < bandwidth_needed).
Proof.
  intros Hinv.
  destruct (pma_allocate_task_choice team project st task)
    as [?|(line & c & l1 & l2 & Hl & Hstep & Hl1 & Hc & Hover)]; [by left|right].
  assert (Hin : c ∈ PMA.member_candidates team st task).
  { rewrite Hl. set_solver. }
  apply pma_candidates_elem in Hin as (m & Hm & ->).
  exists line, m. split; [done|]. split; [done|]. split.
  - intros ->. by apply (pma_fits_capacity st task m).
  - intros ->. destruct (Hover eq_refl) as [-> Hl2]. simpl in Hl.
    intros m' Hm'.
    destruct (decide (bandwidth_needed ≤ TeamMember.total_bandwidth_percent m'))
      as [Hcap|]; [|lia].
    apply (pma_fits_capacity st task m' Hinv) in Hcap.
    assert (Hin' : PMA.score_member st task m' ∈ PMA.member_candidates team st task).
    { apply pma_candidates_elem. by exists m'. }
    rewrite Hl in Hin'. apply elem_of_cons in Hin' as [Heq|Hin'].
    + rewrite Heq in Hcap. simpl in Hc. congruence.
    + rewrite Forall_forall in Hl2. specialize (Hl2 _ Hin'). congruence.
Qed.

Lemma dda_step_fallback team project g (st : DDA.state F) task :
  dda_inv st →
  (team = [] ∧ DDA.allocate_task team project g st task = st) ∨
  ∃ line m,
    m ∈ team ∧
    DDA.allocate_task team project g st task = DDA.assign line project g task m st ∧
    (line = Assigned → bandwidth_needed ≤ TeamMember.total_bandwidth_percent m) ∧
    (line = Overallocated →
     ∀ m', m' ∈ team → TeamMember.total_bandwidth_percent m' < bandwidth_needed).
Proof.
  intros Hinv.
  destruct (dda_allocate_task_choice team project g st task)
    as [?|(line & c & l1 & l2 & Hl & Hstep & Hl1 & Hc & Hover)]; [by left|right].
  assert (Hin : c ∈ DDA.member_candidates team st task).
  { rewrite Hl. set_solver. }
  apply dda_candidates_elem in Hin as (m & Hm & ->).
  exists line, m. split; [done|]. split; [done|]. split.
  - intros ->. by apply (dda_fits_capacity g st task m).
  - intros ->. destruct (Hover eq_refl) as [-> Hl2]. simpl in Hl.
    intros m' Hm'.
    destruct (decide (bandwidth_needed ≤ TeamMember.total_bandwidth_percent m'))
      as [Hcap|]; [|lia].
    apply (dda_fits_capacity g st task m' Hinv) in Hcap.
    assert (Hin' : DDA.score_member st task m' ∈ DDA.member_candidates team st task).
    { apply dda_candidates_elem. by exists m'. }
    rewrite Hl in Hin'. apply elem_of_cons in Hin' as [Heq|Hin'].
    + rewrite Heq in Hcap. simpl in Hc. congruence.
    + rewrite Forall_forall in Hl2. specialize (Hl2 _ Hin'). congruence.
Qed.
End Choice.

(* ===================================================================== *)
(** ** Where the entries of a journal come from *)
(* ===================================================================== *)

Section Provenance.
Context {F : Type} `{PyFloat F}.
Implicit Types (task : Task.t F) (project : Project.t F).
Implicit Types (team : list (TeamMember.t F)) (m : TeamMember.t F).

Lemma roster_inv_init team : roster_inv team (zero_counters team) [].
Proof.
  split; [|constructor]. intros n. by rewrite get0_zero_counters.
Qed.

Lemma roster_inv_assign team ew j line project task m s :
  roster_inv team ew j → m ∈ team → get0 ew (TeamMember.name m) ≤ s →
  (line = Overallocated →
   ∀ m', m' ∈ team → TeamMember.total_bandwidth_percent m' < bandwidth_needed) →
  roster_inv team (<[TeamMember.name m := s + duration_weeks task]> ew)
             (j ++ [(line, new_allocation project task m s)]).
Proof.
  intros [Hcur Hent] Hm Hs Hover.
  pose proof (duration_weeks_pos task) as Hd. pose proof (Hcur (TeamMember.name m)).
  split.
  - intros n. destruct (decide (TeamMember.name m = n)) as [<-|Hne].
    + rewrite get0_insert. lia.
    + by rewrite get0_insert_ne.
  - apply Forall_app. split; [done|]. constructor; [|constructor].
    split; simpl; [done|lia|done].
Qed.

Lemma pma_roster_step team project (st : PMA.state F) task :
  pma_inv st →
  roster_inv team (PMA.member_earliest_week st) (PMA.journal st) →
  roster_inv team (PMA.member_earliest_week (PMA.allocate_task team project st task))
             (PMA.journal (PMA.allocate_task team project st task)).
Proof.
  intros Hinv Hros.
  destruct (pma_step_fallback team project st task Hinv)
    as [[_ ->]|(line & m & Hm & -> & _ & Hover)]; [done|].
  unfold PMA.assign; simpl. by apply roster_inv_assign.
Qed.

Lemma pma_reachable_inv team (st : PMA.state F) :
  pma_reachable team st →
  pma_inv st ∧ roster_inv team (PMA.member_earliest_week st) (PMA.journal st).
Proof.
  induction 1 as [|project st task _ [Hinv Hros]].
  - split; [apply tracker_inv_init|apply roster_inv_init].
  - split; [by apply pma_inv_step|by apply pma_roster_step].
Qed.

Lemma pma_final_reachable team projects uuid :
  pma_reachable team (PMA.final_state team projects uuid).
Proof.
  unfold PMA.final_state. apply pma_run_ind.
  - intros. by apply reach_step.
  - apply reach_initial.
Qed.

(** Induction over a run that remembers which project a task belongs to. *)
Lemma pma_run_ind_from (P : PMA.state F → Prop) team uuid projects :
  (∀ project fresh st task,
     project ∈ projects → task ∈ PMA._create_portfolio_tasks uuid fresh project →
     P st → P (PMA.allocate_task team project st task)) →
  ∀ fresh st, P st → P (PMA.allocate_projects team uuid fresh projects st).
Proof.
  intros Hstep.
  cut (∀ rest, rest ⊆ projects →
         ∀ fresh st, P st → P (PMA.allocate_projects team uuid fresh rest st)).
  { intros Hgen. by apply Hgen. }
  induction rest as [|project rest IH]; intros Hsub fresh st Hst; [done|].
  cbn [PMA.allocate_projects]. apply IH; [set_solver|].
  assert (Hproject : project ∈ projects) by set_solver.
  cut (∀ tasks, tasks ⊆ PMA._create_portfolio_tasks uuid fresh project →
         ∀ st, P st → P (foldl (PMA.allocate_task team project) st tasks)).
  { intros Hgen. by apply Hgen. }
  clear st Hst. induction tasks as [|task tasks IHt]; intros Htasks st Hst; [done|].
  cbn [foldl]. apply IHt; [set_solver|]. apply (Hstep project fresh); [done|set_solver|done].
Qed.

Lemma pma_journal_projects team projects uuid :
  Forall (λ e, ResourceAllocation.project e.2 ∈ projects ∧
               ∃ fresh, ResourceAllocation.task e.2
                        ∈ PMA._create_portfolio_tasks uuid fresh
                            (ResourceAllocation.project e.2))
         (PMA.journal (PMA.final_state team projects uuid)).
Proof.
  unfold PMA.final_state.
  apply (pma_run_ind_from
           (λ st, Forall (λ e, ResourceAllocation.project e.2 ∈ projects ∧
                               ∃ fresh, ResourceAllocation.task e.2
                                        ∈ PMA._create_portfolio_tasks uuid fresh
                                            (ResourceAllocation.project e.2))
                         (PMA.journal st))); [|constructor].
  intros project fresh st task Hproject Htask Hst.
  destruct (pma_allocate_task_cases team project st task)
    as [[_ ->]|(line & m & _ & -> & _)]; [done|].
  unfold PMA.assign; simpl. apply Forall_app. split; [done|].
  constructor; [|constructor]. simpl. split.
  - by apply (elem_of_Permutation_proper _ _ _ (stable_sort_perm _ projects)) in Hproject.
  - by exists fresh.
Qed.

(** Induction over a deep-dive run: what the phase loop does to the local
    variables before and after the tasks of a phase, and each iteration of
    the task loop. *)
Lemma dda_run_ind (P : DDA.state F → Prop) team project tasks :
  (∀ g st task, task ∈ tasks → P st → P (DDA.allocate_task team project g st task)) →
  (∀ g st, P st →
     P (DDA.mk_state (DDA.bandwidth_tracker st)
          (DDA.raise_cursors team g (DDA.member_earliest_week st))
          (DDA.phase_end_weeks st) g (DDA.journal st))) →
  (∀ phase st, P st →
     P (DDA.mk_state (DDA.bandwidth_tracker st) (DDA.member_earliest_week st)
          (<[phase := DDA.phase_max_end_week st]> (DDA.phase_end_weeks st))
          (DDA.phase_max_end_week st) (DDA.journal st))) →
  P (DDA.initial_state team) → P (DDA.final_state project team tasks).
Proof.
  intros Hstep Henter Hexit Hinit. unfold DDA.final_state.
  generalize 0%nat as idx, (DDA.initial_state team) as st, Hinit.
  generalize (DDA.phase_order) as remaining.
  induction remaining as [|phase remaining IH]; intros idx st Hst; [done|].
  cbn [DDA.process_phases]. apply IH. unfold DDA.process_phase.
  destruct (DDA.tasks_by_phase tasks phase) as [|task0 phase_tasks] eqn:Hphase; [done|].
  apply Hexit.
  assert (Hsub : task0 :: phase_tasks ⊆ tasks).
  { rewrite <- Hphase. unfold DDA.tasks_by_phase. intros t Ht.
    by apply list_elem_of_filter in Ht as [_ ?]. }
  generalize (Henter (DDA.phase_start_week_of st idx) st Hst).
  generalize (DDA.mk_state (DDA.bandwidth_tracker st)
          (DDA.raise_cursors team (DDA.phase_start_week_of st idx)
             (DDA.member_earliest_week st))
          (DDA.phase_end_weeks st) (DDA.phase_start_week_of st idx) (DDA.journal st)) as st1.
  generalize (DDA.phase_start_week_of st idx) as g.
  revert Hsub. generalize (task0 :: phase_tasks) as ts. clear Hphase IH.
  induction ts as [|task ts IHt]; intros Hsub g st1 Hst1; [done|].
  cbn [foldl]. apply IHt; [set_solver|]. apply Hstep; [set_solver|done].
Qed.

Lemma raise_cursors_get0 team g (ew : gmap string Z) n :
  get0 (DDA.raise_cursors team g ew) n = get0 ew n ∨
  (get0 ew n < g ∧ get0 (DDA.raise_cursors team g ew) n = g).
Proof.
  unfold DDA.raise_cursors. revert ew.
  induction team as [|m team IH]; intros ew; [by left|]. cbn [foldl].
  destruct (get0 ew (TeamMember.name m) <? g) eqn:Hlt.
  - apply Z.ltb_lt in Hlt. destruct (decide (TeamMember.name m = n)) as [<-|Hne].
    + destruct (IH (<[TeamMember.name m := g]> ew)) as [Heq|[Hlt' Heq]].
      * right. rewrite Heq, get0_insert. done.
      * rewrite get0_insert in Hlt'. lia.
    + destruct (IH (<[TeamMember.name m := g]> ew)) as [Heq|[Hlt' Heq]].
      * left. by rewrite Heq, get0_insert_ne.
      * right. by rewrite get0_insert_ne in Hlt'.
  - apply IH.
Qed.

Lemma dda_final_reachable project team tasks :
  dda_reachable team (DDA.final_state project team tasks).
Proof.
  apply dda_run_ind.
  - intros. by apply dda_reach_step.
  - intros. by apply dda_reach_enter.
  - intros. by apply dda_reach_leave.
  - apply dda_reach_initial.
Qed.

Lemma dda_reachable_inv team (st : DDA.state F) :
  dda_reachable team st →
  dda_inv st ∧ roster_inv team (DDA.member_earliest_week st) (DDA.journal st).
Proof.
  induction 1 as [|g st _ [Hinv [Hcur Hent]]|project g st task _ [Hinv Hros]|phase st _ IH].
  - split; [apply tracker_inv_init|apply roster_inv_init].
  - split; simpl.
    + eapply tracker_inv_raise; [done|]. intros n. apply raise_cursors_le.
    + split; [|done]. intros n. specialize (Hcur n).
      destruct (raise_cursors_get0 team g (DDA.member_earliest_week st) n)
        as [->|[? ->]]; lia.
  - split; [by apply dda_inv_step|].
    destruct (dda_step_fallback team project g st task Hinv)
      as [[_ ->]|(line & m & Hm & -> & _ & Hover)]; [done|].
    unfold DDA.assign; simpl.
    apply roster_inv_assign; [done|done| |done]. unfold DDA.start_week_of. lia.
  - done.
Qed.

Lemma dda_journal_tasks project team tasks :
  Forall (λ e, ResourceAllocation.project e.2 = project ∧
               ResourceAllocation.task e.2 ∈ tasks)
         (DDA.journal (DDA.final_state project team tasks)).
Proof.
  apply (dda_run_ind
           (λ st, Forall (λ e, ResourceAllocation.project e.2 = project ∧
                               ResourceAllocation.task e.2 ∈ tasks) (DDA.journal st)));
    [|done|done|constructor].
  intros g st task Htask Hfrom.
  destruct (dda_allocate_task_cases team project g st task)
    as [[_ ->]|(line & m & _ & -> & _)]; [done|].
  unfold DDA.assign; simpl. apply Forall_app. split; [done|]. by repeat constructor.
Qed.
End Provenance.

(* ===================================================================== *)
(** ** Further properties of every run *)
(* ===================================================================== *)

Section RunProperties.
Context {F : Type} `{PyFloat F}.
Implicit Types (task : Task.t F) (project : Project.t F).
Implicit Types (team : list (TeamMember.t F)) (m : TeamMember.t F).
Implicit Types (a b : ResourceAllocation.t F) (line : console_line).

Lemma sequential_apart (j : list (console_line * ResourceAllocation.t F)) i k a b w :
  sequential j → j.*2 !! i = Some a → j.*2 !! k = Some b → i ≠ k →
  member_name a = member_name b → ¬ (covers a w ∧ covers b w).
Proof.
  intros Hseq Ha Hb Hik Hname [Hca Hcb]. unfold covers in *.
  rewrite list_lookup_fmap in Ha, Hb.
  destruct (j !! i) as [e1|] eqn:He1; [|done].
  destruct (j !! k) as [e2|] eqn:He2; [|done]. simplify_eq/=.
  destruct (decide (i < k)%nat).
  - pose proof (Hseq i k e1 e2 He1 He2 ltac:(lia) Hname). lia.
  - pose proof (Hseq k i e2 e1 He2 He1 ltac:(lia) (eq_sym Hname)). lia.
Qed.

(** X1. Two allocations of one run that name the same member never cover the
    same week. *)
Theorem member_never_double_booked
    team projects uuid project team' tasks allocations i k a b w :
  allocations = PMA.allocate_resources team projects uuid ∨
  allocations = DDA.allocate_tasks project team' tasks →
  allocations !! i = Some a → allocations !! k = Some b → i ≠ k →
  TeamMember.name (ResourceAllocation.team_member a)
  = TeamMember.name (ResourceAllocation.team_member b) →
  ¬ (covers a w ∧ covers b w).
Proof.
  intros [->| ->]; unfold PMA.allocate_resources, DDA.allocate_tasks.
  - apply sequential_apart. apply (inv_sequential _ _ _ (pma_inv_final team projects uuid)).
  - apply sequential_apart.
    apply (inv_sequential _ _ _ (proj1 (dda_final_invariants project team' tasks))).
Qed.

(** X3. The fallback branch is taken exactly when no member of the roster has
    a capacity of 50 or more; a member whose capacity is below 50 is
    assigned a task in no other case. *)
Theorem fallback_only_without_capacity team projects uuid project tasks line a :
  (line, a) ∈ PMA.journal (PMA.final_state team projects uuid) ∨
  (line, a) ∈ DDA.journal (DDA.final_state project team tasks) →
  (line = Overallocated
   ↔ ∀ m, m ∈ team → TeamMember.total_bandwidth_percent m < bandwidth_needed)
  ∧ (TeamMember.total_bandwidth_percent (ResourceAllocation.team_member a)
     < bandwidth_needed
     ↔ ∀ m, m ∈ team → TeamMember.total_bandwidth_percent m < bandwidth_needed).
Proof.
  intros Hin.
  assert (Hfrom : entry_from team (line, a)).
  { destruct Hin as [Hin|Hin].
    - destruct (pma_reachable_inv team _ (pma_final_reachable team projects uuid))
        as [_ [_ Hent]].
      rewrite Forall_forall in Hent. by apply Hent.
    - destruct (dda_reachable_inv team _ (dda_final_reachable project team tasks))
        as [_ [_ Hent]].
      rewrite Forall_forall in Hent. by apply Hent. }
  assert (Hok : entry_ok (line, a)) by by eapply journal_entries_ok.
  destruct Hfrom as [Hros _ Hover]. destruct Hok as [_ _ _ Hfit _]. simpl in *.
  unfold capacity in Hfit. split.
  - split; [done|]. intros Hall. destruct line; [|done].
    specialize (Hfit eq_refl). specialize (Hall _ Hros). lia.
  - split; [|by intros Hall; apply Hall].
    intros Hlow. apply Hover. destruct line; [|done]. specialize (Hfit eq_refl). lia.
Qed.

(** X4. Every allocation refers to the inputs of its run. *)
Theorem allocation_refers_to_inputs team projects uuid project tasks :
  (∀ a, a ∈ PMA.allocate_resources team projects uuid →
        ResourceAllocation.team_member a ∈ team
        ∧ ResourceAllocation.project a ∈ projects
        ∧ (∃ fresh, ResourceAllocation.task a
                    ∈ PMA._create_portfolio_tasks uuid fresh (ResourceAllocation.project a))
        ∧ 0 ≤ ResourceAllocation.start_week a < ResourceAllocation.end_week a)
  ∧ (∀ a, a ∈ DDA.allocate_tasks project team tasks →
          ResourceAllocation.team_member a ∈ team
          ∧ ResourceAllocation.project a = project
          ∧ ResourceAllocation.task a ∈ tasks
          ∧ 0 ≤ ResourceAllocation.start_week a < ResourceAllocation.end_week a).
Proof.
  split.
  - intros a [[line a'] [-> Hin]]%list_elem_of_fmap. simpl.
    destruct (pma_reachable_inv team _ (pma_final_reachable team projects uuid))
      as [[_ Hok _ _] [_ Hent]].
    pose proof (pma_journal_projects team projects uuid) as Hprj.
    rewrite Forall_forall in Hok, Hent, Hprj.
    destruct (Hok _ Hin) as [Hend _ _ _ _]. destruct (Hent _ Hin) as [Hros Hs _].
    destruct (Hprj _ Hin) as [Hp Ht]. simpl in *.
    pose proof (duration_weeks_pos (ResourceAllocation.task a')).
    repeat split; [done|done|done|done|lia].
  - intros a [[line a'] [-> Hin]]%list_elem_of_fmap. simpl.
    destruct (dda_reachable_inv team _ (dda_final_reachable project team tasks))
      as [[_ Hok _ _] [_ Hent]].
    pose proof (dda_journal_tasks project team tasks) as Hprj.
    rewrite Forall_forall in Hok, Hent, Hprj.
    destruct (Hok _ Hin) as [Hend _ _ _ _]. destruct (Hent _ Hin) as [Hros Hs _].
    destruct (Hprj _ Hin) as [Hp Ht]. simpl in *.
    pose proof (duration_weeks_pos (ResourceAllocation.task a')).
    repeat split; [done|done|done|done|lia].
Qed.
End RunProperties.

Section OneTaskAtATime.
Context {F : Type} `{PyFloat F} `{!EqDecision F}.

Lemma committed_one (j : list (console_line * ResourceAllocation.t F)) m w :
  Forall entry_ok j → sequential j →
  committed j.*2 m w = 0 ∨ committed j.*2 m w = bandwidth_needed.
Proof.
  induction j as [|e j IH]; intros Hok Hseq; [by left|].
  apply Forall_cons in Hok as [He Hok].
  apply sequential_cons in Hseq as [Hseq Hlater].
  destruct (decide (booked m w e.2)) as [Hb|Hb].
  - right. unfold committed. cbn [fmap list_fmap]. rewrite filter_cons_True by done.
    cbn [foldr]. fold (committed j.*2 m w).
    rewrite committed_none.
    + destruct He as [_ _ Hbw _ _]. rewrite Hbw. lia.
    + intros e2 He2 [Hm2 Hcov2]. destruct Hb as [Hm Hcov].
      assert (member_name e.2 = member_name e2.2) as Hname.
      { unfold member_name. by rewrite Hm, Hm2. }
      specialize (Hlater e2 He2 Hname). unfold covers in *. lia.
  - unfold committed. cbn [fmap list_fmap]. rewrite filter_cons_False by done.
    by apply IH.
Qed.

(** X2. Whatever the capacity of a member, the allocations of a run commit
    either nothing or the bandwidth of exactly one task in any week. *)
Theorem one_task_per_member_and_week
    (team : list (TeamMember.t F)) projects uuid project team' tasks
    (m : TeamMember.t F) (w : Z) :
  committed (PMA.allocate_resources team projects uuid) m w ∈ [0; 50]
  ∧ committed (DDA.allocate_tasks project team' tasks) m w ∈ [0; 50].
Proof.
  split.
  - destruct (pma_inv_final team projects uuid) as [_ Hok _ Hseq].
    destruct (committed_one _ m w Hok Hseq) as [Hc|Hc];
      unfold PMA.allocate_resources; rewrite Hc; set_solver.
  - destruct (dda_final_invariants project team' tasks) as [[_ Hok _ Hseq] _].
    destruct (committed_one _ m w Hok Hseq) as [Hc|Hc];
      unfold DDA.allocate_tasks; rewrite Hc; set_solver.
Qed.
End OneTaskAtATime.

(* ===================================================================== *)
(** ** The calendar of a member in the portfolio run *)
(* ===================================================================== *)

Section Ledgers.
Implicit Types (ledger : gmap Z Z).

Lemma book_list_total (weeks : list Z) ledger :
  NoDup weeks → (∀ w, w ∈ weeks → ledger !! w = None) →
  map_fold (λ _ used acc, used + acc) 0
    (foldl (λ acc week, <[week := get0 acc week + bandwidth_needed]> acc) ledger weeks)
  = bandwidth_needed * Z.of_nat (length weeks)
    + map_fold (λ _ used acc, used + acc) 0 ledger
  ∧ ∀ w, w ∉ weeks →
      foldl (λ acc week, <[week := get0 acc week + bandwidth_needed]> acc) ledger weeks !! w
      = ledger !! w.
Proof.
  intros Hnd. revert ledger.
  induction Hnd as [|w0 weeks Hw0 Hnd IH]; intros ledger Hfree.
  - simpl. split; [lia|done].
  - cbn [foldl].
    assert (Hnone : ledger !! w0 = None) by (apply Hfree; by left).
    destruct (IH (<[w0 := get0 ledger w0 + bandwidth_needed]> ledger)) as [Htotal Hrest].
    { intros w Hw. rewrite lookup_insert_ne by (intros ->; done).
      apply Hfree. by right. }
    split.
    + rewrite Htotal. rewrite map_fold_insert_L; [|intros; lia|done].
      unfold get0. rewrite Hnone. simpl length. simpl default.
      unfold bandwidth_needed. lia.
    + intros w Hw. apply not_elem_of_cons in Hw as [Hne Hw].
      rewrite Hrest by done. by rewrite lookup_insert_ne.
Qed.

Lemma book_weeks_total ledger s d :
  0 ≤ d → (∀ w, s ≤ w → ledger !! w = None) →
  map_fold (λ _ used acc, used + acc) 0 (book_weeks ledger s d)
  = bandwidth_needed * d + map_fold (λ _ used acc, used + acc) 0 ledger
  ∧ ∀ w, s + d ≤ w → book_weeks ledger s d !! w = None.
Proof.
  intros Hd Hfree. unfold book_weeks.
  destruct (book_list_total (seqZ s d) ledger) as [Htotal Hrest].
  { apply NoDup_seqZ. }
  { intros w Hw%elem_of_seqZ. apply Hfree. lia. }
  split.
  - rewrite Htotal, length_seqZ. unfold bandwidth_needed. lia.
  - intros w Hw. rewrite Hrest; [apply Hfree; lia|].
    rewrite elem_of_seqZ. lia.
Qed.
End Ledgers.

Section Calendar.
Context {F : Type} `{PyFloat F}.
Implicit Types (task : Task.t F) (project : Project.t F).
Implicit Types (team : list (TeamMember.t F)) (m : TeamMember.t F).
Implicit Types (l : list (ResourceAllocation.t F)) (a : ResourceAllocation.t F).

Lemma busy_until_snoc l a n :
  busy_until (l ++ [a]) n
  = if decide (member_name a = n) then ResourceAllocation.end_week a else busy_until l n.
Proof. unfold busy_until. by rewrite foldl_app. Qed.

Lemma assigned_weeks_snoc l a n :
  assigned_weeks (l ++ [a]) n
  = assigned_weeks l n
    + if decide (member_name a = n)
      then ResourceAllocation.end_week a - ResourceAllocation.start_week a else 0.
Proof.
  unfold assigned_weeks. induction l as [|b l IH]; simpl.
  - destruct (decide _); lia.
  - rewrite IH. repeat destruct (decide _); lia.
Qed.

Lemma member_name_new_allocation project task m s :
  member_name (new_allocation project task m s) = TeamMember.name m.
Proof. done. Qed.

Lemma calendar_inv_init team : calendar_inv (PMA.initial_state team).
Proof.
  split; simpl.
  - intros n. by rewrite get0_zero_counters.
  - done.
  - intros k a Hk. by rewrite lookup_nil in Hk.
Qed.

Lemma calendar_inv_assign line project task m (st : PMA.state F) :
  calendar_inv st → calendar_inv (PMA.assign line project task m st).
Proof.
  intros [Hcur Hfill Hstart].
  pose proof (duration_weeks_pos task) as Hd.
  unfold PMA.assign.
  split; cbn [PMA.journal PMA.member_earliest_week PMA.bandwidth_tracker].
  - intros n. rewrite fmap_app. cbn [fmap list_fmap snd].
    rewrite busy_until_snoc, member_name_new_allocation. simpl.
    destruct (decide (TeamMember.name m = n)) as [<-|Hne].
    + by rewrite get0_insert.
    + by rewrite get0_insert_ne.
  - intros n. rewrite fmap_app. cbn [fmap list_fmap snd].
    rewrite busy_until_snoc, assigned_weeks_snoc, member_name_new_allocation. simpl.
    destruct (decide (TeamMember.name m = n)) as [<-|Hne].
    + rewrite <- Hfill, <- Hcur. lia.
    + rewrite Hfill. lia.
  - intros k a. rewrite fmap_app. cbn [fmap list_fmap snd]. intros Hk.
    destruct (decide (k < length (PMA.journal st).*2)%nat) as [Hlt|Hge].
    + rewrite lookup_app_l in Hk by done. rewrite take_app_le by lia. by apply Hstart.
    + assert (k = length (PMA.journal st).*2) as ->.
      { apply lookup_lt_Some in Hk. rewrite length_app in Hk. simpl in Hk. lia. }
      rewrite lookup_app_r, Nat.sub_diag in Hk by lia. simplify_eq/=.
      rewrite take_app_length. unfold member_name. simpl. apply Hcur.
Qed.

Lemma calendar_inv_reachable team (st : PMA.state F) :
  pma_reachable team st → calendar_inv st.
Proof.
  induction 1 as [|project st task Hreach IH]; [apply calendar_inv_init|].
  destruct (pma_allocate_task_cases team project st task)
    as [[_ ->]|(line & m & _ & -> & _)]; [done|].
  by apply calendar_inv_assign.
Qed.

Lemma ledger_inv_init team :
  ledger_inv (F:=F) (empty_ledgers team) (zero_counters team) [].
Proof.
  split.
  - intros n w _. by rewrite ledger_of_empty_ledgers.
  - intros n. by rewrite ledger_of_empty_ledgers.
Qed.

Lemma ledger_inv_raise bt ew ew' (j : list (console_line * ResourceAllocation.t F)) :
  ledger_inv bt ew j → (∀ n, get0 ew n ≤ get0 ew' n) → ledger_inv bt ew' j.
Proof.
  intros [Hbeyond Htotal] Hle. split; [|done].
  intros n w Hw. apply Hbeyond. specialize (Hle n). lia.
Qed.

Lemma ledger_inv_assign bt ew j line project task m s :
  ledger_inv bt ew j → get0 ew (TeamMember.name m) ≤ s →
  ledger_inv (book bt m s (duration_weeks task))
             (<[TeamMember.name m := s + duration_weeks task]> ew)
             (j ++ [(line, new_allocation project task m s)]).
Proof.
  intros [Hbeyond Htotal] Hs.
  pose proof (duration_weeks_pos task) as Hd.
  destruct (book_weeks_total (ledger_of bt (TeamMember.name m)) s (duration_weeks task))
    as [Hsum Hnone]; [lia|intros w Hw; apply Hbeyond; lia|].
  split.
  - intros n w. rewrite ledger_of_book.
    destruct (decide (TeamMember.name m = n)) as [<-|Hne].
    + rewrite get0_insert. apply Hnone.
    + rewrite get0_insert_ne by done. apply Hbeyond.
  - intros n. rewrite ledger_of_book, fmap_app. cbn [fmap list_fmap snd].
    rewrite assigned_weeks_snoc, member_name_new_allocation. simpl.
    destruct (decide (TeamMember.name m = n)) as [<-|Hne].
    + rewrite Hsum, Htotal. unfold bandwidth_needed. lia.
    + rewrite Htotal. lia.
Qed.

Lemma pma_ledger_reachable team (st : PMA.state F) :
  pma_reachable team st →
  ledger_inv (PMA.bandwidth_tracker st) (PMA.member_earliest_week st) (PMA.journal st).
Proof.
  induction 1 as [|project st task Hreach IH]; [apply ledger_inv_init|].
  destruct (pma_allocate_task_cases team project st task)
    as [[_ ->]|(line & m & _ & -> & _)]; [done|].
  unfold PMA.assign; simpl. by apply ledger_inv_assign.
Qed.

Lemma dda_ledger_reachable team (st : DDA.state F) :
  dda_reachable team st →
  ledger_inv (DDA.bandwidth_tracker st) (DDA.member_earliest_week st) (DDA.journal st).
Proof.
  induction 1 as [|g st _ IH|project g st task _ IH|phase st _ IH].
  - apply ledger_inv_init.
  - simpl. eapply ledger_inv_raise; [done|]. intros n. apply raise_cursors_le.
  - destruct (dda_allocate_task_cases team project g st task)
      as [[_ ->]|(line & m & _ & -> & _)]; [done|].
    unfold DDA.assign; simpl. apply ledger_inv_assign; [done|].
    unfold DDA.start_week_of. lia.
  - done.
Qed.

Lemma assigned_weeks_nonneg (j : list (console_line * ResourceAllocation.t F)) n :
  Forall entry_ok j → 0 ≤ assigned_weeks j.*2 n.
Proof.
  induction 1 as [|e j [Hend _ _ _ _] _ IH]; [done|].
  cbn [fmap list_fmap assigned_weeks foldr]. fold (assigned_weeks j.*2 n).
  pose proof (duration_weeks_pos (ResourceAllocation.task e.2)).
  destruct (decide _); lia.
Qed.

(** X8. In the portfolio run a member works without a gap: an allocation
    starts in the week in which the previous allocation of the same member
    ended, the first one in week 0, and it ends after as many weeks as the
    member has been assigned so far. *)
Theorem portfolio_member_works_without_gaps team projects uuid k a :
  PMA.allocate_resources team projects uuid !! k = Some a →
  ResourceAllocation.start_week a
  = busy_until (take k (PMA.allocate_resources team projects uuid)) (member_name a)
  ∧ ResourceAllocation.end_week a
    = assigned_weeks (take (S k) (PMA.allocate_resources team projects uuid)) (member_name a).
Proof.
  intros Hk.
  destruct (calendar_inv_reachable team _ (pma_final_reachable team projects uuid))
    as [_ _ Hstart].
  fold (PMA.allocate_resources team projects uuid) in Hstart.
  revert Hk Hstart. generalize (PMA.allocate_resources team projects uuid) as l.
  intros l Hk Hstart.
  (* every prefix of the list is filled without a gap *)
  assert (Hfilled : ∀ i n, busy_until (take i l) n = assigned_weeks (take i l) n).
  { induction i as [|i IH]; intros n; [by rewrite take_0|].
    destruct (l !! i) as [b|] eqn:Hb.
    - rewrite (take_S_r _ _ _ Hb), busy_until_snoc, assigned_weeks_snoc.
      destruct (decide (member_name b = n)) as [<-|Hne].
      + rewrite <- IH, <- (Hstart i b Hb). lia.
      + rewrite IH. lia.
    - apply lookup_ge_None in Hb. rewrite !take_ge in * by lia. apply IH. }
  split; [by apply Hstart|].
  rewrite (take_S_r _ _ _ Hk), assigned_weeks_snoc, decide_True by done.
  rewrite <- Hfilled, <- (Hstart k a Hk). lia.
Qed.
End Calendar.

(* ===================================================================== *)
(** ** The choice of a member by score *)
(* ===================================================================== *)

Section ChoiceByScore.
Context {F : Type} `{PyFloat F}.

Lemma ordered_scores_refl (l : list F) x :
  ordered_scores l → x ∈ l → flt x x = false.
Proof.
  intros [Hasym _] Hx. destruct (flt x x) eqn:Hxx; [|done].
  by rewrite (Hasym x x Hx Hx Hxx) in Hxx.
Qed.

(** [sort(reverse=True)] leaves no candidate below a later one. *)
Lemma sort_reverse_ordered {A} (key : A → F) (l : list A) :
  ordered_scores (key <$> l) →
  StronglySorted (λ c d, flt (key c) (key d) = false) (sort_reverse key l).
Proof.
  intros [Hasym Htrans]. unfold sort_reverse.
  apply (stable_sort_sorted_on _ _ (λ x, x ∈ l)).
  - intros x y Hx Hy. apply Hasym; by apply list_elem_of_fmap_2.
  - done.
  - intros x y z Hx Hy Hz. apply Htrans; by apply list_elem_of_fmap_2.
  - by apply Forall_forall.
Qed.

Lemma StronglySorted_suffix {A} (R : relation A) (l1 l2 : list A) :
  StronglySorted R (l1 ++ l2) → StronglySorted R l2.
Proof.
  induction l1 as [|x l1 IH]; [done|]. simpl.
  intros [Hsorted _]%StronglySorted_inv. by apply IH.
Qed.

(** The first candidate of a ranking that passes a test is not below any
    candidate that passes it. *)
Lemma first_is_best {A} (R : relation A) (f : A → bool) (l1 l2 : list A) (c d : A) :
  R c c →
  StronglySorted R (l1 ++ c :: l2) →
  Forall (λ x, f x = false) l1 → d ∈ l1 ++ c :: l2 → f d = true →
  R c d.
Proof.
  intros Hrefl Hsorted Hl1 Hd Hfd.
  apply StronglySorted_suffix, StronglySorted_inv in Hsorted as [_ Hl2].
  apply elem_of_app in Hd as [Hd|Hd].
  - rewrite Forall_forall in Hl1. specialize (Hl1 _ Hd). congruence.
  - apply elem_of_cons in Hd as [->|Hd]; [done|].
    rewrite Forall_forall in Hl2. by apply Hl2.
Qed.

Lemma head_is_best {A} (R : relation A) (l2 : list A) (c d : A) :
  R c c → StronglySorted R (c :: l2) → d ∈ c :: l2 → R c d.
Proof.
  intros Hrefl Hsorted Hd. apply (first_is_best R (λ _, true) [] l2 c d); done.
Qed.

Lemma pma_best_scored team project (st : PMA.state F) task :
  pma_reachable team st → team ≠ [] →
  ordered_scores ((λ m, PMA.combined_score (PMA.score_member st task m)) <$> team) →
  ∃ line m,
    m ∈ team
    ∧ PMA.allocate_task team project st task = PMA.assign line project task m st
    ∧ (line = Assigned →
       50 ≤ TeamMember.total_bandwidth_percent m
       ∧ ∀ m', m' ∈ team → 50 ≤ TeamMember.total_bandwidth_percent m' →
               flt (PMA.combined_score (PMA.score_member st task m))
                   (PMA.combined_score (PMA.score_member st task m')) = false)
    ∧ (line = Overallocated →
       (∀ m', m' ∈ team → TeamMember.total_bandwidth_percent m' < 50)
       ∧ ∀ m', m' ∈ team →
               flt (PMA.combined_score (PMA.score_member st task m))
                   (PMA.combined_score (PMA.score_member st task m')) = false).
Proof.
  intros Hreach Hteam Hord.
  destruct (pma_reachable_inv team st Hreach) as [Hinv _].
  destruct (pma_allocate_task_choice team project st task)
    as [[? _]|(line & c & l1 & l2 & Hl & Hstep & Hl1 & Hc & Hover)]; [done|].
  assert (Hsorted : StronglySorted
            (λ c d, flt (PMA.combined_score c) (PMA.combined_score d) = false)
            (PMA.member_candidates team st task)).
  { unfold PMA.member_candidates. apply sort_reverse_ordered.
    rewrite <- list_fmap_compose. exact Hord. }
  rewrite Hl in Hsorted.
  assert (Hin : c ∈ PMA.member_candidates team st task) by (rewrite Hl; set_solver).
  apply pma_candidates_elem in Hin as (m & Hm & ->).
  assert (Hall : ∀ m', m' ∈ team →
                   PMA.score_member st task m' ∈ l1 ++ PMA.score_member st task m :: l2).
  { intros m' Hm'. rewrite <- Hl. apply pma_candidates_elem. by exists m'. }
  assert (Hrefl : flt (PMA.combined_score (PMA.score_member st task m))
                      (PMA.combined_score (PMA.score_member st task m)) = false).
  { apply (ordered_scores_refl _ _ Hord).
    by apply (list_elem_of_fmap_2 (λ m, PMA.combined_score (PMA.score_member st task m))). }
  exists line, m. split; [done|]. split; [done|]. split.
  - intros ->. split; [by apply (pma_fits_capacity st task m)|].
    intros m' Hm' Hcap. apply (pma_fits_capacity st task m' Hinv) in Hcap.
    by apply (first_is_best (λ c d, flt (PMA.combined_score c) (PMA.combined_score d) = false)
                 (PMA.fits st task) l1 l2 _ (PMA.score_member st task m'));
      [| | |apply Hall|].
  - intros ->. destruct (Hover eq_refl) as [-> Hl2]. cbn [app] in Hl, Hsorted, Hall.
    rewrite bool_decide_eq_false_2 in Hc by done.
    split.
    + intros m' Hm'.
      destruct (decide (50 ≤ TeamMember.total_bandwidth_percent m')) as [Hcap|]; [|lia].
      apply (pma_fits_capacity st task m' Hinv) in Hcap.
      specialize (Hall m' Hm'). apply elem_of_cons in Hall as [Heq|Hin'].
      * rewrite Heq in Hcap. congruence.
      * rewrite Forall_forall in Hl2. specialize (Hl2 _ Hin'). congruence.
    + intros m' Hm'.
      by apply (head_is_best (λ c d, flt (PMA.combined_score c) (PMA.combined_score d) = false)
                 l2 _ (PMA.score_member st task m')); [| |apply Hall].
Qed.

Lemma dda_best_scored team project g (st : DDA.state F) task :
  dda_reachable team st → team ≠ [] →
  ordered_scores ((λ m, DDA.combined_score (DDA.score_member st task m)) <$> team) →
  ∃ line m,
    m ∈ team
    ∧ DDA.allocate_task team project g st task = DDA.assign line project g task m st
    ∧ (line = Assigned →
       50 ≤ TeamMember.total_bandwidth_percent m
       ∧ ∀ m', m' ∈ team → 50 ≤ TeamMember.total_bandwidth_percent m' →
               flt (DDA.combined_score (DDA.score_member st task m))
                   (DDA.combined_score (DDA.score_member st task m')) = false)
    ∧ (line = Overallocated →
       (∀ m', m' ∈ team → TeamMember.total_bandwidth_percent m' < 50)
       ∧ ∀ m', m' ∈ team →
               flt (DDA.combined_score (DDA.score_member st task m))
                   (DDA.combined_score (DDA.score_member st task m')) = false).
Proof.
  intros Hreach Hteam Hord.
  destruct (dda_reachable_inv team st Hreach) as [Hinv _].
  destruct (dda_allocate_task_choice team project g st task)
    as [[? _]|(line & c & l1 & l2 & Hl & Hstep & Hl1 & Hc & Hover)]; [done|].
  assert (Hsorted : StronglySorted
            (λ c d, flt (DDA.combined_score c) (DDA.combined_score d) = false)
            (DDA.member_candidates team st task)).
  { unfold DDA.member_candidates. apply sort_reverse_ordered.
    rewrite <- list_fmap_compose. exact Hord. }
  rewrite Hl in Hsorted.
  assert (Hin : c ∈ DDA.member_candidates team st task) by (rewrite Hl; set_solver).
  apply dda_candidates_elem in Hin as (m & Hm & ->).
  assert (Hall : ∀ m', m' ∈ team →
                   DDA.score_member st task m' ∈ l1 ++ DDA.score_member st task m :: l2).
  { intros m' Hm'. rewrite <- Hl. apply dda_candidates_elem. by exists m'. }
  assert (Hrefl : flt (DDA.combined_score (DDA.score_member st task m))
                      (DDA.combined_score (DDA.score_member st task m)) = false).
  { apply (ordered_scores_refl _ _ Hord).
    by apply (list_elem_of_fmap_2 (λ m, DDA.combined_score (DDA.score_member st task m))). }
  exists line, m. split; [done|]. split; [done|]. split.
  - intros ->. split; [by apply (dda_fits_capacity g st task m)|].
    intros m' Hm' Hcap. apply (dda_fits_capacity g st task m' Hinv) in Hcap.
    by apply (first_is_best (λ c d, flt (DDA.combined_score c) (DDA.combined_score d) = false)
                 (DDA.fits g st task) l1 l2 _ (DDA.score_member st task m'));
      [| | |apply Hall|].
  - intros ->. destruct (Hover eq_refl) as [-> Hl2]. cbn [app] in Hl, Hsorted, Hall.
    rewrite bool_decide_eq_false_2 in Hc by done.
    split.
    + intros m' Hm'.
      destruct (decide (50 ≤ TeamMember.total_bandwidth_percent m')) as [Hcap|]; [|lia].
      apply (dda_fits_capacity g st task m' Hinv) in Hcap.
      specialize (Hall m' Hm'). apply elem_of_cons in Hall as [Heq|Hin'].
      * rewrite Heq in Hcap. congruence.
      * rewrite Forall_forall in Hl2. specialize (Hl2 _ Hin'). congruence.
    + intros m' Hm'.
      by apply (head_is_best (λ c d, flt (DDA.combined_score c) (DDA.combined_score d) = false)
                 l2 _ (DDA.score_member st task m')); [| |apply Hall].
Qed.
End ChoiceByScore.

(** Exact scores are ordered. *)
Lemma exact_not_below (x y : Q) : flt x y = false ↔ (y <= x)%Q.
Proof.
  simpl. unfold Qlt_bool. by rewrite negb_false_iff, Qle_bool_iff.
Qed.

Lemma exact_ordered (l : list Q) : ordered_scores l.
Proof.
  split.
  - intros x y _ _ Hxy. apply exact_not_below.
    destruct (flt y x) eqn:Hyx; [|by apply exact_not_below].
    simpl in Hxy, Hyx. unfold Qlt_bool in Hxy, Hyx.
    apply negb_true_iff in Hxy, Hyx.
    destruct (Qlt_le_dec x y) as [Hlt|Hle].
    + apply Qlt_le_weak, Qle_bool_iff in Hlt. congruence.
    + apply Qle_bool_iff in Hle. congruence.
  - intros x y z _ _ _. rewrite !exact_not_below. intros Hyx Hzy. by eapply Qle_trans.
Qed.

(** Binary64 scores without a NaN are ordered as their ranks. *)
Lemma SFcompare_rank (x y : spec_float) :
  x ≠ S754_nan → y ≠ S754_nan →
  ∃ c, SFcompare x y = Some c
       ∧ (c = Lt ↔ rank_lt (float_rank x) (float_rank y))
       ∧ (c = Eq ↔ float_rank x = float_rank y).
Proof.
  intros Hx Hy. unfold rank_lt.
  destruct x as [sx|sx| |sx mx ex], y as [sy|sy| |sy my ey]; try done;
    try (destruct sx); try (destruct sy); simpl;
    try (eexists; split; [reflexivity|]; split; split; try done;
         intros; try lia; congruence).
  - change (Pos.compare_cont Eq mx my) with (Pos.compare mx my).
    eexists; split; [reflexivity|].
    destruct (Z.compare_spec ex ey), (Pos.compare_spec mx my); simpl;
      split; split; try done; intros Hc; try lia; try (simplify_eq; lia);
      try (f_equal; [f_equal|]; lia).
  - change (Pos.compare_cont Eq mx my) with (Pos.compare mx my).
    eexists; split; [reflexivity|].
    destruct (Z.compare_spec ex ey), (Pos.compare_spec mx my); simpl;
      split; split; try done; intros Hc; try lia; try (simplify_eq; lia);
      try (f_equal; [f_equal|]; lia).
Qed.

Lemma not_nan (x : float) : PrimFloat.is_nan x = false → Prim2SF x ≠ S754_nan.
Proof.
  unfold PrimFloat.is_nan. rewrite FloatAxioms.eqb_spec. intros Hx Hnan.
  by rewrite Hnan in Hx.
Qed.

Lemma binary64_below (x y : float) :
  PrimFloat.is_nan x = false → PrimFloat.is_nan y = false →
  flt x y = true ↔ rank_lt (float_rank (Prim2SF x)) (float_rank (Prim2SF y)).
Proof.
  intros Hx%not_nan Hy%not_nan. simpl. rewrite FloatAxioms.ltb_spec. unfold SFltb.
  destruct (SFcompare_rank _ _ Hx Hy) as (c & -> & Hlt & _).
  rewrite <- Hlt. by destruct c.
Qed.

Lemma binary64_not_below (x y : float) :
  PrimFloat.is_nan x = false → PrimFloat.is_nan y = false →
  flt x y = false ↔ PrimFloat.leb y x = true.
Proof.
  intros Hx Hy. rewrite FloatAxioms.leb_spec. unfold SFleb.
  pose proof (binary64_below x y Hx Hy) as Hxy.
  apply not_nan in Hx, Hy.
  destruct (SFcompare_rank _ _ Hy Hx) as (c & -> & Hlt & Heq).
  unfold rank_lt in *. destruct (flt x y).
  - split; [done|]. destruct c; [| |done].
    + destruct Heq as [Heq _]. specialize (Heq eq_refl).
      destruct Hxy as [Hxy _]. specialize (Hxy eq_refl). rewrite Heq in Hxy. lia.
    + destruct Hlt as [Hlt _]. specialize (Hlt eq_refl).
      destruct Hxy as [Hxy _]. specialize (Hxy eq_refl). lia.
  - split; [|done]. intros _. destruct c; [done|done|].
    assert (Hnlt : ¬ rank_lt (float_rank (Prim2SF x)) (float_rank (Prim2SF y))).
    { intros Hr. by apply Hxy in Hr. }
    unfold rank_lt in Hnlt.
    assert (Hne : float_rank (Prim2SF y) ≠ float_rank (Prim2SF x)).
    { intros Hr. by apply Heq in Hr. }
    assert (Hnlt' : ¬ (rank_lt (float_rank (Prim2SF y)) (float_rank (Prim2SF x)))).
    { intros Hr. by apply Hlt in Hr. }
    unfold rank_lt in Hnlt'.
    destruct (float_rank (Prim2SF x)) as [[a1 a2] a3], (float_rank (Prim2SF y)) as [[b1 b2] b3].
    simpl in *. destruct Hne. f_equal; [f_equal|]; lia.
Qed.

Lemma binary64_ordered (l : list float) :
  Forall (λ x, PrimFloat.is_nan x = false) l → ordered_scores l.
Proof.
  rewrite Forall_forall. intros Hl. split.
  - intros x y Hx Hy Hxy. apply (binary64_below x y) in Hxy; [|by apply Hl..].
    destruct (flt y x) eqn:Hyx; [|done].
    apply (binary64_below y x) in Hyx; [|by apply Hl..].
    unfold rank_lt in *. lia.
  - intros x y z Hx Hy Hz Hxy Hyz.
    destruct (flt x z) eqn:Hxz; [|done].
    apply (binary64_below x z) in Hxz; [|by apply Hl..].
    assert (Hnxy : ¬ rank_lt (float_rank (Prim2SF x)) (float_rank (Prim2SF y))).
    { intros Hr. apply (binary64_below x y) in Hr; [congruence|by apply Hl..]. }
    assert (Hnyz : ¬ rank_lt (float_rank (Prim2SF y)) (float_rank (Prim2SF z))).
    { intros Hr. apply (binary64_below y z) in Hr; [congruence|by apply Hl..]. }
    unfold rank_lt in *. lia.
Qed.

(** X7. The workload that enters the score of a member is the bandwidth of
    one task for every week assigned to the member so far; in exact
    arithmetic the workload score of a member with [w] assigned weeks is
    [2 / (2 + w)]. *)
Theorem workload_counts_assigned_weeks :
  (∀ F (arith : PyFloat F) team (st : PMA.state F) (m : TeamMember.t F),
     pma_reachable team st →
     total_workload (PMA.bandwidth_tracker st) m
     = 50 * assigned_weeks (PMA.journal st).*2 (TeamMember.name m))
  ∧ (∀ F (arith : PyFloat F) team (st : DDA.state F) (m : TeamMember.t F),
       dda_reachable team st →
       total_workload (DDA.bandwidth_tracker st) m
       = 50 * assigned_weeks (DDA.journal st).*2 (TeamMember.name m))
  ∧ (∀ (w : Z), 0 ≤ w →
       (workload_score_of (F:=Q) (50 * w) == inject_Z 2 / inject_Z (2 + w))%Q).
Proof.
  split; [|split].
  - intros F arith team st m Hreach.
    destruct (pma_ledger_reachable team st Hreach) as [_ Htotal]. apply Htotal.
  - intros F arith team st m Hreach.
    destruct (dda_ledger_reachable team st Hreach) as [_ Htotal]. apply Htotal.
  - intros w Hw. unfold workload_score_of. simpl.
    assert (Hq : (0 <= inject_Z w)%Q) by (change 0%Q with (inject_Z 0); by rewrite <- Zle_Qle).
    rewrite !inject_Z_plus, inject_Z_mult. field. split; lra.
Qed.

(** X5. A task goes to a member with the highest combined score among the
    members that have the capacity for a task, and, if nobody has the
    capacity, to a member with the highest score of all. In binary64,
    the arithmetic of the program, this holds whenever no score of the
    roster is NaN; in exact arithmetic it holds always. It holds at every
    state the portfolio loop and the deep-dive loops reach. *)
Theorem task_goes_to_best_scored_member :
  (∀ team project (st : PMA.state float) task,
     pma_reachable team st → team ≠ [] →
     (∀ m, m ∈ team →
           PrimFloat.is_nan (PMA.combined_score (PMA.score_member st task m)) = false) →
     ∃ line m,
       m ∈ team
       ∧ PMA.allocate_task team project st task = PMA.assign line project task m st
       ∧ (line = Assigned →
          50 ≤ TeamMember.total_bandwidth_percent m
          ∧ ∀ m', m' ∈ team → 50 ≤ TeamMember.total_bandwidth_percent m' →
                  PrimFloat.leb (PMA.combined_score (PMA.score_member st task m'))
                                (PMA.combined_score (PMA.score_member st task m)) = true)
       ∧ (line = Overallocated →
          (∀ m', m' ∈ team → TeamMember.total_bandwidth_percent m' < 50)
          ∧ ∀ m', m' ∈ team →
                  PrimFloat.leb (PMA.combined_score (PMA.score_member st task m'))
                                (PMA.combined_score (PMA.score_member st task m)) = true))
  ∧ (∀ team project g (st : DDA.state float) task,
     dda_reachable team st → team ≠ [] →
     (∀ m, m ∈ team →
           PrimFloat.is_nan (DDA.combined_score (DDA.score_member st task m)) = false) →
     ∃ line m,
       m ∈ team
       ∧ DDA.allocate_task team project g st task = DDA.assign line project g task m st
       ∧ (line = Assigned →
          50 ≤ TeamMember.total_bandwidth_percent m
          ∧ ∀ m', m' ∈ team → 50 ≤ TeamMember.total_bandwidth_percent m' →
                  PrimFloat.leb (DDA.combined_score (DDA.score_member st task m'))
                                (DDA.combined_score (DDA.score_member st task m)) = true)
       ∧ (line = Overallocated →
          (∀ m', m' ∈ team → TeamMember.total_bandwidth_percent m' < 50)
          ∧ ∀ m', m' ∈ team →
                  PrimFloat.leb (DDA.combined_score (DDA.score_member st task m'))
                                (DDA.combined_score (DDA.score_member st task m)) = true))
  ∧ (∀ team project (st : PMA.state Q) task,
     pma_reachable team st → team ≠ [] →
     ∃ line m,
       m ∈ team
       ∧ PMA.allocate_task team project st task = PMA.assign line project task m st
       ∧ (line = Assigned →
          50 ≤ TeamMember.total_bandwidth_percent m
          ∧ ∀ m', m' ∈ team → 50 ≤ TeamMember.total_bandwidth_percent m' →
                  (PMA.combined_score (PMA.score_member st task m')
                   <= PMA.combined_score (PMA.score_member st task m))%Q)
       ∧ (line = Overallocated →
          (∀ m', m' ∈ team → TeamMember.total_bandwidth_percent m' < 50)
          ∧ ∀ m', m' ∈ team →
                  (PMA.combined_score (PMA.score_member st task m')
                   <= PMA.combined_score (PMA.score_member st task m))%Q))
  ∧ (∀ team project g (st : DDA.state Q) task,
     dda_reachable team st → team ≠ [] →
     ∃ line m,
       m ∈ team
       ∧ DDA.allocate_task team project g st task = DDA.assign line project g task m st
       ∧ (line = Assigned →
          50 ≤ TeamMember.total_bandwidth_percent m
          ∧ ∀ m', m' ∈ team → 50 ≤ TeamMember.total_bandwidth_percent m' →
                  (DDA.combined_score (DDA.score_member st task m')
                   <= DDA.combined_score (DDA.score_member st task m))%Q)
       ∧ (line = Overallocated →
          (∀ m', m' ∈ team → TeamMember.total_bandwidth_percent m' < 50)
          ∧ ∀ m', m' ∈ team →
                  (DDA.combined_score (DDA.score_member st task m')
                   <= DDA.combined_score (DDA.score_member st task m))%Q)).
Proof.
  split; [|split; [|split]].
  - intros team project st task Hreach Hteam Hnan.
    destruct (pma_best_scored team project st task Hreach Hteam)
      as (line & m & Hm & Hstep & Hassigned & Hfallback).
    { apply binary64_ordered, Forall_fmap, Forall_forall. intros m Hm. by apply Hnan. }
    exists line, m. split; [done|]. split; [done|]. split.
    + intros Hline. destruct (Hassigned Hline) as [Hcap Hbest]. split; [done|].
      intros m' Hm' Hcap'. apply binary64_not_below; [by apply Hnan..|]. by apply Hbest.
    + intros Hline. destruct (Hfallback Hline) as [Hcap Hbest]. split; [done|].
      intros m' Hm'. apply binary64_not_below; [by apply Hnan..|]. by apply Hbest.
  - intros team project g st task Hreach Hteam Hnan.
    destruct (dda_best_scored team project g st task Hreach Hteam)
      as (line & m & Hm & Hstep & Hassigned & Hfallback).
    { apply binary64_ordered, Forall_fmap, Forall_forall. intros m Hm. by apply Hnan. }
    exists line, m. split; [done|]. split; [done|]. split.
    + intros Hline. destruct (Hassigned Hline) as [Hcap Hbest]. split; [done|].
      intros m' Hm' Hcap'. apply binary64_not_below; [by apply Hnan..|]. by apply Hbest.
    + intros Hline. destruct (Hfallback Hline) as [Hcap Hbest]. split; [done|].
      intros m' Hm'. apply binary64_not_below; [by apply Hnan..|]. by apply Hbest.
  - intros team project st task Hreach Hteam.
    destruct (pma_best_scored team project st task Hreach Hteam (exact_ordered _))
      as (line & m & Hm & Hstep & Hassigned & Hfallback).
    exists line, m. split; [done|]. split; [done|]. split.
    + intros Hline. destruct (Hassigned Hline) as [Hcap Hbest]. split; [done|].
      intros m' Hm' Hcap'. apply exact_not_below. by apply Hbest.
    + intros Hline. destruct (Hfallback Hline) as [Hcap Hbest]. split; [done|].
      intros m' Hm'. apply exact_not_below. by apply Hbest.
  - intros team project g st task Hreach Hteam.
    destruct (dda_best_scored team project g st task Hreach Hteam (exact_ordered _))
      as (line & m & Hm & Hstep & Hassigned & Hfallback).
    exists line, m. split; [done|]. split; [done|]. split.
    + intros Hline. destruct (Hassigned Hline) as [Hcap Hbest]. split; [done|].
      intros m' Hm' Hcap'. apply exact_not_below. by apply Hbest.
    + intros Hline. destruct (Hfallback Hline) as [Hcap Hbest]. split; [done|].
      intros m' Hm'. apply exact_not_below. by apply Hbest.
Qed.

(* ===================================================================== *)
(** ** The order of the projects and of the output *)
(* ===================================================================== *)

Section ProjectOrder.
Context {F : Type} `{PyFloat F}.
Implicit Types (task : Task.t F) (project : Project.t F).
Implicit Types (team : list (TeamMember.t F)) (projects : list (Project.t F)).

(** X10. [sorted(projects, key=priority)] is a rearrangement of the projects
    in ascending order of the priority number that keeps the input order
    among projects of equal priority. *)
Theorem projects_are_handled_by_priority projects :
  PMA.sorted_projects projects ≡ₚ projects
  ∧ StronglySorted (λ p q, Project.priority p ≤ Project.priority q)
                   (PMA.sorted_projects projects)
  ∧ ∀ p q, precedes p q projects → Project.priority p ≤ Project.priority q →
           precedes p q (PMA.sorted_projects projects).
Proof.
  split; [apply stable_sort_perm|]. split.
  - apply stable_sort_sorted.
    + intros p q Hlt%Z.ltb_lt. lia.
    + intros p q Hge%Z.ltb_ge. lia.
    + intros p q r. lia.
  - intros p q Hpq Hle. apply stable_sort_stable; [done|]. apply Z.ltb_ge. lia.
Qed.

Lemma pma_projects_step team project (st : PMA.state F) task :
  team ≠ [] →
  ResourceAllocation.project <$> (PMA.journal (PMA.allocate_task team project st task)).*2
  = (ResourceAllocation.project <$> (PMA.journal st).*2) ++ [project].
Proof.
  intros Hteam.
  destruct (pma_allocate_task_cases team project st task)
    as [[? _]|(line & m & _ & -> & _)]; [done|].
  unfold PMA.assign; simpl. by rewrite !fmap_app.
Qed.

Lemma pma_projects_loop team project tasks (st : PMA.state F) :
  team ≠ [] →
  ResourceAllocation.project
    <$> (PMA.journal (foldl (PMA.allocate_task team project) st tasks)).*2
  = (ResourceAllocation.project <$> (PMA.journal st).*2) ++ replicate (length tasks) project.
Proof.
  intros Hteam. revert st.
  induction tasks as [|task tasks IH]; intros st; simpl; [by rewrite app_nil_r|].
  rewrite IH, pma_projects_step by done. by rewrite <- app_assoc.
Qed.

Lemma pma_projects_run team uuid projects fresh (st : PMA.state F) :
  team ≠ [] →
  ResourceAllocation.project
    <$> (PMA.journal (PMA.allocate_projects team uuid fresh projects st)).*2
  = (ResourceAllocation.project <$> (PMA.journal st).*2) ++ (projects ≫= replicate 5).
Proof.
  intros Hteam. revert fresh st.
  induction projects as [|project rest IH]; intros fresh st; [by rewrite app_nil_r|].
  cbn [PMA.allocate_projects]. rewrite IH, pma_projects_loop by done.
  by rewrite <- app_assoc.
Qed.

Lemma portfolio_tasks_phases uuid fresh projects :
  Task.phase <$> portfolio_tasks uuid fresh projects = projects ≫= λ _, PMA.phases.
Proof.
  revert fresh. induction projects as [|project rest IH]; intros fresh; [done|].
  cbn [portfolio_tasks]. rewrite fmap_app, IH. done.
Qed.
End ProjectOrder.

(* ===================================================================== *)
(** ** The chain of the phases *)
(* ===================================================================== *)

Section PhaseChain.
Context {F : Type} `{PyFloat F}.
Implicit Types (st : DDA.state F) (task : Task.t F) (project : Project.t F).
Implicit Types (team : list (TeamMember.t F)) (m : TeamMember.t F).

(** A phase that has a task ends at or after its gate. *)
Lemma dda_process_phase_gate team project tasks st idx phase :
  DDA.tasks_by_phase tasks phase ≠ [] → dda_inv st →
  DDA.phase_start_week_of st idx
  ≤ get0 (DDA.phase_end_weeks (DDA.process_phase team project tasks st idx phase)) phase.
Proof.
  intros Hne Hinv. unfold DDA.process_phase.
  pose proof (tasks_by_phase_label tasks phase) as Hlabel.
  destruct (DDA.tasks_by_phase tasks phase) as [|task0 rest] eqn:Htasks; [done|].
  set (g := DDA.phase_start_week_of st idx).
  set (st1 := DDA.mk_state (DDA.bandwidth_tracker st)
                (DDA.raise_cursors team g (DDA.member_earliest_week st))
                (DDA.phase_end_weeks st) g (DDA.journal st)).
  assert (Hp1 : phase_progress g phase st1 st1).
  { split; [|done|done|].
    - unfold dda_inv, st1; simpl. eapply tracker_inv_raise; [exact Hinv|].
      intros n. apply raise_cursors_le.
    - exists []. by rewrite app_nil_r. }
  pose proof (phase_progress_loop team project g phase st1 st1 _ Hlabel Hp1) as Hp2.
  destruct Hp2 as [_ _ Hgate2 _]. simpl. by rewrite get0_insert.
Qed.

Lemma chain_inv_step team project tasks st idx phase :
  DDA.tasks_by_phase tasks phase ≠ [] →
  DDA.phase_order !! idx = Some phase →
  dda_inv st → chain_inv idx st →
  chain_inv (S idx) (DDA.process_phase team project tasks st idx phase).
Proof.
  intros Hne Hidx Hinv [Hlab Hends Hord].
  destruct (dda_process_phase_spec team project tasks st idx phase Hinv)
    as (_ & Hother & new & Hj & Hnew).
  pose proof (dda_process_phase_gate team project tasks st idx phase Hne Hinv) as Hgate.
  rewrite Forall_forall in Hnew.
  set (st' := DDA.process_phase team project tasks st idx phase) in *.
  assert (Hold_ne : ∀ i p, (i < idx)%nat → DDA.phase_order !! i = Some p → p ≠ phase).
  { intros i p Hi Hp ->.
    pose proof (NoDup_lookup _ _ _ _ phase_order_NoDup Hp Hidx). lia. }
  assert (Hbelow : ∀ i p, (i < idx)%nat → DDA.phase_order !! i = Some p →
                          get0 (DDA.phase_end_weeks st) p ≤ DDA.phase_start_week_of st idx).
  { intros i p Hi Hp. destruct idx as [|prev]; [lia|].
    unfold DDA.phase_start_week_of. rewrite nth_lookup.
    destruct (DDA.phase_order !! prev) as [q|] eqn:Hq.
    - simpl. apply (Hends i prev p q); [lia|done|done].
    - apply lookup_ge_None in Hq. apply lookup_lt_Some in Hidx. lia. }
  split.
  - intros e. rewrite Hj. intros [He|He]%elem_of_app.
    + destruct (Hlab e He) as (i & Hi & Hli & Hend). exists i.
      split; [lia|]. split; [done|]. rewrite Hother; [done|].
      intros Heq. by apply (Hold_ne i (label e)).
    + destruct (Hnew e He) as (Hl & _ & Hend). exists idx.
      split; [lia|]. rewrite Hl. done.
  - intros i k p q Hik Hp Hq.
    destruct (decide (k = idx)) as [->|Hk].
    + rewrite Hidx in Hq. injection Hq as <-.
      destruct (decide (i = idx)) as [->|Hi].
      * rewrite Hidx in Hp. by injection Hp as <-.
      * rewrite (Hother p) by (apply (Hold_ne i); [lia|done]).
        etrans; [|exact Hgate]. apply (Hbelow i); [lia|done].
    + rewrite (Hother p) by (apply (Hold_ne i); [lia|done]).
      rewrite (Hother q) by (apply (Hold_ne k); [lia|done]).
      apply (Hends i k); [lia|done|done].
  - intros i k a b. rewrite Hj.
    intros [Ha|Ha]%elem_of_app [Hb|Hb]%elem_of_app Hik Hka Hib.
    + by eapply Hord.
    + destruct (Hnew b Hb) as (Hl & _). rewrite Hl in Hib.
      pose proof (NoDup_lookup _ _ _ _ phase_order_NoDup Hib Hidx) as ->.
      destruct (Hlab a Ha) as (i' & Hi' & Hli' & _).
      pose proof (NoDup_lookup _ _ _ _ phase_order_NoDup Hka Hli'). lia.
    + destruct (Hnew a Ha) as (Hl & Hstart & _).
      destruct (Hlab b Hb) as (i' & Hi' & Hli' & Hend).
      etrans; [exact Hend|]. etrans; [|exact Hstart]. by apply (Hbelow i').
    + destruct (Hnew a Ha) as (Hla & _), (Hnew b Hb) as (Hlb & _).
      rewrite Hla in Hka. rewrite Hlb in Hib.
      pose proof (NoDup_lookup _ _ _ _ phase_order_NoDup Hka Hib). lia.
Qed.

Lemma chain_inv_phases team project tasks remaining :
  (∀ phase, phase ∈ remaining → DDA.tasks_by_phase tasks phase ≠ []) →
  ∀ done_ st,
    DDA.phase_order = done_ ++ remaining →
    dda_inv st → chain_inv (length done_) st →
    chain_inv (length DDA.phase_order)
              (DDA.process_phases team project tasks (length done_) remaining st).
Proof.
  induction remaining as [|phase rest IH]; intros Hne done_ st Hsplit Hinv Hchain.
  - rewrite app_nil_r in Hsplit. by rewrite Hsplit.
  - cbn [DDA.process_phases].
    assert (Hidx : DDA.phase_order !! length done_ = Some phase).
    { rewrite Hsplit. by rewrite list_lookup_middle. }
    replace (S (length done_)) with (length (done_ ++ [phase]))
      by (rewrite length_app; simpl; lia).
    apply IH.
    + intros p Hp. apply Hne. by right.
    + by rewrite <- (assoc_L (++)).
    + by apply dda_process_phase_spec.
    + rewrite length_app. simpl. rewrite Nat.add_1_r.
      apply chain_inv_step; [apply Hne; by left|done|done|done].
Qed.

Lemma dda_final_chain project team tasks :
  (∀ phase, phase ∈ DDA.phase_order → DDA.tasks_by_phase tasks phase ≠ []) →
  chain_inv (length DDA.phase_order) (DDA.final_state project team tasks).
Proof.
  intros Hne.
  apply (chain_inv_phases team project tasks DDA.phase_order Hne []
           (DDA.initial_state team)); [done|apply tracker_inv_init|].
  split; simpl; intros; try lia;
    by match goal with H : _ ∈ [] |- _ => apply elem_of_nil in H end.
Qed.

(** X14. When every phase has a task, the deep-dive run orders all phases: an
    allocation of a later phase starts at or after the end week of every
    allocation of every earlier phase. *)
Theorem phases_fully_sequenced project team tasks i k a b :
  (∀ phase, phase ∈ DDA.phase_order → DDA.tasks_by_phase tasks phase ≠ []) →
  a ∈ DDA.allocate_tasks project team tasks →
  b ∈ DDA.allocate_tasks project team tasks →
  (i < k)%nat →
  DDA.phase_order !! k = Some (Task.phase (ResourceAllocation.task a)) →
  DDA.phase_order !! i = Some (Task.phase (ResourceAllocation.task b)) →
  ResourceAllocation.end_week b ≤ ResourceAllocation.start_week a.
Proof.
  intros Hne [ea [-> Ha]]%list_elem_of_fmap [eb [-> Hb]]%list_elem_of_fmap Hik Hka Hib.
  destruct (dda_final_chain project team tasks Hne) as [_ _ Hord].
  by apply (Hord i k ea eb).
Qed.
End PhaseChain.

(* ===================================================================== *)
(** ** The streak counter and the count of the verifier *)
(* ===================================================================== *)

Section StreakCount.
Context {F : Type} `{PyFloat F}.
Implicit Types (rows : list (BackendIntegration.allocation_row F)).

Lemma count_from_shift n c rows :
  AIAllocationVerifier.count_from n c rows = c + AIAllocationVerifier.count_from n 0 rows.
Proof.
  revert c. induction rows as [|r rows IH]; intros c; simpl; [lia|].
  destruct (decide _); [|lia]. rewrite (IH (c + 1)), (IH (0 + 1)). lia.
Qed.

Lemma count_consecutive_snoc n rows r :
  AIAllocationVerifier._count_consecutive_assignments n (rows ++ [r])
  = if decide (BackendIntegration.team_member r = n)
    then 1 + AIAllocationVerifier._count_consecutive_assignments n rows else 0.
Proof.
  unfold AIAllocationVerifier._count_consecutive_assignments.
  rewrite reverse_snoc. simpl. destruct (decide _); [|done].
  by rewrite count_from_shift.
Qed.

(** X9. The streak counter that enters the score is the number of trailing
    allocations of the member assigned last, as the verifier counts them
    in the rows handed to the front end; of any other member the verifier
    counts none. *)
Theorem streak_counter_is_trailing_run team (st : PMA.state F) n :
  pma_reachable team st →
  AIAllocationVerifier._count_consecutive_assignments n
    (BackendIntegration.portfolio_allocations (PMA.journal st).*2)
  = if decide (PMA.last_assigned_member st = Some n)
    then get0 (PMA.consecutive_tasks st) n else 0.
Proof.
  intros Hreach. revert n.
  induction Hreach as [|project st task Hreach IH]; intros n.
  - done.
  - destruct (pma_allocate_task_cases team project st task)
      as [[_ ->]|(line & m & _ & -> & _)]; [done|].
    unfold PMA.assign. cbn [PMA.journal PMA.last_assigned_member PMA.consecutive_tasks].
    unfold BackendIntegration.portfolio_allocations. rewrite !fmap_app.
    cbn [fmap list_fmap snd]. rewrite count_consecutive_snoc.
    cbn [BackendIntegration.team_member new_allocation ResourceAllocation.team_member].
    fold (BackendIntegration.portfolio_allocations (PMA.journal st).*2).
    rewrite IH.
    destruct (decide (TeamMember.name m = n)) as [<-|Hne].
    + destruct (decide (Some (TeamMember.name m) = Some (TeamMember.name m)))
        as [_|]; [|done].
      unfold PMA.update_streak.
      destruct (decide (PMA.last_assigned_member st = Some (TeamMember.name m))).
      * rewrite get0_insert. lia.
      * by rewrite get0_insert.
    + destruct (decide (Some (TeamMember.name m) = Some n)) as [[= ?]|]; done.
Qed.
End StreakCount.

(* ===================================================================== *)
(** ** The utilization heat map *)
(* ===================================================================== *)

Section HeatMap.
Context {F : Type} `{PyFloat F}.
Implicit Types (weekly_util : list Z) (a : ResourceAllocation.t F).

Lemma add_to_week_spec bandwidth weekly_util week :
  0 ≤ week →
  ∃ updated,
    PortfolioReport.add_to_week bandwidth weekly_util week = Some updated
    ∧ length updated = length weekly_util
    ∧ ∀ w : nat,
        updated !! w
        = (λ used, if decide (Z.of_nat w = week) then used + bandwidth else used)
            <$> weekly_util !! w.
Proof.
  intros Hweek. unfold PortfolioReport.add_to_week.
  destruct (Z.ltb_spec week (Z.of_nat (length weekly_util))) as [Hlt|Hge].
  - destruct (Z.leb_spec 0 week) as [_|?]; [|lia].
    eexists. split; [done|]. split; [by rewrite length_alter|].
    intros w. destruct (decide (Z.of_nat w = week)) as [<-|Hne].
    + rewrite Nat2Z.id, list_lookup_alter_eq. by destruct (weekly_util !! w).
    + rewrite list_lookup_alter_ne by lia. by destruct (weekly_util !! w).
  - exists weekly_util. split; [done|]. split; [done|].
    intros w. destruct (weekly_util !! w) as [used|] eqn:Hw; [|done].
    apply lookup_lt_Some in Hw. simpl. destruct (decide _); [lia|done].
Qed.

Lemma add_weeks_spec bandwidth (weeks : list Z) weekly_util :
  NoDup weeks → (∀ week, week ∈ weeks → 0 ≤ week) →
  ∃ updated,
    foldl (λ row week,
             weekly_util ← row; PortfolioReport.add_to_week bandwidth weekly_util week)
          (Some weekly_util) weeks = Some updated
    ∧ length updated = length weekly_util
    ∧ ∀ w : nat,
        updated !! w
        = (λ used, if decide (Z.of_nat w ∈ weeks) then used + bandwidth else used)
            <$> weekly_util !! w.
Proof.
  intros Hnd. revert weekly_util.
  induction Hnd as [|week weeks Hweek Hnd IH]; intros weekly_util Hpos.
  - exists weekly_util. split; [done|]. split; [done|].
    intros w. by destruct (weekly_util !! w).
  - cbn [foldl mbind option_bind].
    destruct (add_to_week_spec bandwidth weekly_util week) as (first & -> & Hlen & Hlook).
    { apply Hpos. by left. }
    destruct (IH first) as (updated & -> & Hlen' & Hlook').
    { intros x Hx. apply Hpos. by right. }
    exists updated. split; [done|]. split; [lia|].
    intros w. rewrite Hlook', Hlook. destruct (weekly_util !! w) as [used|]; [|done].
    simpl. f_equal.
    destruct (decide (Z.of_nat w = week)) as [<-|Hne].
    + rewrite decide_False by done. rewrite decide_True by (by left). done.
    + destruct (decide (Z.of_nat w ∈ weeks)) as [Hin|Hnin].
      * rewrite decide_True by (by right). done.
      * rewrite decide_False; [done|]. by intros [?|?]%elem_of_cons.
Qed.

(** The loop over the allocations adds to each cell of a member's row
    what [shown] computes from the allocation list. *)
Lemma weekly_util_loop allocations (member : TeamMember.t F) weekly_util :
  (∀ a, a ∈ allocations → 0 ≤ ResourceAllocation.start_week a) →
  ∃ row,
    foldl (λ row alloc,
             if decide (member_name alloc = TeamMember.name member)
             then foldl (λ row week,
                           weekly_util ← row;
                           PortfolioReport.add_to_week
                             (ResourceAllocation.allocated_bandwidth alloc)
                             weekly_util week)
                        row
                        (seqZ (ResourceAllocation.start_week alloc)
                              (ResourceAllocation.end_week alloc + 1
                               - ResourceAllocation.start_week alloc))
             else row)
          (Some weekly_util) allocations = Some row
    ∧ length row = length weekly_util
    ∧ ∀ w : nat,
        row !! w
        = (λ used, used + shown allocations (TeamMember.name member) (Z.of_nat w))
            <$> weekly_util !! w.
Proof.
  revert weekly_util.
  induction allocations as [|a allocations IH]; intros weekly_util Hpos.
  - exists weekly_util. split; [done|]. split; [done|].
    intros w. destruct (weekly_util !! w); [|done]. simpl. f_equal. lia.
  - cbn [foldl].
    assert (Hstart : 0 ≤ ResourceAllocation.start_week a) by (apply Hpos; by left).
    assert (Hrest : ∀ b, b ∈ allocations → 0 ≤ ResourceAllocation.start_week b).
    { intros b Hb. apply Hpos. by right. }
    destruct (decide (member_name a = TeamMember.name member)) as [Hname|Hname].
    + destruct (add_weeks_spec (ResourceAllocation.allocated_bandwidth a)
                  (seqZ (ResourceAllocation.start_week a)
                        (ResourceAllocation.end_week a + 1 - ResourceAllocation.start_week a))
                  weekly_util) as (first & -> & Hlen & Hlook).
      { apply NoDup_seqZ. }
      { intros week Hweek%elem_of_seqZ. lia. }
      destruct (IH first Hrest) as (row & -> & Hlen' & Hlook').
      exists row. split; [done|]. split; [lia|].
      intros w. rewrite Hlook', Hlook. destruct (weekly_util !! w) as [used|]; [|done].
      simpl. f_equal. unfold shown at 2. cbn [foldr].
      fold (shown allocations (TeamMember.name member) (Z.of_nat w)).
      destruct (decide (Z.of_nat w ∈ seqZ _ _)) as [Hin|Hnin].
      * rewrite decide_True; [lia|]. apply elem_of_seqZ in Hin. split; [done|lia].
      * rewrite decide_False; [lia|]. intros [_ Hcov]. apply Hnin, elem_of_seqZ. lia.
    + destruct (IH weekly_util Hrest) as (row & -> & Hlen' & Hlook').
      exists row. split; [done|]. split; [done|].
      intros w. rewrite Hlook'. destruct (weekly_util !! w) as [used|]; [|done].
      simpl. f_equal. unfold shown at 2. cbn [foldr].
      fold (shown allocations (TeamMember.name member) (Z.of_nat w)).
      rewrite decide_False; [done|]. by intros [? _].
Qed.

Lemma weekly_util_of_spec allocations max_week (member : TeamMember.t F) :
  (∀ a, a ∈ allocations → 0 ≤ ResourceAllocation.start_week a) →
  ∃ row,
    PortfolioReport.weekly_util_of allocations max_week member = Some row
    ∧ length row = Z.to_nat (max_week + 1)
    ∧ ∀ (w : nat) used, row !! w = Some used →
        used = shown allocations (TeamMember.name member) (Z.of_nat w).
Proof.
  intros Hpos. unfold PortfolioReport.weekly_util_of.
  destruct (weekly_util_loop allocations member (replicate (Z.to_nat (max_week + 1)) 0) Hpos)
    as (row & Hrow & Hlen & Hlook).
  exists row. split; [exact Hrow|]. split; [by rewrite Hlen, length_replicate|].
  intros w used Hw. rewrite Hlook in Hw.
  destruct (replicate _ _ !! w) as [zero|] eqn:Hz; [|done].
  apply lookup_replicate in Hz as [-> _]. simpl in Hw. by injection Hw as <-.
Qed.

Lemma heatmap_data_spec team allocations :
  (∀ a, a ∈ allocations → 0 ≤ ResourceAllocation.start_week a) →
  ∃ rows,
    PortfolioReport.heatmap_data team allocations = Some rows
    ∧ length rows = length team
    ∧ ∀ (i : nat) member row, team !! i = Some member → rows !! i = Some row →
        length row = Z.to_nat (max_end_week allocations 20 + 1)
        ∧ ∀ (w : nat) used, row !! w = Some used →
            used = shown allocations (TeamMember.name member) (Z.of_nat w).
Proof.
  intros Hpos. unfold PortfolioReport.heatmap_data.
  generalize (max_end_week allocations 20) as max_week. intros max_week.
  induction team as [|member team IH].
  - exists []. split; [done|]. split; [done|]. intros i member row Hi. by rewrite lookup_nil in Hi.
  - destruct IH as (rows & Hrows & Hlen & Hcells).
    destruct (weekly_util_of_spec allocations max_week member Hpos)
      as (row & Hrow & Hlenrow & Hcell).
    exists (row :: rows). split.
    { cbn [mapM]. rewrite Hrow. simpl. rewrite Hrows. done. }
    split; [simpl; lia|].
    intros [|i] member' row'; simpl.
    + intros [= <-] [= <-]. done.
    + apply Hcells.
Qed.
End HeatMap.

Section HeatMapBounds.
Context {F : Type} `{PyFloat F}.
Implicit Types (j : list (console_line * ResourceAllocation.t F)).

Lemma shown_cons (e : console_line * ResourceAllocation.t F) j n w :
  shown (e :: j).*2 n w
  = (if decide (member_name e.2 = n
                ∧ ResourceAllocation.start_week e.2 ≤ w ≤ ResourceAllocation.end_week e.2)
     then ResourceAllocation.allocated_bandwidth e.2 else 0)
    + shown j.*2 n w.
Proof. unfold shown. cbn [fmap list_fmap foldr]. destruct (decide _); lia. Qed.

Lemma shown_none j n w :
  (∀ e, e ∈ j → member_name e.2 = n → w < ResourceAllocation.start_week e.2) →
  shown j.*2 n w = 0.
Proof.
  induction j as [|e j IH]; intros Hlater; [done|].
  rewrite shown_cons, IH by (intros e' He'; apply Hlater; by right).
  destruct (decide _) as [[Hn Hw]|]; [|done].
  assert (w < ResourceAllocation.start_week e.2) by (apply Hlater; [by left|done]). lia.
Qed.

(** Of the allocations of a member that start in week [w] or later at
    most one contains [w], and it starts in [w]. *)
Lemma shown_from j n w :
  Forall entry_ok j → sequential j →
  (∀ e, e ∈ j → member_name e.2 = n → w ≤ ResourceAllocation.start_week e.2) →
  shown j.*2 n w = 0
  ∨ (shown j.*2 n w = 50
     ∧ ∃ e, e ∈ j ∧ member_name e.2 = n ∧ ResourceAllocation.start_week e.2 = w).
Proof.
  induction j as [|e j IH]; intros Hok Hseq Hfrom; [by left|].
  apply Forall_cons in Hok as [He Hok].
  apply sequential_cons in Hseq as [Hseq Hlater].
  rewrite shown_cons.
  destruct (decide _) as [[Hn Hw]|Hno].
  - right. destruct He as [Hend _ Hbw _ _].
    pose proof (duration_weeks_pos (ResourceAllocation.task e.2)) as Hd.
    assert (ResourceAllocation.start_week e.2 = w) as Hs.
    { assert (w ≤ ResourceAllocation.start_week e.2) by (apply Hfrom; [by left|done]). lia. }
    rewrite shown_none.
    + rewrite Hbw. split; [done|]. exists e. split; [by left|done].
    + intros e2 He2 Hn2.
      assert (ResourceAllocation.end_week e.2 ≤ ResourceAllocation.start_week e2.2)
        by (apply Hlater; [done|congruence]).
      lia.
  - destruct IH as [Hz|[H50 (b & Hb & Hnb & Hsb)]]; [done|done| | |].
    + intros e' He'. apply Hfrom. by right.
    + left. lia.
    + right. split; [lia|]. exists b. split; [by right|done].
Qed.

(** A cell of the heat map holds the bandwidth of at most two tasks, and
    of two only in a week in which one allocation of the member ends and
    another one starts. *)
Lemma shown_bound j n w :
  Forall entry_ok j → sequential j →
  shown j.*2 n w ∈ [0; 50; 100]
  ∧ (shown j.*2 n w = 100 →
     ∃ a b, a ∈ j ∧ b ∈ j ∧ member_name a.2 = n ∧ member_name b.2 = n
            ∧ ResourceAllocation.end_week a.2 = w
            ∧ ResourceAllocation.start_week b.2 = w).
Proof.
  induction j as [|e j IH]; intros Hok Hseq.
  { split; [set_solver|done]. }
  pose proof Hok as Hok0. pose proof Hseq as Hseq0.
  apply Forall_cons in Hok as [He Hok].
  apply sequential_cons in Hseq as [Hseq Hlater].
  rewrite shown_cons.
  destruct (decide _) as [[Hn Hw]|Hno].
  - destruct He as [Hend _ Hbw _ _]. rewrite Hbw.
    destruct (shown_from j n w Hok Hseq) as [Hz|[H50 (b & Hb & Hnb & Hsb)]].
    + intros e2 He2 Hn2.
      assert (ResourceAllocation.end_week e.2 ≤ ResourceAllocation.start_week e2.2)
        by (apply Hlater; [done|congruence]).
      lia.
    + rewrite Hz. split; [set_solver|]. unfold bandwidth_needed. lia.
    + rewrite H50. split; [set_solver|]. intros _.
      exists e, b. split; [by left|]. split; [by right|]. split; [done|]. split; [done|].
      split; [|done].
      assert (ResourceAllocation.end_week e.2 ≤ ResourceAllocation.start_week b.2)
        by (apply Hlater; [done|congruence]).
      lia.
  - destruct (IH Hok Hseq) as [Hin Hboth]. split; [done|].
    intros H100. destruct (Hboth H100) as (a & b & Ha & Hb & Hrest).
    exists a, b. split; [by right|]. split; [by right|done].
Qed.
End HeatMapBounds.

Section PortfolioReports.
Context {F : Type} `{PyFloat F}.
Implicit Types (team : list (TeamMember.t F)) (projects : list (Project.t F)).

(** X13. The heat map of a portfolio run is computed without an IndexError,
    with a row per member and a cell per week up to the last end week. A
    cell adds up the bandwidth of the member's allocations from their
    start week to their end week inclusive: it shows 0, 50 or 100, and 100
    only in a week in which one allocation of the member ends and the next
    one starts. *)
Theorem heat_map_counts_the_end_week team projects uuid :
  ∃ rows,
    PortfolioReport.heatmap_data team (PMA.allocate_resources team projects uuid)
    = Some rows
    ∧ length rows = length team
    ∧ ∀ (i : nat) member row, team !! i = Some member → rows !! i = Some row →
        length row
        = Z.to_nat (max_end_week (PMA.allocate_resources team projects uuid) 20 + 1)
        ∧ ∀ (w : nat) used, row !! w = Some used →
            used = shown (PMA.allocate_resources team projects uuid)
                         (TeamMember.name member) (Z.of_nat w)
            ∧ used ∈ [0; 50; 100]
            ∧ (used = 100 →
               ∃ a b, a ∈ PMA.allocate_resources team projects uuid
                      ∧ b ∈ PMA.allocate_resources team projects uuid
                      ∧ member_name a = TeamMember.name member
                      ∧ member_name b = TeamMember.name member
                      ∧ ResourceAllocation.end_week a = Z.of_nat w
                      ∧ ResourceAllocation.start_week b = Z.of_nat w).
Proof.
  destruct (pma_reachable_inv team _ (pma_final_reachable team projects uuid))
    as [[_ Hok _ Hseq] [_ Hent]].
  destruct (heatmap_data_spec team (PMA.allocate_resources team projects uuid))
    as (rows & Hrows & Hlen & Hcells).
  { intros a [e [-> He]]%list_elem_of_fmap. rewrite Forall_forall in Hent.
    by destruct (Hent e He). }
  exists rows. split; [done|]. split; [done|].
  intros i member row Hi Hrow. destruct (Hcells i member row Hi Hrow) as [Hlenrow Hcell].
  split; [done|]. intros w used Hw. specialize (Hcell w used Hw). split; [done|].
  unfold PMA.allocate_resources in *.
  destruct (shown_bound (PMA.journal (PMA.final_state team projects uuid))
              (TeamMember.name member) (Z.of_nat w) Hok Hseq) as [Hin Hboth].
  rewrite <- Hcell in Hin, Hboth. split; [done|].
  intros H100. destruct (Hboth H100) as (a & b & Ha & Hb & Hrest).
  exists a.2, b.2. split; [by apply list_elem_of_fmap_2|].
  split; [by apply list_elem_of_fmap_2|done].
Qed.
End PortfolioReports.

(* ===================================================================== *)
(** ** The reports of the agents *)
(* ===================================================================== *)

Section Timeline.
Context {F : Type} `{PyFloat F}.
Implicit Types (l : list (ResourceAllocation.t F)) (a : ResourceAllocation.t F).

Lemma max_end_week_fold (week : Z) l :
  week ≤ foldl (λ week b, Z.max week (ResourceAllocation.end_week b)) week l
  ∧ (∀ a, a ∈ l →
       ResourceAllocation.end_week a
       ≤ foldl (λ week b, Z.max week (ResourceAllocation.end_week b)) week l)
  ∧ (foldl (λ week b, Z.max week (ResourceAllocation.end_week b)) week l = week
     ∨ ∃ a, a ∈ l ∧
            foldl (λ week b, Z.max week (ResourceAllocation.end_week b)) week l
            = ResourceAllocation.end_week a).
Proof.
  revert week. induction l as [|b l IH]; intros week; cbn [foldl].
  - split; [done|]. split; [|by left]. intros a Ha. by apply elem_of_nil in Ha.
  - destruct (IH (Z.max week (ResourceAllocation.end_week b))) as (Hge & Hall & Hcase).
    split; [lia|]. split.
    + intros a [->|Ha]%elem_of_cons; [lia|by apply Hall].
    + destruct Hcase as [->|(a & Ha & ->)].
      * destruct (Z.max_spec week (ResourceAllocation.end_week b)) as [[_ ->]|[_ ->]].
        -- right. exists b. split; [by left|done].
        -- by left.
      * right. exists a. split; [by right|done].
Qed.

Lemma max_end_week_ge l default a :
  a ∈ l → ResourceAllocation.end_week a ≤ max_end_week l default.
Proof.
  destruct l as [|b l]; [by intros ?%elem_of_nil|]. unfold max_end_week.
  destruct (max_end_week_fold (ResourceAllocation.end_week b) l) as (Hge & Hall & _).
  intros [->|Ha]%elem_of_cons; [done|by apply Hall].
Qed.

Lemma max_end_week_in l default :
  l ≠ [] → ∃ a, a ∈ l ∧ max_end_week l default = ResourceAllocation.end_week a.
Proof.
  destruct l as [|b l]; [done|]. intros _. unfold max_end_week.
  destruct (max_end_week_fold (ResourceAllocation.end_week b) l)
    as (_ & _ & [->|(a & Ha & ->)]).
  - exists b. split; [by left|done].
  - exists a. split; [by right|done].
Qed.

Lemma busy_until_cases l n :
  busy_until l n = 0 ∨ ∃ a, a ∈ l ∧ busy_until l n = ResourceAllocation.end_week a.
Proof.
  induction l as [|a l IH] using rev_ind; [by left|].
  rewrite busy_until_snoc. destruct (decide _).
  - right. exists a. split; [set_solver|done].
  - destruct IH as [?|(b & Hb & ?)]; [by left|].
    right. exists b. split; [set_solver|done].
Qed.
End Timeline.

Section PortfolioSummary.
Context {F : Type} `{PyFloat F}.
Implicit Types (team : list (TeamMember.t F)) (projects : list (Project.t F)).

Lemma portfolio_output_projects team projects uuid :
  team ≠ [] →
  ResourceAllocation.project <$> PMA.allocate_resources team projects uuid
  = PMA.sorted_projects projects ≫= replicate 5.
Proof.
  intros Hteam. unfold PMA.allocate_resources, PMA.final_state.
  by rewrite pma_projects_run.
Qed.

(** X11. With a non-empty roster the portfolio run emits, project by project
    in ascending order of the priority number, one allocation for each of
    the five phases in their fixed order. *)
Theorem portfolio_output_follows_priority team projects uuid :
  team ≠ [] →
  ResourceAllocation.project <$> PMA.allocate_resources team projects uuid
  = PMA.sorted_projects projects ≫= replicate 5
  ∧ Task.phase ∘ ResourceAllocation.task <$> PMA.allocate_resources team projects uuid
    = PMA.sorted_projects projects ≫= λ _, PMA.phases.
Proof.
  intros Hteam. unfold PMA.allocate_resources, PMA.final_state. split.
  - by rewrite pma_projects_run.
  - rewrite list_fmap_compose.
    fold (tasks_of (PMA.journal (PMA.allocate_projects team uuid 0
            (PMA.sorted_projects projects) (PMA.initial_state team)))).
    rewrite pma_tasks_projects by done. apply portfolio_tasks_phases.
Qed.

(** X12. The summary of the portfolio: the project count is the number of
    input projects, which the repair of the integration layer never
    changes; a non-empty roster yields five allocations per project; the
    timeline is the latest end week and equals the largest number of weeks
    assigned to one member. *)
Theorem portfolio_summary team projects uuid :
  PortfolioReport.projects_count (PortfolioReport.execute team projects uuid).1
  = Z.of_nat (length projects)
  ∧ BackendIntegration.summary (PortfolioReport.execute team projects uuid).1 projects
    = (PortfolioReport.execute team projects uuid).1
  ∧ (team ≠ [] →
     PortfolioReport.total_allocations (PortfolioReport.execute team projects uuid).1
     = 5 * Z.of_nat (length projects))
  ∧ (∀ a, a ∈ (PortfolioReport.execute team projects uuid).2 →
          ResourceAllocation.end_week a
          ≤ PortfolioReport.timeline_weeks (PortfolioReport.execute team projects uuid).1)
  ∧ (∀ n, assigned_weeks (PortfolioReport.execute team projects uuid).2 n
          ≤ PortfolioReport.timeline_weeks (PortfolioReport.execute team projects uuid).1)
  ∧ ((PortfolioReport.execute team projects uuid).2 ≠ [] →
     ∃ a, a ∈ (PortfolioReport.execute team projects uuid).2
          ∧ PortfolioReport.timeline_weeks (PortfolioReport.execute team projects uuid).1
            = assigned_weeks (PortfolioReport.execute team projects uuid).2 (member_name a)
          ∧ 1 ≤ PortfolioReport.timeline_weeks (PortfolioReport.execute team projects uuid).1).
Proof.
  unfold PortfolioReport.execute.
  cbn [fst snd PortfolioReport.projects_count PortfolioReport.total_allocations
       PortfolioReport.timeline_weeks].
  assert (Hcount : length (PMA.sorted_projects projects) = length projects).
  { apply Permutation_length, stable_sort_perm. }
  pose proof (pma_final_reachable team projects uuid) as Hreach.
  destruct (pma_reachable_inv team _ Hreach) as [[_ Hok Hcursor _] [Hpos Hent]].
  destruct (calendar_inv_reachable team _ Hreach) as [Hcur Hfill _].
  fold (PMA.allocate_resources team projects uuid) in Hcur, Hfill.
  set (allocations := PMA.allocate_resources team projects uuid) in *.
  assert (Hend : ∀ a, a ∈ allocations → 1 ≤ ResourceAllocation.end_week a
                      ∧ ResourceAllocation.end_week a ≤ busy_until allocations (member_name a)).
  { intros a [e [-> He]]%list_elem_of_fmap.
    rewrite Forall_forall in Hok, Hent.
    destruct (Hok e He) as [Hend _ _ _ _]. destruct (Hent e He) as [_ Hs _].
    pose proof (duration_weeks_pos (ResourceAllocation.task e.2)).
    split; [lia|]. rewrite <- Hcur. by apply Hcursor. }
  assert (Hmax0 : 0 ≤ max_end_week allocations 0).
  { destruct allocations as [|a l] eqn:Hl; [done|].
    destruct (Hend a) as [? _]; [by left|].
    pose proof (max_end_week_ge (a :: l) 0 a ltac:(by left)). lia. }
  assert (Hbusy : ∀ n, busy_until allocations n ≤ max_end_week allocations 0).
  { intros n. destruct (busy_until_cases allocations n) as [->|(a & Ha & ->)]; [done|].
    by apply max_end_week_ge. }
  split; [by rewrite Hcount|]. split.
  { unfold BackendIntegration.summary. cbn [PortfolioReport.projects_count].
    destruct (decide _) as [Hzero|]; [|done]. rewrite Hcount in *.
    by rewrite <- Hzero at 1. }
  split.
  { intros Hteam. unfold allocations.
    rewrite <- (length_fmap ResourceAllocation.project).
    rewrite portfolio_output_projects by done.
    rewrite <- Hcount. generalize (PMA.sorted_projects projects) as l.
    induction l as [|p l IH]; [done|]. cbn [mbind list_bind]. rewrite length_app.
    cbn [length replicate] in *. lia. }
  split; [intros a Ha; by apply max_end_week_ge|].
  split; [intros n; rewrite <- Hfill; apply Hbusy|].
  intros Hne. destruct (max_end_week_in allocations 0 Hne) as (a & Ha & Hmax).
  exists a. split; [done|]. destruct (Hend a Ha) as [H1 Hle].
  specialize (Hbusy (member_name a)). rewrite <- Hfill. split; lia.
Qed.
End PortfolioSummary.

Section DeepDiveSummary.
Context {F : Type} `{PyFloat F}.
Implicit Types (team : list (TeamMember.t F)) (project : Project.t F).

Lemma detailed_tasks_grouped uuid project :
  concat (DDA.tasks_by_phase (DeepDiveReport.create_detailed_tasks uuid project)
            <$> DDA.phase_order)
  = DeepDiveReport.create_detailed_tasks uuid project.
Proof. reflexivity. Qed.

Lemma detailed_tasks_every_phase uuid project phase :
  phase ∈ DDA.phase_order →
  DDA.tasks_by_phase (DeepDiveReport.create_detailed_tasks uuid project) phase ≠ [].
Proof.
  unfold DDA.phase_order. rewrite !elem_of_cons, elem_of_nil.
  intros [->|[->|[->|[->|[->|[]]]]]]; done.
Qed.

Lemma dda_tasks_grouped project team (tasks : list (Task.t F)) :
  team ≠ [] →
  ResourceAllocation.task <$> DDA.allocate_tasks project team tasks
  = concat (DDA.tasks_by_phase tasks <$> DDA.phase_order).
Proof.
  intros Hteam. unfold DDA.allocate_tasks, DDA.final_state.
  fold (tasks_of (DDA.journal (DDA.process_phases team project tasks 0
                                 DDA.phase_order (DDA.initial_state team)))).
  by rewrite dda_tasks_phases.
Qed.

Lemma detailed_tasks_skills uuid project task :
  task ∈ DeepDiveReport.create_detailed_tasks uuid project →
  Task.required_skills task = take 2 (Project.required_skills project).
Proof.
  intros [i Hi]%list_elem_of_lookup_1.
  unfold DeepDiveReport.create_detailed_tasks in Hi.
  rewrite list_lookup_imap in Hi.
  destruct (_ !! i) as [[phase [[task_name description] hours]]|]; [|done].
  simpl in Hi. by injection Hi as <-.
Qed.

Lemma execute_allocations uuid project team :
  (DeepDiveReport.execute uuid project team).2
  = DDA.allocate_tasks project team (DeepDiveReport.create_detailed_tasks uuid project).
Proof. done. Qed.

Lemma execute_timeline uuid project team :
  DeepDiveReport.timeline_weeks (DeepDiveReport.execute uuid project team).1
  = max_end_week
      (DDA.allocate_tasks project team (DeepDiveReport.create_detailed_tasks uuid project)) 0.
Proof. done. Qed.

Lemma execute_total_tasks uuid project team :
  DeepDiveReport.total_tasks (DeepDiveReport.execute uuid project team).1 = 22.
Proof. done. Qed.

(** X15. The deep dive of a project: 22 tasks are created from the templates,
    each requiring the first two skills of the project; with a non-empty
    roster each is allocated once, in the order of the templates; the five
    phases follow each other without overlap; and no allocation ends after
    the reported timeline. *)
Theorem deep_dive_report uuid project team :
  DeepDiveReport.total_tasks (DeepDiveReport.execute uuid project team).1 = 22
  ∧ (team ≠ [] →
     ResourceAllocation.task <$> (DeepDiveReport.execute uuid project team).2
     = DeepDiveReport.create_detailed_tasks uuid project)
  ∧ (∀ (i k : nat) a b,
       a ∈ (DeepDiveReport.execute uuid project team).2 →
       b ∈ (DeepDiveReport.execute uuid project team).2 →
       (i < k)%nat →
       DDA.phase_order !! k = Some (Task.phase (ResourceAllocation.task a)) →
       DDA.phase_order !! i = Some (Task.phase (ResourceAllocation.task b)) →
       ResourceAllocation.end_week b ≤ ResourceAllocation.start_week a)
  ∧ (∀ a, a ∈ (DeepDiveReport.execute uuid project team).2 →
          ResourceAllocation.project a = project
          ∧ Task.required_skills (ResourceAllocation.task a)
            = take 2 (Project.required_skills project)
          ∧ ResourceAllocation.end_week a
            ≤ DeepDiveReport.timeline_weeks (DeepDiveReport.execute uuid project team).1).
Proof.
  rewrite execute_total_tasks, execute_timeline, !execute_allocations.
  generalize (detailed_tasks_grouped uuid project).
  generalize (detailed_tasks_every_phase uuid project).
  generalize (detailed_tasks_skills uuid project).
  generalize (DeepDiveReport.create_detailed_tasks uuid project) as tasks.
  intros tasks Hskills Hevery Hgrouped.
  split; [done|]. split; [|split].
  - intros Hteam. by rewrite dda_tasks_grouped.
  - intros i k a b [ea [-> Ha]]%list_elem_of_fmap [eb [-> Hb]]%list_elem_of_fmap
           Hik Hka Hib.
    destruct (dda_final_chain project team tasks Hevery) as [_ _ Hord].
    by apply (Hord i k ea eb).
  - intros a Ha.
    assert (Hfrom : ResourceAllocation.project a = project
                    ∧ ResourceAllocation.task a ∈ tasks).
    { apply list_elem_of_fmap in Ha as [e [-> He]].
      pose proof (dda_journal_tasks project team tasks) as Hfrom.
      rewrite Forall_forall in Hfrom. by apply Hfrom. }
    destruct Hfrom as [Hproject Htask].
    split; [done|]. split; [by apply Hskills|by apply max_end_week_ge].
Qed.
End DeepDiveSummary.

(* ===================================================================== *)
(** ** Skill gaps *)
(* ===================================================================== *)

Section SkillGaps.
Context {F : Type} `{PyFloat F}.
Implicit Types (team : list (TeamMember.t F)) (projects : list (Project.t F)).
Implicit Types (m : TeamMember.t F).

Lemma all_required_skills_elem projects skill :
  skill ∈ TRA.all_required_skills projects
  ↔ ∃ p, p ∈ projects ∧ skill ∈ Project.required_skills p.
Proof.
  unfold TRA.all_required_skills.
  induction projects as [|p projects IH] using rev_ind.
  - simpl. split; [set_solver|]. intros (p & Hp & _). by apply elem_of_nil in Hp.
  - rewrite foldl_app. simpl. rewrite elem_of_union, IH, elem_of_list_to_set. split.
    + intros [(q & Hq & Hs)|Hs]; [exists q|exists p]; set_solver.
    + intros (q & [Hq| ->%list_elem_of_singleton]%elem_of_app & Hs); [left; by exists q|by right].
Qed.

Lemma identify_skill_gaps_snoc team m projects :
  TRA.identify_skill_gaps (team ++ [m]) projects
  = if decide (TRA.all_required_skills projects ∖ list_to_set (TeamMember.skills m) = ∅)
    then TRA.identify_skill_gaps team projects
    else <[TeamMember.name m :=
             TRA.all_required_skills projects ∖ list_to_set (TeamMember.skills m)]>
           (TRA.identify_skill_gaps team projects).
Proof. unfold TRA.identify_skill_gaps. by rewrite foldl_app. Qed.

(** X16. A member name is missing from the skill gaps exactly when every
    member of that name holds every skill some project requires. An
    entry is never empty: it holds the required skills that a member of
    that name lacks, and for a roster without repeated names the entry of
    a member holds exactly the required skills that this member lacks. *)
Theorem skill_gaps_are_the_missing_skills team projects :
  (∀ n, TRA.identify_skill_gaps team projects !! n = None
        ↔ ∀ m, m ∈ team → TeamMember.name m = n →
               TRA.all_required_skills projects ⊆ list_to_set (TeamMember.skills m))
  ∧ (∀ n missing,
       TRA.identify_skill_gaps team projects !! n = Some missing →
       missing ≠ ∅
       ∧ ∃ m, m ∈ team ∧ TeamMember.name m = n
              ∧ missing = TRA.all_required_skills projects
                            ∖ list_to_set (TeamMember.skills m))
  ∧ (NoDup (TeamMember.name <$> team) →
     ∀ m skill, m ∈ team →
       (∃ missing, TRA.identify_skill_gaps team projects !! TeamMember.name m = Some missing
                   ∧ skill ∈ missing)
       ↔ (∃ p, p ∈ projects ∧ skill ∈ Project.required_skills p)
         ∧ skill ∉ TeamMember.skills m).
Proof.
  assert (Hsome : ∀ n missing,
            TRA.identify_skill_gaps team projects !! n = Some missing →
            missing ≠ ∅
            ∧ ∃ m, m ∈ team ∧ TeamMember.name m = n
                   ∧ missing = TRA.all_required_skills projects
                                 ∖ list_to_set (TeamMember.skills m)).
  { induction team as [|m team IH] using rev_ind; intros n missing.
    - unfold TRA.identify_skill_gaps. simpl. by rewrite lookup_empty.
    - rewrite identify_skill_gaps_snoc. destruct (decide _) as [Hempty|Hgap].
      + intros (Hne & m' & Hm' & Hrest)%IH. split; [done|]. exists m'. set_solver.
      + destruct (decide (TeamMember.name m = n)) as [<-|Hname].
        * rewrite lookup_insert_eq. intros [= <-]. split; [done|]. exists m. set_solver.
        * rewrite lookup_insert_ne by done.
          intros (Hne & m' & Hm' & Hrest)%IH. split; [done|]. exists m'. set_solver. }
  assert (Hnone : ∀ n, TRA.identify_skill_gaps team projects !! n = None
            ↔ ∀ m, m ∈ team → TeamMember.name m = n →
                   TRA.all_required_skills projects ⊆ list_to_set (TeamMember.skills m)).
  { clear Hsome. induction team as [|m team IH] using rev_ind; intros n.
    - unfold TRA.identify_skill_gaps. simpl. rewrite lookup_empty. split; [|done].
      intros _ m Hm. by apply elem_of_nil in Hm.
    - rewrite identify_skill_gaps_snoc. destruct (decide _) as [Hempty|Hgap].
      + rewrite IH. split.
        * intros Hall m' [Hm'| ->%list_elem_of_singleton]%elem_of_app Hn; [by apply Hall|].
          set_solver.
        * intros Hall m' Hm' Hn. apply Hall; [set_solver|done].
      + destruct (decide (TeamMember.name m = n)) as [<-|Hname].
        * rewrite lookup_insert_eq. split; [done|]. intros Hall. exfalso. apply Hgap.
          assert (TRA.all_required_skills projects ⊆ list_to_set (TeamMember.skills m))
            by (apply Hall; [set_solver|done]).
          set_solver.
        * rewrite lookup_insert_ne by done. rewrite IH. split.
          -- intros Hall m' [Hm'| ->%list_elem_of_singleton]%elem_of_app Hn;
               [by apply Hall|done].
          -- intros Hall m' Hm' Hn. apply Hall; [set_solver|done]. }
  split; [done|]. split; [done|].
  intros Hnd m skill Hm. rewrite <- all_required_skills_elem. split.
  - intros (missing & Hlook & Hskill).
    destruct (Hsome _ _ Hlook) as (_ & m' & Hm' & Hn & ->).
    assert (m' = m) as ->.
    { apply list_elem_of_lookup_1 in Hm as [i Hi], Hm' as [i' Hi'].
      assert (i' = i) as ->; [|congruence].
      eapply NoDup_lookup; [exact Hnd| |]; rewrite list_lookup_fmap.
      - by rewrite Hi'.
      - rewrite Hi. simpl. by rewrite Hn. }
    set_solver.
  - intros [Hreq Hlack].
    destruct (TRA.identify_skill_gaps team projects !! TeamMember.name m)
      as [missing|] eqn:Hlook.
    + exists missing. split; [done|].
      destruct (Hsome _ _ Hlook) as (_ & m' & Hm' & Hn & ->).
      assert (m' = m) as ->.
      { apply list_elem_of_lookup_1 in Hm as [i Hi], Hm' as [i' Hi'].
        assert (i' = i) as ->; [|congruence].
        eapply NoDup_lookup; [exact Hnd| |]; rewrite list_lookup_fmap.
        - by rewrite Hi'.
        - rewrite Hi. simpl. by rewrite Hn. }
      set_solver.
    + pose proof (proj1 (Hnone _) Hlook m Hm eq_refl). set_solver.
Qed.
End SkillGaps.

(* ===================================================================== *)
(** ** The conversion of the front-end dictionaries *)
(* ===================================================================== *)

Section Splitting.

Lemma split_on_cons separator s : ∃ field fields, BI.split_on separator s = field :: fields.
Proof.
  destruct s as [|c s]; simpl; [by eexists _, _|].
  destruct (Ascii.eqb c separator); [by eexists _, _|].
  destruct (BI.split_on separator s); by eexists _, _.
Qed.

(** X17. [','.join(text.split(','))] gives the text back, no field contains a
    comma, and there is one field more than there are commas: a text
    without a comma, the empty text included, is one field. *)
Theorem skill_text_splits_at_commas (separator : Ascii.ascii) (text : string) :
  String.concat (String separator EmptyString) (BI.split_on separator text) = text
  ∧ Forall (λ field, separator ∉ String.list_ascii_of_string field) (BI.split_on separator text)
  ∧ length (BI.split_on separator text)
    = S (length (filter (λ c, c = separator) (String.list_ascii_of_string text))).
Proof.
  induction text as [|c text (IHjoin & IHfields & IHlength)].
  - simpl. split; [done|]. split; [|done]. constructor; [|constructor].
    by intros ?%elem_of_nil.
  - simpl. destruct (Ascii.eqb_spec c separator) as [->|Hne].
    + split; [|split].
      * destruct (split_on_cons separator text) as (field & fields & Hsplit).
        rewrite Hsplit in *. rewrite <- IHjoin. reflexivity.
      * constructor; [by intros ?%elem_of_nil|done].
      * rewrite filter_cons_True by done. simpl. by rewrite IHlength.
    + destruct (BI.split_on separator text) as [|field fields] eqn:Hsplit.
      { by destruct (split_on_cons separator text) as (? & ? & ?). }
      split; [|split].
      * rewrite <- IHjoin. cbn [String.concat]. by destruct fields.
      * apply Forall_cons in IHfields as [Hfield Hfields].
        constructor; [|done]. simpl. by intros [?|?]%elem_of_cons.
      * rewrite filter_cons_False by done. done.
Qed.
End Splitting.

Section Conversion.
Context {F : Type} `{PyFloat F}.
Variable strip : string → string.
Implicit Types (team_data : list (BI.member_dict F)) (project_data : list (BI.proj_dict F)).

Lemma skills_list_cons text : ∃ skill skills, BI.skills_list strip text = skill :: skills.
Proof.
  unfold BI.skills_list.
  destruct (split_on_cons ","%char text) as (field & fields & ->). by eexists _, _.
Qed.

Lemma converted_project uuid team_data project_data (i : nat) p :
  (BI.convert_frontend_to_backend strip uuid team_data project_data).2 !! i = Some p →
  ∃ d, project_data !! i = Some d
       ∧ Project.required_skills p = BI.skills_list strip (BI.proj_required_skills d)
       ∧ Project.priority p = BI.convert_priority (default (BI.PyInt 3) (BI.proj_priority d)).
Proof.
  unfold BI.convert_frontend_to_backend. cbn [snd]. rewrite list_lookup_imap.
  destruct (project_data !! i) as [d|]; [|done]. simpl. intros [= <-]. by exists d.
Qed.

(** X18. The skills required by a converted project are never an empty list,
    whatever the text field holds, and neither are those of the tasks the
    agents create for it: the skill score of such a task is always the
    matched fraction, never the neutral default. *)
Theorem default_skill_score_is_never_used uuid team_data project_data p task m :
  p ∈ (BI.convert_frontend_to_backend strip uuid team_data project_data).2 →
  (∃ ids fresh, task ∈ PMA._create_portfolio_tasks ids fresh p)
  ∨ (∃ ids, task ∈ DeepDiveReport.create_detailed_tasks ids p) →
  Project.required_skills p ≠ []
  ∧ Task.required_skills task ≠ []
  ∧ PMA.match_skills (Task.required_skills task) m
    = fdiv (of_int (matched_skills (Task.required_skills task) m))
           (of_int (Z.of_nat (length (Task.required_skills task))))
  ∧ DDA.match_score_of task m
    = fdiv (of_int (matched_skills (Task.required_skills task) m))
           (of_int (Z.of_nat (length (Task.required_skills task)))).
Proof.
  intros [i Hi]%list_elem_of_lookup_1 Htask.
  destruct (converted_project _ _ _ _ _ Hi) as (d & _ & Hskills & _).
  destruct (skills_list_cons (BI.proj_required_skills d)) as (skill & skills & Hcons).
  rewrite Hcons in Hskills.
  assert (Htake : Task.required_skills task = take 2 (Project.required_skills p)).
  { destruct Htask as [(ids & fresh & Htask)|(ids & Htask)].
    - apply list_elem_of_lookup_1 in Htask as [k Hk].
      unfold PMA._create_portfolio_tasks in Hk. rewrite list_lookup_imap in Hk.
      destruct (PMA.phases !! k); [|done]. simpl in Hk. by injection Hk as <-.
    - by apply (detailed_tasks_skills ids). }
  rewrite Hskills in Htake. split; [by rewrite Hskills|].
  unfold PMA.match_skills, DDA.match_score_of. rewrite Htake. by destruct skills.
Qed.

Lemma precedes_lookup {A} (l : list A) (i k : nat) x y :
  (i < k)%nat → l !! i = Some x → l !! k = Some y → precedes x y l.
Proof.
  unfold precedes. revert i k. induction l as [|z l IH]; intros i k Hik Hx Hy; [done|].
  destruct i as [|i].
  - simpl in Hx. injection Hx as ->. destruct k as [|k]; [lia|]. simpl in Hy.
    apply sublist_skip, singleton_sublist_l. by eapply list_elem_of_lookup_2.
  - destruct k as [|k]; [lia|]. simpl in Hx, Hy. apply sublist_cons.
    apply (IH i k); [lia|done|done].
Qed.

(** X19. The label under the key [priority] ranks a project: Critical before
    High before Medium before Low, a label that is none of the four and a
    missing key ranking like Medium. Of two converted projects the one
    that is earlier in the input is handled first unless the later one has
    a strictly smaller rank. *)
Theorem labelled_projects_are_ranked uuid team_data project_data :
  (∀ label,
     BI.convert_priority (BI.PyStr label)
     = if decide (label = "Critical") then 1
       else if decide (label = "High") then 2
       else if decide (label = "Low") then 4 else 3)
  ∧ ∀ (i k : nat) d1 d2 p1 p2,
      (i < k)%nat →
      project_data !! i = Some d1 → project_data !! k = Some d2 →
      (BI.convert_frontend_to_backend strip uuid team_data project_data).2 !! i = Some p1 →
      (BI.convert_frontend_to_backend strip uuid team_data project_data).2 !! k = Some p2 →
      BI.convert_priority (default (BI.PyInt 3) (BI.proj_priority d1))
      ≤ BI.convert_priority (default (BI.PyInt 3) (BI.proj_priority d2)) →
      precedes p1 p2
        (PMA.sorted_projects
           (BI.convert_frontend_to_backend strip uuid team_data project_data).2).
Proof.
  split.
  - intros label. unfold BI.convert_priority, BI.PRIORITY_MAP. cbn [find fst snd].
    destruct (String.eqb_spec "Critical" label) as [<-|H1]; [done|].
    rewrite decide_False by done.
    destruct (String.eqb_spec "High" label) as [<-|H2]; [done|].
    rewrite decide_False by done.
    destruct (String.eqb_spec "Medium" label) as [<-|H3]; [done|].
    destruct (String.eqb_spec "Low" label) as [<-|H4]; [done|].
    by rewrite decide_False.
  - intros i k d1 d2 p1 p2 Hik Hd1 Hd2 Hp1 Hp2 Hrank.
    destruct (converted_project _ _ _ _ _ Hp1) as (d1' & Hd1' & _ & Hr1).
    destruct (converted_project _ _ _ _ _ Hp2) as (d2' & Hd2' & _ & Hr2).
    simplify_eq.
    apply stable_sort_stable; [by apply (precedes_lookup _ i k)|].
    apply Z.ltb_ge. lia.
Qed.
End Conversion.

(* ===================================================================== *)
(** ** The projects of the deep dive *)
(* ===================================================================== *)

Section DeepDiveChoice.
Context {F : Type} `{PyFloat F}.
Implicit Types (projects : list (Project.t F)).

(** Sorting by a key keeps, for every value of the key, the elements of
    that value in their order. *)
Lemma stable_insert_filter {A} (key : A → Z) (c : Z) (x : A) (l : list A) :
  filter (λ y, key y = c) (stable_insert (λ y x, key y <? key x) x l)
  = filter (λ y, key y = c) (x :: l).
Proof.
  induction l as [|y l IH]; [done|]. simpl.
  destruct (Z.ltb_spec (key y) (key x)) as [Hlt|Hge]; [|done].
  rewrite filter_cons, IH, !filter_cons.
  destruct (decide (key y = c)), (decide (key x = c)); try done. lia.
Qed.

Lemma stable_sort_filter {A} (key : A → Z) (c : Z) (l : list A) :
  filter (λ y, key y = c) (stable_sort (λ y x, key y <? key x) l)
  = filter (λ y, key y = c) l.
Proof.
  induction l as [|x l IH]; [done|]. simpl.
  by rewrite stable_insert_filter, !filter_cons, IH.
Qed.

(** X20. Without a choice in the configuration the deep dive takes the first
    two projects of priority 1, which are also the first two projects of
    priority 1 in the order of the portfolio run, and none if there is no
    such project. With a choice it takes every project whose name is
    chosen, however many there are. *)
Theorem deep_dive_takes_two_critical_projects projects :
  MasterManagerAgent.deep_dive_projects [] projects
  = take 2 (filter (λ p, Project.priority p = 1) (PMA.sorted_projects projects))
  ∧ (length (MasterManagerAgent.deep_dive_projects [] projects) ≤ 2)%nat
  ∧ (∀ p, p ∈ MasterManagerAgent.deep_dive_projects [] projects →
          p ∈ projects ∧ Project.priority p = 1)
  ∧ (∀ name names p,
       p ∈ MasterManagerAgent.deep_dive_projects (name :: names) projects
       ↔ p ∈ projects ∧ Project.name p ∈ name :: names).
Proof.
  unfold MasterManagerAgent.deep_dive_projects. split; [|split; [|split]].
  - unfold PMA.sorted_projects. by rewrite (stable_sort_filter Project.priority 1).
  - rewrite length_take. lia.
  - intros p Hp. pose proof (elem_of_sublist _ _ _ Hp (sublist_take _ _)) as Hin.
    by apply list_elem_of_filter in Hin as [? ?].
  - intros name names p. rewrite list_elem_of_filter. tauto.
Qed.
End DeepDiveChoice.

(* ===================================================================== *)
(** ** Instances of the further properties on the concrete inputs *)
(* ===================================================================== *)

Lemma member_never_double_booked_witness :
  ∃ a b,
    PMA.allocate_resources (F:=float) [Scenario.A; Scenario.B] [Scenario.portal 5]
                           Scenario.uuid !! 0%nat = Some a
    ∧ PMA.allocate_resources (F:=float) [Scenario.A; Scenario.B] [Scenario.portal 5]
                             Scenario.uuid !! 1%nat = Some b
    ∧ TeamMember.name (ResourceAllocation.team_member a)
      = TeamMember.name (ResourceAllocation.team_member b)
    ∧ ¬ (covers a 2 ∧ covers b 2).
Proof.
  assert (Hrun : ∃ a b,
    PMA.allocate_resources (F:=float) [Scenario.A; Scenario.B] [Scenario.portal 5]
                           Scenario.uuid !! 0%nat = Some a
    ∧ PMA.allocate_resources (F:=float) [Scenario.A; Scenario.B] [Scenario.portal 5]
                             Scenario.uuid !! 1%nat = Some b
    ∧ TeamMember.name (ResourceAllocation.team_member a)
      = TeamMember.name (ResourceAllocation.team_member b)).
  { vm_compute. eexists _, _. repeat split; reflexivity. }
  destruct Hrun as (a & b & Ha & Hb & Hname). exists a, b.
  split; [exact Ha|]. split; [exact Hb|]. split; [exact Hname|].
  apply (member_never_double_booked (F:=float) [Scenario.A; Scenario.B]
           [Scenario.portal 5] Scenario.uuid (Scenario.portal 5) [] []
           (PMA.allocate_resources [Scenario.A; Scenario.B] [Scenario.portal 5]
              Scenario.uuid) 0 1 a b 2);
    [by left|exact Ha|exact Hb|lia|exact Hname].
Defined.

Lemma fallback_only_without_capacity_witness :
  ∃ line a,
    (line, a) ∈ PMA.journal (PMA.final_state (F:=float) [Scenario.ann 40]
                               [Scenario.portal 5] Scenario.uuid)
    ∧ (line = Overallocated
       ↔ ∀ m, m ∈ [Scenario.ann (F:=float) 40] →
              TeamMember.total_bandwidth_percent m < bandwidth_needed)
    ∧ (TeamMember.total_bandwidth_percent (ResourceAllocation.team_member a)
       < bandwidth_needed
       ↔ ∀ m, m ∈ [Scenario.ann (F:=float) 40] →
              TeamMember.total_bandwidth_percent m < bandwidth_needed).
Proof.
  assert (Hrun : ∃ line a,
            PMA.journal (PMA.final_state (F:=float) [Scenario.ann 40]
                           [Scenario.portal 5] Scenario.uuid) !! 0%nat = Some (line, a)).
  { vm_compute. eexists _, _. reflexivity. }
  destruct Hrun as (line & a & Hin%list_elem_of_lookup_2). exists line, a.
  split; [exact Hin|].
  apply (fallback_only_without_capacity (F:=float) [Scenario.ann 40]
           [Scenario.portal 5] Scenario.uuid (Scenario.portal 5) [] line a).
  left. exact Hin.
Defined.

Lemma portfolio_member_works_without_gaps_witness :
  ∃ a,
    PMA.allocate_resources (F:=float) [Scenario.A; Scenario.B] [Scenario.portal 5]
                           Scenario.uuid !! 3%nat = Some a
    ∧ member_name a = "A"
    ∧ ResourceAllocation.start_week a
      = busy_until (take 3 (PMA.allocate_resources (F:=float) [Scenario.A; Scenario.B]
                              [Scenario.portal 5] Scenario.uuid)) (member_name a)
    ∧ ResourceAllocation.end_week a
      = assigned_weeks (take 4 (PMA.allocate_resources (F:=float) [Scenario.A; Scenario.B]
                                  [Scenario.portal 5] Scenario.uuid)) (member_name a).
Proof.
  assert (Hrun : ∃ a,
    PMA.allocate_resources (F:=float) [Scenario.A; Scenario.B] [Scenario.portal 5]
                           Scenario.uuid !! 3%nat = Some a
    ∧ member_name a = "A").
  { vm_compute. eexists. split; reflexivity. }
  destruct Hrun as (a & Ha & Hname). exists a.
  split; [exact Ha|]. split; [exact Hname|].
  apply (portfolio_member_works_without_gaps (F:=float) [Scenario.A; Scenario.B]
           [Scenario.portal 5] Scenario.uuid 3 a). exact Ha.
Defined.

Lemma phases_fully_sequenced_witness :
  (∀ phase, phase ∈ DDA.phase_order →
     DDA.tasks_by_phase
       (DeepDiveReport.create_detailed_tasks (F:=float) Scenario.uuid (Scenario.portal 5))
       phase ≠ [])
  ∧ ∃ a b,
      a ∈ DDA.allocate_tasks (F:=float) (Scenario.portal 5) [Scenario.A; Scenario.B]
            (DeepDiveReport.create_detailed_tasks Scenario.uuid (Scenario.portal 5))
      ∧ b ∈ DDA.allocate_tasks (F:=float) (Scenario.portal 5) [Scenario.A; Scenario.B]
              (DeepDiveReport.create_detailed_tasks Scenario.uuid (Scenario.portal 5))
      ∧ Task.phase (ResourceAllocation.task a) = "Deployment"
      ∧ Task.phase (ResourceAllocation.task b) = "Planning"
      ∧ ResourceAllocation.end_week b ≤ ResourceAllocation.start_week a.
Proof.
  assert (Hevery : ∀ phase, phase ∈ DDA.phase_order →
     DDA.tasks_by_phase
       (DeepDiveReport.create_detailed_tasks (F:=float) Scenario.uuid (Scenario.portal 5))
       phase ≠ []).
  { intros phase. unfold DDA.phase_order. rewrite !elem_of_cons, elem_of_nil.
    intros [->|[->|[->|[->|[->|[]]]]]]; by vm_compute. }
  split; [exact Hevery|].
  assert (Hrun : ∃ a b,
      DDA.allocate_tasks (F:=float) (Scenario.portal 5) [Scenario.A; Scenario.B]
        (DeepDiveReport.create_detailed_tasks Scenario.uuid (Scenario.portal 5)) !! 21%nat
      = Some a
      ∧ DDA.allocate_tasks (F:=float) (Scenario.portal 5) [Scenario.A; Scenario.B]
          (DeepDiveReport.create_detailed_tasks Scenario.uuid (Scenario.portal 5)) !! 0%nat
        = Some b
      ∧ Task.phase (ResourceAllocation.task a) = "Deployment"
      ∧ Task.phase (ResourceAllocation.task b) = "Planning").
  { vm_compute. eexists _, _. repeat split; reflexivity. }
  destruct Hrun as (a & b & Ha%list_elem_of_lookup_2 & Hb%list_elem_of_lookup_2 & Hpa & Hpb).
  exists a, b. split; [exact Ha|]. split; [exact Hb|]. split; [exact Hpa|].
  split; [exact Hpb|].
  apply (phases_fully_sequenced (F:=float) (Scenario.portal 5) [Scenario.A; Scenario.B]
           (DeepDiveReport.create_detailed_tasks Scenario.uuid (Scenario.portal 5))
           0 4 a b Hevery Ha Hb); [lia| |].
  - rewrite Hpa. reflexivity.
  - rewrite Hpb. reflexivity.
Defined.

Lemma streak_counter_is_trailing_run_witness :
  pma_reachable [Scenario.unnamed; Scenario.bea] (Scenario.after_two_tasks (F:=float))
  ∧ AIAllocationVerifier._count_consecutive_assignments "B"
      (BI.portfolio_allocations (PMA.journal (Scenario.after_two_tasks (F:=float))).*2)
    = if decide (PMA.last_assigned_member (Scenario.after_two_tasks (F:=float)) = Some "B")
      then get0 (PMA.consecutive_tasks (Scenario.after_two_tasks (F:=float))) "B" else 0.
Proof.
  assert (Hreach : pma_reachable [Scenario.unnamed; Scenario.bea]
                     (Scenario.after_two_tasks (F:=float))).
  { unfold Scenario.after_two_tasks.
    cbn [PMA._create_portfolio_tasks PMA.phases imap take foldl].
    apply reach_step, reach_step, reach_initial. }
  split; [exact Hreach|].
  apply (streak_counter_is_trailing_run (F:=float) [Scenario.unnamed; Scenario.bea]
           Scenario.after_two_tasks "B" Hreach).
Defined.

Lemma portfolio_output_follows_priority_witness :
  [Scenario.A (F:=float); Scenario.B] ≠ []
  ∧ ResourceAllocation.project
      <$> PMA.allocate_resources (F:=float) [Scenario.A; Scenario.B]
            [Scenario.billing; Scenario.portal 5] Scenario.uuid
    = PMA.sorted_projects [Scenario.billing; Scenario.portal 5] ≫= replicate 5.
Proof.
  assert (Hteam : [Scenario.A (F:=float); Scenario.B] ≠ []) by done.
  split; [exact Hteam|].
  pose proof (portfolio_output_follows_priority (F:=float) [Scenario.A; Scenario.B]
                [Scenario.billing; Scenario.portal 5] Scenario.uuid Hteam) as Hthm.
  destruct Hthm as [Hprojects _]. exact Hprojects.
Defined.

Lemma default_skill_score_is_never_used_witness :
  ∃ p task,
    (BI.convert_frontend_to_backend (F:=float) FrontEnd.strip Scenario.uuid
       FrontEnd.team_data FrontEnd.project_data).2 !! 1%nat = Some p
    ∧ PMA._create_portfolio_tasks Scenario.uuid' 0 p !! 0%nat = Some task
    ∧ Project.required_skills p = [EmptyString]
    ∧ Task.required_skills task ≠ []
    ∧ PMA.match_skills (Task.required_skills task) (Scenario.A (F:=float))
      = fdiv (of_int (matched_skills (Task.required_skills task) (Scenario.A (F:=float))))
             (of_int (Z.of_nat (length (Task.required_skills task)))).
Proof.
  assert (Hrun : ∃ p task,
    (BI.convert_frontend_to_backend (F:=float) FrontEnd.strip Scenario.uuid
       FrontEnd.team_data FrontEnd.project_data).2 !! 1%nat = Some p
    ∧ PMA._create_portfolio_tasks Scenario.uuid' 0 p !! 0%nat = Some task
    ∧ Project.required_skills p = [EmptyString]).
  { eexists _, _. split; [by vm_compute|]. split; by vm_compute. }
  destruct Hrun as (p & task & Hp & Htask & Hblank). exists p, task.
  split; [exact Hp|]. split; [exact Htask|]. split; [exact Hblank|].
  pose proof (default_skill_score_is_never_used (F:=float) FrontEnd.strip Scenario.uuid
                FrontEnd.team_data FrontEnd.project_data p task Scenario.A) as Hthm.
  destruct Hthm as (_ & Hne & Hscore & _).
  - by eapply list_elem_of_lookup_2.
  - left. exists Scenario.uuid', 0%nat. by eapply list_elem_of_lookup_2.
  - split; [exact Hne|exact Hscore].
Defined.

Lemma task_goes_to_best_scored_member_witness :
  pma_reachable [Scenario.A; Scenario.B] (PMA.initial_state (F:=float) [Scenario.A; Scenario.B])
  ∧ Forall (λ m, PrimFloat.is_nan
                   (PMA.combined_score
                      (PMA.score_member (PMA.initial_state [Scenario.A; Scenario.B])
                         (Scenario.work_item "Requirements" "Planning" 40) m)) = false)
           [Scenario.A (F:=float); Scenario.B]
  ∧ ∃ line m,
      m ∈ [Scenario.A (F:=float); Scenario.B]
      ∧ PMA.allocate_task [Scenario.A; Scenario.B] (Scenario.portal 5)
          (PMA.initial_state [Scenario.A; Scenario.B])
          (Scenario.work_item "Requirements" "Planning" 40)
        = PMA.assign line (Scenario.portal 5)
            (Scenario.work_item "Requirements" "Planning" 40) m
            (PMA.initial_state [Scenario.A; Scenario.B])
      ∧ PrimFloat.leb
          (PMA.combined_score
             (PMA.score_member (PMA.initial_state [Scenario.A; Scenario.B])
                (Scenario.work_item "Requirements" "Planning" 40) Scenario.B))
          (PMA.combined_score
             (PMA.score_member (PMA.initial_state [Scenario.A; Scenario.B])
                (Scenario.work_item "Requirements" "Planning" 40) m))
        = true.
Proof.
  assert (Hreach : pma_reachable [Scenario.A; Scenario.B]
                     (PMA.initial_state (F:=float) [Scenario.A; Scenario.B]))
    by apply reach_initial.
  assert (Hnan : Forall (λ m, PrimFloat.is_nan
                   (PMA.combined_score
                      (PMA.score_member (PMA.initial_state [Scenario.A; Scenario.B])
                         (Scenario.work_item "Requirements" "Planning" 40) m)) = false)
           [Scenario.A (F:=float); Scenario.B]).
  { apply (bool_decide_unpack _). by vm_compute. }
  split; [exact Hreach|]. split; [exact Hnan|].
  destruct task_goes_to_best_scored_member as (Hportfolio & _).
  destruct (Hportfolio [Scenario.A; Scenario.B] (Scenario.portal 5)
              (PMA.initial_state [Scenario.A; Scenario.B])
              (Scenario.work_item "Requirements" "Planning" 40) Hreach)
    as (line & m & Hm & Hstep & Hassigned & Hfallback);
    [done|by apply Forall_forall|].
  exists line, m. split; [exact Hm|]. split; [exact Hstep|].
  destruct line.
  - destruct (Hassigned eq_refl) as [_ Hbest].
    apply Hbest; [apply list_elem_of_further, list_elem_of_here|by vm_compute].
  - destruct (Hfallback eq_refl) as [_ Hbest].
    apply Hbest. apply list_elem_of_further, list_elem_of_here.
Defined.

Lemma workload_counts_assigned_weeks_witness :
  pma_reachable [Scenario.unnamed; Scenario.bea] (Scenario.after_two_tasks (F:=float))
  ∧ total_workload (PMA.bandwidth_tracker (Scenario.after_two_tasks (F:=float)))
                   Scenario.bea
    = 50 * assigned_weeks (PMA.journal (Scenario.after_two_tasks (F:=float))).*2 "B".
Proof.
  assert (Hreach : pma_reachable [Scenario.unnamed; Scenario.bea]
                     (Scenario.after_two_tasks (F:=float))).
  { unfold Scenario.after_two_tasks.
    cbn [PMA._create_portfolio_tasks PMA.phases imap take foldl].
    apply reach_step, reach_step, reach_initial. }
  split; [exact Hreach|].
  destruct workload_counts_assigned_weeks as [Hportfolio _].
  apply (Hportfolio float binary64 [Scenario.unnamed; Scenario.bea]
           Scenario.after_two_tasks Scenario.bea Hreach).
Defined.
